(** * hidive-pubs: a shallow embedding of the Zotero export script

    The script fetches two Zotero collections, normalizes every record with
    a zod schema, resolves DOIs to PubMed identifiers, formats a citation
    per item and writes [papers.json], [pubs.csv] and [preprints.csv].

    The embedding follows the last revision of the script (the one with
    [fetchZoteroCollection] and the [rich] formatting option).  Of the
    earlier revision that lists item keys first, [Module KeyListing] holds
    the key listing, the formatting and the loop over the keys; [Module
    Readme] holds the script that writes the tables into the README.

    Conventions.
    - A JavaScript [string | undefined] is an [option string]; [undefined]
      is [None].
    - A JavaScript number is a [number]: an integer or [NaN].  Fractions and
      infinities are not modelled.
    - Code that throws, logs, performs requests or writes files lives in the
      monad [Eff]: a trace of events together with a value or an error. *)

From Stdlib Require Import ZArith String Ascii List Bool Lia.
From Stdlib Require Import DecimalString Sorted Permutation.
From stdpp Require Import base option gmap strings list.

Import ListNotations.
Local Open Scope string_scope.
Local Open Scope list_scope.
Local Open Scope Z_scope.

(** ** JavaScript values and primitives *)

Inductive number : Type :=
| Num (z : Z)
| NaN.

(** What the program needs from its host: [Number(s)] on a string and the
    conversion of a local time value to UTC done by [new Date(y, m)]. *)
Class Host : Type := {
  StringToNumber : string -> number;
  UTC : Z -> Z
}.

(** Truthiness of a [string | undefined]: [if (x)] holds for a string that
    is not empty. *)
Definition truthy (x : option string) : bool :=
  match x with
  | Some s => negb (String.eqb s "")
  | None => false
  end.

(** [s.includes(needle)]. *)
Fixpoint includes (s needle : string) : bool :=
  String.prefix needle s ||
  match s with
  | EmptyString => false
  | String _ rest => includes rest needle
  end.

(** [x?.includes(needle)] used as a condition: [undefined] is falsy. *)
Definition opt_includes (x : option string) (needle : string) : bool :=
  match x with
  | Some s => includes s needle
  | None => false
  end.

(** [Array.prototype.join]. *)
Fixpoint join (sep : string) (l : list string) : string :=
  match l with
  | [] => ""
  | [x] => x
  | x :: rest => x +:+ sep +:+ join sep rest
  end.

(** The class [[A-Z]] of the regular expression in [formatAuthors]. *)
Definition isAZ (c : ascii) : bool :=
  (65 <=? nat_of_ascii c)%nat && (nat_of_ascii c <=? 90)%nat.

Fixpoint matches_AZ (s : string) : list string :=
  match s with
  | EmptyString => []
  | String c rest =>
      if isAZ c then String c EmptyString :: matches_AZ rest
      else matches_AZ rest
  end.

(** [s.match(/[A-Z]/g)]: [null] when nothing matches, otherwise the array
    of matches. *)
Definition match_AZ (s : string) : option (list string) :=
  match matches_AZ s with
  | [] => None
  | l => Some l
  end.

(** The double quote of the citation template. *)
Definition quote : string := String (ascii_of_nat 34) EmptyString.

(** [String(n)] for the numbers of the model. *)
Definition string_of_Z (z : Z) : string := NilZero.string_of_int (Z.to_int z).

Definition number_to_string (n : option number) : string :=
  match n with
  | None => "undefined"
  | Some NaN => "NaN"
  | Some (Num z) => string_of_Z z
  end.

(** ** Errors, events and the effect monad *)

Inductive Error : Type :=
| AssertionError (msg : string)
| TypeError (msg : string)
| ZodError (msg : string)
| SyntaxError
| NetworkError.

(** The outcome of a computation: a value, a thrown error, or [OutOfFuel]
    when a loop was cut before it ended (the loops of the program carry a
    bound on their number of turns; [OutOfFuel] is no JavaScript outcome). *)
Inductive Result (A : Type) : Type :=
| Ok (a : A)
| Throw (e : Error)
| OutOfFuel.
Arguments Ok {A} a.
Arguments Throw {A} e.
Arguments OutOfFuel {A}.

(** ** The normalized item *)

Inductive CreatorType : Type := author | editor.

Inductive Author : Type :=
| Org (creatorType : CreatorType) (name : string)
| Person (creatorType : CreatorType) (firstName lastName : string).

Definition creatorTypeOf (a : Author) : CreatorType :=
  match a with
  | Org t _ => t
  | Person t _ _ => t
  end.

Record IssuedDate : Type := {
  year : option number;
  month : option number;
  day : option number
}.

Record ZoteroItem : Type := {
  key : string;
  version : Z;
  itemType : string;
  title : string;
  creators : list Author;
  abstractNote : string;
  institution : option string;
  bookTitle : option string;
  proceedingsTitle : option string;
  publicationTitle : option string;
  volume : option string;
  issue : option string;
  pages : option string;
  series : option string;
  seriesTitle : option string;
  seriesText : option string;
  journalAbbreviation : option string;
  DOI : option string;
  ISSN : option string;
  shortTitle : option string;
  url : option string;
  date : IssuedDate
}.

(** An item with its PubMed identifier: [{ pmid: ..., ...item }]. *)
Record Enriched : Type := {
  pmid : option string;
  item : ZoteroItem
}.

(** The contents of the files written are the values handed to
    [JSON.stringify] (a list of items, of the item type of the revision)
    and to the CSV [stringify] (rows and columns); the serialized text is
    the business of those libraries. *)

Record CsvRow : Type := {
  Month : option number;
  Year : option number;
  Citation : string;
  PubMedID : option string;
  RowDOI : option string
}.

Record CsvTable : Type := {
  columns : list string;
  rows : list CsvRow
}.

Inductive Content : Type :=
| JsonText {I : Type} (doc : list I)
| CsvText (table : CsvTable).

(** A query parameter: a string, or a number still to be written in
    decimal ([n.toString()]). *)
Inductive QueryValue : Type :=
| QStr (s : string)
| QNum (n : nat).

(** A GET request: the URL without its query, and the query parameters. *)
Record Request : Type := {
  endpoint : string;
  query : list (string * QueryValue)
}.

(** What the program does to the outside: a line on the error console
    (message and key of the item shown), a request, [fs.ensureDir(dir)] and
    [Deno.writeTextFileSync(path.join(dir, name), content)]. *)
Inductive Event : Type :=
| ConsoleError (msg : string) (about : string)
| HttpGet (req : Request)
| EnsureDir (dir : string)
| WriteTextFile (dir name : string) (content : Content).

Definition Eff (A : Type) : Type := (list Event * Result A)%type.

Definition ret {A} (a : A) : Eff A := ([], Ok a).
Definition throw {A} (e : Error) : Eff A := ([], Throw e).
Definition emit (ev : Event) : Eff unit := ([ev], Ok tt).

(** [try { m } catch (e) { h e }]. *)
Definition catch {A} (m : Eff A) (h : Error -> Eff A) : Eff A :=
  match m with
  | (t, Throw e) => let '(t', r) := h e in (t ++ t', r)
  | _ => m
  end.

Definition bind {A B} (m : Eff A) (f : A -> Eff B) : Eff B :=
  match m with
  | (t, Ok a) => let '(t', r) := f a in (t ++ t', r)
  | (t, Throw e) => (t, Throw e)
  | (t, OutOfFuel) => (t, OutOfFuel)
  end.

Notation "'let*' x ':=' m 'in' k" := (bind m (fun x => k))
  (at level 10, x name, m at level 100, k at level 200).
Notation "'run' m 'then' k" := (bind m (fun _ => k))
  (at level 10, m at level 100, k at level 200).

Definition trace {A} (m : Eff A) : list Event := fst m.
Definition outcome {A} (m : Eff A) : Result A := snd m.

(** [assert(cond)] of [@std/assert]. *)
Definition assert (cond : bool) (msg : string) : Eff unit :=
  if cond then ret tt else throw (AssertionError msg).

(** [xs.map(f)] when [f] has effects: left to right, stopping at the first
    throw. *)
Fixpoint mapM {A B} (f : A -> Eff B) (l : list A) : Eff (list B) :=
  match l with
  | [] => ret []
  | x :: rest =>
      let* y := f x in
      let* ys := mapM f rest in
      ret (y :: ys)
  end.

(** ** Citation formatting *)

(** [it] and [b]: the markdown emphasis of the [rich] option. *)
Definition it (rich : bool) (text : string) : string :=
  if rich then "*" +:+ text +:+ "*" else text.

Definition b (rich : bool) (text : string) : string :=
  if rich then "**" +:+ text +:+ "**" else text.

Definition formatAuthor (rich : bool) (a : Author) : string :=
  match a with
  | Org _ name => it rich name
  | Person _ firstName lastName =>
      let initials := match_AZ firstName in
      match initials with
      | Some l => join "" l
      | None => ""
      end +:+ " " +:+ lastName
  end.

Definition isAuthor (a : Author) : bool :=
  match creatorTypeOf a with
  | author => true
  | editor => false
  end.

Definition formatAuthors (authors : list Author) (rich : bool) : string :=
  let formatted := map (formatAuthor rich) (List.filter isAuthor authors) in
  if (length formatted =? 2)%nat then join " and " formatted
  else join ", " formatted.

Definition formatJournalInfo (meta : ZoteroItem) (rich : bool) : Eff string :=
  if String.eqb (itemType meta) "thesis" then ret (it rich "Thesis")
  else if String.eqb (itemType meta) "preprint" then
    if opt_includes (url meta) "arxiv" then ret (it rich "arXiv")
    else if opt_includes (url meta) "biorxiv" then ret (it rich "bioRxiv")
    else if opt_includes (url meta) "medrxiv" then ret (it rich "medRxiv")
    else if opt_includes (url meta) "osf.io" then ret (it rich "OSF Preprints")
    else if opt_includes (url meta) "ssrn" then ret (it rich "SSRN Preprints")
    else ret (it rich "Preprint")
  else if truthy (publicationTitle meta) then
    run assert (String.eqb (itemType meta) "journalArticle") "" then
    let citation := it rich (default "" (publicationTitle meta)) in
    let citation :=
      if truthy (volume meta)
      then citation +:+ " " +:+ b rich (default "" (volume meta))
      else citation in
    let citation :=
      if truthy (issue meta)
      then citation +:+ "(" +:+ default "" (issue meta) +:+ ")"
      else citation in
    let citation :=
      if truthy (pages meta)
      then citation +:+
           (if truthy (issue meta) || truthy (volume meta) then ":" else " ")
           +:+ default "" (pages meta)
      else citation in
    ret citation
  else if truthy (proceedingsTitle meta) then
    run assert (String.eqb (itemType meta) "conferencePaper") "" then
    ret (it rich (default "" (proceedingsTitle meta)))
  else if truthy (bookTitle meta) then
    run assert (String.eqb (itemType meta) "bookSection") "" then
    ret (it rich (default "" (bookTitle meta)) +:+ " (Book)")
  else if truthy (institution meta) then
    run assert (String.eqb (itemType meta) "report") "" then
    ret (it rich (default "" (institution meta)) +:+
         (if truthy (pages meta) then " " +:+ default "" (pages meta) else ""))
  else
    run emit (ConsoleError "Unhandled item type" (key meta)) then
    ret "".

Record Formatted : Type := {
  f_title : string;
  f_authors : string;
  f_published : string;
  f_year : option number
}.

Definition formatZoteroItem (i : ZoteroItem) (rich : bool) : Eff Formatted :=
  let* published := formatJournalInfo i rich in
  ret {| f_title := title i;
         f_authors := formatAuthors (creators i) rich;
         f_published := published;
         f_year := year (date i) |}.

Definition formatCitation (i : ZoteroItem) : Eff string :=
  let* f := formatZoteroItem i false in
  ret (f_authors f +:+ ", " +:+ quote +:+ f_title f +:+ quote +:+ ", "
       +:+ f_published f +:+ " (" +:+ number_to_string (f_year f) +:+ ").").

(** [toCsv]: one row per item; the columns are the keys of the first row,
    and [Object.keys(rows[0])] throws a [TypeError] when there is no row. *)
Definition csvRow (pub : Enriched) : Eff CsvRow :=
  let* citation := formatCitation (item pub) in
  ret {| Month := month (date (item pub));
         Year := year (date (item pub));
         Citation := citation;
         PubMedID := pmid pub;
         RowDOI := DOI (item pub) |}.

Definition rowKeys : list string :=
  ["Month"; "Year"; "Citation"; "PubMed ID"; "DOI"].

Definition toCsv (pubs : list Enriched) : Eff CsvTable :=
  let* rows := mapM csvRow pubs in
  match rows with
  | [] => throw (TypeError "Cannot convert undefined or null to object")
  | _ :: _ => ret {| columns := rowKeys; rows := rows |}
  end.

(** ** JSON and the schemas *)

#[warnings="-register-all"] Inductive Json : Type :=
| JNull
| JBool (v : bool)
| JNum (n : Z)
| JStr (s : string)
| JArr (elems : list Json)
| JObj (fields : list (string * Json)).

(** The property [k] of a parsed object; [None] is [undefined]. *)
Fixpoint assoc (k : string) (fields : list (string * Json)) : option Json :=
  match fields with
  | [] => None
  | (k', v) :: rest => if String.eqb k k' then Some v else assoc k rest
  end.

Definition zString (what : string) (x : option Json) : Eff string :=
  match x with
  | Some (JStr s) => ret s
  | _ => throw (ZodError what)
  end.

Definition zNumber (what : string) (x : option Json) : Eff Z :=
  match x with
  | Some (JNum n) => ret n
  | _ => throw (ZodError what)
  end.

(** An optional string that becomes [undefined] when it is empty. *)
Definition maybeStringSchema (what : string) (x : option Json)
  : Eff (option string) :=
  match x with
  | None => ret None
  | Some (JStr v) => ret (if String.eqb v "" then None else Some v)
  | Some _ => throw (ZodError what)
  end.

Definition zCreatorType (x : option Json) : Eff CreatorType :=
  match x with
  | Some (JStr s) =>
      if String.eqb s "author" then ret author
      else if String.eqb s "editor" then ret editor
      else throw (ZodError "creatorType")
  | _ => throw (ZodError "creatorType")
  end.

(** The union of the two creator shapes: the first that parses wins. *)
Definition zCreator (j : Json) : Eff Author :=
  match j with
  | JObj f =>
      match zCreatorType (assoc "creatorType" f), assoc "name" f with
      | (_, Ok t), Some (JStr name) => ret (Org t name)
      | _, _ =>
          let* t := zCreatorType (assoc "creatorType" f) in
          let* firstName := zString "firstName" (assoc "firstName" f) in
          let* lastName := zString "lastName" (assoc "lastName" f) in
          ret (Person t firstName lastName)
      end
  | _ => throw (ZodError "creators")
  end.

Definition isSpace (c : ascii) : bool :=
  let n := nat_of_ascii c in
  ((9 <=? n) && (n <=? 13))%nat || (n =? 32)%nat.

Fixpoint trimStart (s : string) : string :=
  match s with
  | EmptyString => EmptyString
  | String c rest => if isSpace c then trimStart rest else s
  end.

(** [value.replace(/^Abstract\s+/, "")] (white space of the ASCII range). *)
Definition stripAbstract (value : string) : string :=
  if String.prefix "Abstract" value then
    match substring 8 (String.length value - 8) value with
    | String c rest => if isSpace c then trimStart rest else value
    | EmptyString => value
    end
  else value.

Definition zArray {A} (what : string) (elem : Json -> Eff A) (x : option Json)
  : Eff (list A) :=
  match x with
  | Some (JArr l) => mapM elem l
  | _ => throw (ZodError what)
  end.

(** ** Dates and the export order *)

Definition msPerDay : Z := 86400000.

Definition DayFromYear (y : Z) : Z :=
  365 * (y - 1970) + (y - 1969) / 4 - (y - 1901) / 100 + (y - 1601) / 400.

Definition InLeapYear (y : Z) : bool :=
  (y mod 4 =? 0) && (negb (y mod 100 =? 0) || (y mod 400 =? 0)).

(** Days of the year before month [mn] (0 is January). *)
Definition DaysBeforeMonth (leap : bool) (mn : Z) : Z :=
  let l := if leap then 1 else 0 in
  match mn with
  | 0 => 0
  | 1 => 31
  | 2 => 59 + l
  | 3 => 90 + l
  | 4 => 120 + l
  | 5 => 151 + l
  | 6 => 181 + l
  | 7 => 212 + l
  | 8 => 243 + l
  | 9 => 273 + l
  | 10 => 304 + l
  | _ => 334 + l
  end.

(** [MakeDay(year, month, date)] of ECMA-262: months beyond 0..11 carry
    over into the years. *)
Definition MakeDay (y m dt : Z) : Z :=
  let ym := y + m / 12 in
  let mn := m mod 12 in
  DayFromYear ym + DaysBeforeMonth (InLeapYear ym) mn + dt - 1.

Definition MakeFullYear (y : Z) : Z :=
  if (0 <=? y) && (y <=? 99) then 1900 + y else y.

Definition TimeClip (t : Z) : number :=
  if Z.abs t <=? 8640000000000000 then Num t else NaN.

(** The optional [number] arguments of the program: [undefined] converts to
    [NaN]. *)
Definition ToNumber (x : option number) : number :=
  match x with
  | Some n => n
  | None => NaN
  end.

(** [x ?? 0]. *)
Definition orZero (x : option number) : option number :=
  match x with
  | Some n => Some n
  | None => Some (Num 0)
  end.

(** [toSorted(comparefn)].  The sort reads the result of the comparator
    through [CompareArrayElements] of the standard, which turns [NaN] into
    +0.  The sort is stable: an element is put before the first element of
    the sorted rest that it does not have to follow.  For a comparator that
    is consistent this is the order that every engine gives; for one that
    is not, the standard leaves the order to the engine, and nothing is
    proved of the order then. *)
Definition sortCompare {A} (comparefn : A -> A -> number) (x y : A) : Z :=
  match comparefn x y with
  | Num v => v
  | NaN => 0
  end.

Fixpoint insertBy {A} (cmp : A -> A -> Z) (x : A) (l : list A) : list A :=
  match l with
  | [] => [x]
  | y :: rest => if cmp x y <=? 0 then x :: y :: rest
                 else y :: insertBy cmp x rest
  end.

Definition toSorted {A} (comparefn : A -> A -> number) (l : list A) : list A :=
  fold_right (insertBy (sortCompare comparefn)) [] l.

(** ** What depends on the host *)

Section WithHost.
Context `{host : Host}.

(** [new Date(year, month).getTime()]. *)
Definition dateTime (y m : option number) : number :=
  match ToNumber y, ToNumber m with
  | Num y', Num m' =>
      TimeClip (UTC (MakeDay (MakeFullYear y') m' 1 * msPerDay))
  | _, _ => NaN
  end.

Definition itemTime (d : IssuedDate) : number :=
  dateTime (year d) (orZero (month d)).

(** The comparator of the export: [dateB.getTime() - dateA.getTime()],
    which is [NaN] as soon as one of the dates has no time value. *)
Definition compareDates (a b : IssuedDate) : number :=
  match itemTime b, itemTime a with
  | Num tb, Num ta => Num (tb - ta)
  | _, _ => NaN
  end.

Definition zDatePart (j : Json) : Eff number :=
  match j with
  | JNum n => ret (Num n)
  | JStr s => ret (StringToNumber s)
  | _ => throw (ZodError "date-parts")
  end.

Definition zDateRange (j : Json) : Eff (list number) :=
  match j with
  | JArr parts => mapM zDatePart parts
  | _ => throw (ZodError "date-parts")
  end.

(** [csljson.issued]: exactly one range, of which the parts are the year,
    the month and the day. *)
Definition zIssued (x : option Json) : Eff IssuedDate :=
  match x with
  | Some (JObj f) =>
      match assoc "date-parts" f with
      | Some (JArr ranges) =>
          let* value := mapM zDateRange ranges in
          match value with
          | [parts] =>
              ret {| year := nth_error parts 0;
                     month := nth_error parts 1;
                     day := nth_error parts 2 |}
          | _ => throw (ZodError "Too many dates")
          end
      | _ => throw (ZodError "date-parts")
      end
  | _ => throw (ZodError "issued")
  end.

Definition zoteroItemSchema (j : Json) : Eff ZoteroItem :=
  match j with
  | JObj top =>
      match assoc "data" top, assoc "csljson" top with
      | Some (JObj data), Some (JObj csljson) =>
          let* key := zString "key" (assoc "key" data) in
          let* version := zNumber "version" (assoc "version" data) in
          let* itemType := zString "itemType" (assoc "itemType" data) in
          let* title := zString "title" (assoc "title" data) in
          let* creators := zArray "creators" zCreator (assoc "creators" data) in
          let* abstractNote := zString "abstractNote" (assoc "abstractNote" data) in
          let* institution := maybeStringSchema "institution" (assoc "institution" data) in
          let* bookTitle := maybeStringSchema "bookTitle" (assoc "bookTitle" data) in
          let* proceedingsTitle :=
            maybeStringSchema "proceedingsTitle" (assoc "proceedingsTitle" data) in
          let* publicationTitle :=
            maybeStringSchema "publicationTitle" (assoc "publicationTitle" data) in
          let* volume := maybeStringSchema "volume" (assoc "volume" data) in
          let* issue := maybeStringSchema "issue" (assoc "issue" data) in
          let* pages := maybeStringSchema "pages" (assoc "pages" data) in
          let* series := maybeStringSchema "series" (assoc "series" data) in
          let* seriesTitle := maybeStringSchema "seriesTitle" (assoc "seriesTitle" data) in
          let* seriesText := maybeStringSchema "seriesText" (assoc "seriesText" data) in
          let* journalAbbreviation :=
            maybeStringSchema "journalAbbreviation" (assoc "journalAbbreviation" data) in
          let* DOI := maybeStringSchema "DOI" (assoc "DOI" data) in
          let* ISSN := maybeStringSchema "ISSN" (assoc "ISSN" data) in
          let* shortTitle := maybeStringSchema "shortTitle" (assoc "shortTitle" data) in
          let* url := maybeStringSchema "url" (assoc "url" data) in
          let* issued := zIssued (assoc "issued" csljson) in
          ret {| key := key; version := version; itemType := itemType;
                 title := title; creators := creators;
                 abstractNote := stripAbstract abstractNote;
                 institution := institution; bookTitle := bookTitle;
                 proceedingsTitle := proceedingsTitle;
                 publicationTitle := publicationTitle;
                 volume := volume; issue := issue; pages := pages;
                 series := series; seriesTitle := seriesTitle;
                 seriesText := seriesText;
                 journalAbbreviation := journalAbbreviation;
                 DOI := DOI; ISSN := ISSN; shortTitle := shortTitle;
                 url := url; date := issued |}
      | _, _ => throw (ZodError "item")
      end
  | _ => throw (ZodError "item")
  end.

End WithHost.

(** ** The network *)

(** A response: its body as text, and the body parsed as JSON (a
    [SyntaxError] when it is no JSON). *)
Record Response : Type := {
  text : string;
  json : Result Json
}.

(** The remote services: what each request is answered with.  A request is
    answered the same way each time it is made. *)
Definition World : Type := Request -> Result Response.

Definition fetch (world : World) (req : Request) : Eff Response :=
  ([HttpGet req], world req).

Definition responseJson (r : Response) : Eff Json := ([], json r).

Definition HIDIVE_GROUP_ID : string := "5145258".
Definition HIDIVE_PUBLICATIONS_COLLECTION_ID : string := "YGTEVG73".
Definition HIDIVE_PREPRINTS_COLLECTION_ID : string := "AJKTPNSI".

(** ** Fetching a collection *)

Definition itemsPerPage : nat := 100.

Definition collectionRequest (groupId collectionId : string) (start : nat)
  : Request :=
  {| endpoint := "https://api.zotero.org/groups/" +:+ groupId +:+
                 "/collections/" +:+ collectionId +:+ "/items";
     query := [ ("format", QStr "json"); ("include", QStr "csljson,data");
                ("itemType", QStr "-attachment");
                ("limit", QNum itemsPerPage);
                ("start", QNum start) ] |}.

(** [item.data.itemType !== "note"] on a raw record.  Reading a property
    of [undefined] or [null] throws a [TypeError] (the messages are those of
    V8); a number, a string, a boolean or an array has no [data]. *)
Definition notNote (i : Json) : Eff bool :=
  match i with
  | JObj f =>
      match assoc "data" f with
      | Some (JObj data) =>
          match assoc "itemType" data with
          | Some (JStr ty) => ret (negb (String.eqb ty "note"))
          | _ => ret true
          end
      | None =>
          throw (TypeError
                   "Cannot read properties of undefined (reading 'itemType')")
      | Some JNull =>
          throw (TypeError
                   "Cannot read properties of null (reading 'itemType')")
      | Some _ => ret true
      end
  | JNull => throw (TypeError "Cannot read properties of null (reading 'data')")
  | _ =>
      throw (TypeError
               "Cannot read properties of undefined (reading 'itemType')")
  end.

Fixpoint filterM {A} (f : A -> Eff bool) (l : list A) : Eff (list A) :=
  match l with
  | [] => ret []
  | x :: rest =>
      let* keep := f x in
      let* kept := filterM f rest in
      ret (if keep then x :: kept else kept)
  end.

Definition jsonLength (j : Json) : nat :=
  match j with
  | JArr l => length l
  | _ => 0
  end.

Section WithHostNetwork.
Context `{host : Host}.

(** [zoteroItemSchema.array().parse(json.filter(...))]; a body that is no
    array has no [filter]. *)
Definition parsePage (page : Json) : Eff (list ZoteroItem) :=
  match page with
  | JArr l =>
      let* kept := filterM notNote l in
      mapM zoteroItemSchema kept
  | JNull => throw (TypeError "Cannot read properties of null (reading 'filter')")
  | _ => throw (TypeError "json.filter is not a function")
  end.

(** The [while (true)] loop of [fetchZoteroCollection], cut after [fuel]
    turns. *)
Fixpoint fetchPages (fuel : nat) (world : World)
    (groupId collectionId : string) (items : list ZoteroItem) (start : nat)
  : Eff (list ZoteroItem) :=
  match fuel with
  | O => ([], OutOfFuel)
  | S fuel' =>
      let* response := fetch world (collectionRequest groupId collectionId start) in
      let* page := responseJson response in
      let* newItems := parsePage page in
      let items := items ++ newItems in
      if (jsonLength page <? itemsPerPage)%nat then ret items
      else fetchPages fuel' world groupId collectionId items
             (start + itemsPerPage)%nat
  end.

Definition fetchZoteroCollection (fuel : nat) (world : World)
    (groupId collectionId : string) : Eff (list ZoteroItem) :=
  fetchPages fuel world groupId collectionId [] 0%nat.

End WithHostNetwork.

(** ** DOI to PubMed identifier *)

Record NcbiRecord : Type := {
  doi : string;
  rec_pmid : option string
}.

Definition zNcbiRecord (j : Json) : Eff NcbiRecord :=
  match j with
  | JObj f =>
      let* d := zString "doi" (assoc "doi" f) in
      match assoc "pmid" f with
      | None => ret {| doi := d; rec_pmid := None |}
      | Some (JStr p) => ret {| doi := d; rec_pmid := Some p |}
      | Some _ => throw (ZodError "pmid")
      end
  | _ => throw (ZodError "records")
  end.

Definition ncbiIdConverterResponseSchema (j : Json) : Eff (list NcbiRecord) :=
  match j with
  | JObj f => zArray "records" zNcbiRecord (assoc "records" f)
  | _ => throw (ZodError "response")
  end.

(** [l.slice(i, j)] for [i <= j]. *)
Definition slice {A} (l : list A) (i j : nat) : list A :=
  firstn (j - i) (skipn i l).

Definition idconvRequest (batch : list string) : Request :=
  {| endpoint := "https://www.ncbi.nlm.nih.gov/pmc/utils/idconv/v1.0/";
     query := [ ("ids", QStr (join "," batch)); ("format", QStr "json") ] |}.

(** [if (record.pmid) records[record.doi] = record.pmid].  The object
    [records] is used as a map from DOI to identifier (a DOI is no name of
    a property that objects inherit). *)
Definition addRecord (records : gmap string string) (record : NcbiRecord)
  : gmap string string :=
  match rec_pmid record with
  | Some p => if truthy (Some p) then <[doi record := p]> records else records
  | None => records
  end.

(** The [for] loop of [getPubMedIds], from index [i] on, cut after [fuel]
    turns. *)
Fixpoint getPubMedIdsFrom (fuel : nat) (world : World) (dois : list string)
    (batchSize : nat) (i : nat) (records : gmap string string)
  : Eff (gmap string string) :=
  match fuel with
  | O => ([], OutOfFuel)
  | S fuel' =>
      if (i <? length dois)%nat then
        let batch := slice dois i (i + batchSize) in
        let* response := fetch world (idconvRequest batch) in
        let* data := responseJson response in
        let* parsed := ncbiIdConverterResponseSchema data in
        let records := fold_left addRecord parsed records in
        getPubMedIdsFrom fuel' world dois batchSize (i + batchSize)%nat records
      else ret records
  end.

Definition getPubMedIds (fuel : nat) (world : World) (dois : list string)
    (batchSize : nat) : Eff (gmap string string) :=
  getPubMedIdsFrom fuel world dois batchSize 0%nat ∅.

(** ** The run *)

(** [{ pmid: idMap[item.DOI as string], ...item }]; an absent DOI reads the
    property named "undefined". *)
Definition withPubMedId (idMap : gmap string string) (i : ZoteroItem)
  : Enriched :=
  {| pmid := idMap !! default "undefined" (DOI i); item := i |}.

Definition isPreprint (p : Enriched) : bool :=
  String.eqb (itemType (item p)) "preprint".

Section WithHostMain.
Context `{host : Host}.

(** [main] of the last revision; [args] is [Deno.args], and [fuel] bounds
    each loop.  The progress display on the terminal is left out. *)
Definition main (fuel : nat) (world : World) (args : list string) : Eff unit :=
  let items : list ZoteroItem := [] in
  let* pubs := fetchZoteroCollection fuel world
                 HIDIVE_GROUP_ID HIDIVE_PUBLICATIONS_COLLECTION_ID in
  let items := items ++ pubs in
  let* preprints := fetchZoteroCollection fuel world
                      HIDIVE_GROUP_ID HIDIVE_PREPRINTS_COLLECTION_ID in
  let items := items ++ preprints in
  let dois := omap DOI items in
  let* idMap := getPubMedIds fuel world dois 100 in
  let withPubMedIds :=
    map (withPubMedId idMap)
        (toSorted (fun a b => compareDates (date a) (date b)) items) in
  let outDir := default "./hidive-papers" (head args) in
  run emit (EnsureDir outDir) then
  run emit (WriteTextFile outDir "papers.json" (JsonText withPubMedIds)) then
  let* pubsCsv := toCsv (List.filter (fun p => negb (isPreprint p)) withPubMedIds) in
  run emit (WriteTextFile outDir "pubs.csv" (CsvText pubsCsv)) then
  let* preprintsCsv := toCsv (List.filter isPreprint withPubMedIds) in
  run emit (WriteTextFile outDir "preprints.csv" (CsvText preprintsCsv)) then
  ret tt.

End WithHostMain.

(** ** The revision that lists the item keys first

    This earlier revision asks each collection for its item keys, checks
    that the two collections share no key, and then fetches the items one
    by one.  Of its [main], which starts the two listings together, the
    loop over the item keys is modelled. *)

Module KeyListing.

Inductive Creator : Type :=
| Org (creatorType : string) (name : string)
| Person (creatorType : string) (firstName lastName : string).

Record Item : Type := {
  bib : string;
  key : string;
  version : Z;
  itemType : string;
  title : string;
  creators : list Creator;
  abstractNote : option string;
  publicationTitle : option string;
  volume : option string;
  issue : option string;
  pages : option string;
  series : option string;
  seriesTitle : option string;
  seriesText : option string;
  journalAbbreviation : option string;
  DOI : option string;
  ISSN : option string;
  shortTitle : option string;
  url : option string;
  date : IssuedDate
}.

Record EnrichedItem : Type := {
  pmid : option string;
  item : Item
}.

Definition BASE_URL : string :=
  "https://api.zotero.org/groups/" +:+ HIDIVE_GROUP_ID +:+ "/".

(** [s.trim()] (white space of the ASCII range). *)
Definition reverse (s : string) : string :=
  string_of_list_ascii (rev (list_ascii_of_string s)).

Definition trim (s : string) : string :=
  reverse (trimStart (reverse (trimStart s))).

(** [s.split("\n")]. *)
Fixpoint splitLines (s : string) : list string :=
  match s with
  | EmptyString => [""]
  | String c rest =>
      if Ascii.eqb c "010"%char then "" :: splitLines rest
      else match splitLines rest with
           | line :: lines => String c line :: lines
           | [] => [String c ""]
           end
  end.

(** A [Set<string>], in insertion order. *)
Definition has (ids : list string) (id : string) : bool :=
  existsb (String.eqb id) ids.

Definition add (ids : list string) (id : string) : list string :=
  if has ids id then ids else ids ++ [id].

Definition delete (ids : list string) (id : string) : list string :=
  List.filter (fun x => negb (String.eqb id x)) ids.

Definition intersection (a c : list string) : list string :=
  List.filter (has c) a.

Definition keysRequest (collectionId filter : string) : Request :=
  {| endpoint := BASE_URL +:+ "collections/" +:+ collectionId +:+ "/items";
     query := [ ("format", QStr "keys"); ("itemType", QStr filter) ] |}.

Definition fetchHidiveZoteroItemKeys (world : World) (collectionId : string)
  : Eff (list string) :=
  let ids : list string := [] in
  let* response := fetch world (keysRequest collectionId "-attachment") in
  let ids := fold_left add (splitLines (trim (text response))) ids in
  let* response := fetch world (keysRequest collectionId "note") in
  let ids := fold_left delete (splitLines (trim (text response))) ids in
  ret ids.

Definition formatAuthor (a : Creator) : string :=
  match a with
  | Org _ name => name
  | Person _ firstName lastName =>
      match match_AZ firstName with
      | Some l => join "" l
      | None => ""
      end +:+ " " +:+ lastName
  end.

Definition formatAuthors (authors : list Creator) : string :=
  let formatted := map formatAuthor authors in
  if (length formatted =? 2)%nat then join " and " formatted
  else join ", " formatted.

Definition formatJournalInfo (meta : Item) : string :=
  if String.eqb (itemType meta) "thesis" then "Thesis"
  else if String.eqb (itemType meta) "preprint" then
    if opt_includes (url meta) "arxiv" then "arXiv"
    else if opt_includes (url meta) "biorxiv" then "bioRxiv"
    else if opt_includes (url meta) "medrxiv" then "medRxiv"
    else if opt_includes (url meta) "osf" then "OSF Preprints"
    else "Preprint"
  else if negb (truthy (publicationTitle meta)) then ""
  else
    let citation := default "" (publicationTitle meta) in
    let citation :=
      if truthy (volume meta)
      then citation +:+ " " +:+ default "" (volume meta)
      else citation in
    let citation :=
      if truthy (issue meta)
      then citation +:+ "(" +:+ default "" (issue meta) +:+ ")"
      else citation in
    if truthy (pages meta)
    then citation +:+
         (if truthy (issue meta) || truthy (volume meta) then ":" else " ")
         +:+ default "" (pages meta)
    else citation.

Definition formatCitation (meta : Item) : string :=
  let authors := formatAuthors (creators meta) in
  let info := formatJournalInfo meta in
  authors +:+ ", " +:+ quote +:+ title meta +:+ quote +:+ ", " +:+ info
    +:+ " (" +:+ number_to_string (year (date meta)) +:+ ").".

Definition csvRow (pub : EnrichedItem) : CsvRow :=
  {| Month := month (date (item pub));
     Year := year (date (item pub));
     Citation := formatCitation (item pub);
     PubMedID := pmid pub;
     RowDOI := DOI (item pub) |}.

Definition toCsv (pubs : list EnrichedItem) : Eff CsvTable :=
  let rows := map csvRow pubs in
  match rows with
  | [] => throw (TypeError "Cannot convert undefined or null to object")
  | _ :: _ => ret {| columns := rowKeys; rows := rows |}
  end.

Definition itemRequest (itemKey : string) : Request :=
  {| endpoint := BASE_URL +:+ "items/" +:+ itemKey;
     query := [ ("format", QStr "json"); ("include", QStr "csljson,bib,data");
                ("style", QStr "https://gist.githubusercontent.com/manzt/743d185cc9e84fec0669aefb2d423d78/raw/d303835cf3bb82096e30a27be0f0225a42c65323/hidive.csl") ] |}.

Section Revision.

(** The schema of this revision, [zoteroItemResponse.parse]; it decodes the
    bibliography entry with the library [he], and is taken as given. *)
Variable zoteroItemResponse : Json -> Eff Item.

Definition fetchZoteroItem (world : World) (itemKey : string) : Eff Item :=
  let* response := fetch world (itemRequest itemKey) in
  let* data := responseJson response in
  zoteroItemResponse data.

(** The item service over time: [service n] is what the service answers
    to the request that is made after [n] earlier item requests.  So the
    second attempt for a key may be answered differently from the first. *)
Definition Service : Type := nat -> World.

(** One turn of the loop over the item keys ([n] item requests were made
    before): a second attempt after a failure, and a line on the console
    after two.  The result is the item, if one was fetched, and the number
    of item requests made so far. *)
Definition fetchWithRetry (service : Service) (n : nat) (itemKey : string)
  : Eff (option Item * nat) :=
  catch (let* i := fetchZoteroItem (service n) itemKey in
         ret (Some i, S n))
    (fun _ =>
       catch (let* i := fetchZoteroItem (service (S n)) itemKey in
              ret (Some i, S (S n)))
         (fun error =>
            run emit (ConsoleError "Could not fetch item" itemKey) then
            ret (None, S (S n)))).

(** The loop of [main] over the item keys. *)
Fixpoint fetchItems (service : Service) (n : nat) (itemKeys : list string)
  : Eff (list Item * nat) :=
  match itemKeys with
  | [] => ret ([], n)
  | itemKey :: rest =>
      let* got := fetchWithRetry service n itemKey in
      let* items := fetchItems service (snd got) rest in
      ret (match fst got with
           | Some i => i :: fst items
           | None => fst items
           end, snd items)
  end.

End Revision.

End KeyListing.

(** ** The script that writes the tables into the README

    [markdownTable(parse(csv), { align: null })] is the work of two
    libraries: the two tables are inputs here, and so is the text of
    [README.md]; the result is the text written back. *)

Module Readme.

(** [s.split(sep).shift()] for a separator that is not empty: the text
    before the first occurrence of [sep], all of [s] when there is none. *)
Fixpoint beforeFirst (sep s : string) : string :=
  if String.prefix sep s then ""
  else match s with
       | EmptyString => ""
       | String c rest => String c (beforeFirst sep rest)
       end.

Definition LF : string := String "010"%char "".

Definition main (readme pubs preprints : string) : string :=
  let content := beforeFirst "## Papers" readme +:+ "## Papers" +:+ LF in
  let content :=
    content +:+ ("### Publications" +:+ LF +:+ LF +:+ pubs +:+ LF) in
  let content :=
    content +:+ ("### Preprints" +:+ LF +:+ LF +:+ preprints +:+ LF) in
  content.

End Readme.

(** * Properties

    ** Vocabulary of the statements *)

(** [s] contains [needle] as a substring. *)
Definition contains (s needle : string) : Prop :=
  exists pre post, s = pre +:+ needle +:+ post.

(** The capital letters. *)
Definition capitalLetters : string := "ABCDEFGHIJKLMNOPQRSTUVWXYZ".

Definition isCapital (c : ascii) : bool :=
  existsb (Ascii.eqb c) (list_ascii_of_string capitalLetters).

(** The capital letters of a name, in order. *)
Definition capitals (s : string) : string :=
  string_of_list_ascii (List.filter isCapital (list_ascii_of_string s)).

(** The creator is tagged with the role "author". *)
Definition taggedAuthor (a : Author) : bool :=
  match a with
  | Org author _ | Person author _ _ => true
  | Org editor _ | Person editor _ _ => false
  end.

(** The strings of a list with [sep] between them. *)
Definition separated (sep : string) (l : list string) : string :=
  String.concat sep l.

(** The optional textual fields of an item. *)
Definition optionalFields (i : ZoteroItem) : list (option string) :=
  [ institution i; bookTitle i; proceedingsTitle i; publicationTitle i;
    volume i; issue i; pages i; series i; seriesTitle i; seriesText i;
    journalAbbreviation i; DOI i; ISSN i; shortTitle i; url i ].

(** No optional textual field holds the empty string. *)
Definition normalized (i : ZoteroItem) : Prop :=
  Forall (fun f => f <> Some "") (optionalFields i).

(** The venue of a journal article as the specification words it. *)
Definition journalVenue (t : string) (v i p : option string) : string :=
  t +:+ match v with Some v' => " " +:+ v' | None => "" end
    +:+ match i with Some i' => "(" +:+ i' +:+ ")" | None => "" end
    +:+ match p with
        | Some p' =>
            (match i, v with None, None => " " | _, _ => ":" end) +:+ p'
        | None => ""
        end.

(** The preprint servers, by priority: substring looked for, venue shown. *)
Definition preprintServers : list (string * string) :=
  [ ("arxiv", "arXiv"); ("biorxiv", "bioRxiv"); ("medrxiv", "medRxiv");
    ("osf.io", "OSF Preprints"); ("ssrn", "SSRN Preprints") ].

Fixpoint firstServer (u : option string) (table : list (string * string))
  : string :=
  match table with
  | [] => "Preprint"
  | (needle, venue) :: rest =>
      if opt_includes u needle then venue else firstServer u rest
  end.

(** The item type that owns the first venue field an item carries. *)
Definition venueOwner (meta : ZoteroItem) : option string :=
  if truthy (publicationTitle meta) then Some "journalArticle"
  else if truthy (proceedingsTitle meta) then Some "conferencePaper"
  else if truthy (bookTitle meta) then Some "bookSection"
  else if truthy (institution meta) then Some "report"
  else None.

(** The recognized item types. *)
Definition recognized (ty : string) : Prop :=
  In ty [ "journalArticle"; "preprint"; "thesis"; "conferencePaper";
          "bookSection"; "report" ].

(** ** Sample items *)

Definition sampleItem : ZoteroItem :=
  {| key := "ABCD2345"; version := 1; itemType := "journalArticle";
     title := "A title";
     creators := [Person author "Jane Ann" "Doe"; Org author "HuBMAP Consortium"];
     abstractNote := "";
     institution := None; bookTitle := None; proceedingsTitle := None;
     publicationTitle := None; volume := None; issue := None; pages := None;
     series := None; seriesTitle := None; seriesText := None;
     journalAbbreviation := None; DOI := None; ISSN := None;
     shortTitle := None; url := None;
     date := {| year := Some (Num 2023); month := None; day := None |} |}.

Definition withVenue (i : ZoteroItem) (ty : string)
    (pub vol iss pg proc : option string) : ZoteroItem :=
  {| key := key i; version := version i; itemType := ty;
     title := title i; creators := creators i; abstractNote := abstractNote i;
     institution := institution i; bookTitle := bookTitle i;
     proceedingsTitle := proc; publicationTitle := pub;
     volume := vol; issue := iss; pages := pg;
     series := series i; seriesTitle := seriesTitle i;
     seriesText := seriesText i;
     journalAbbreviation := journalAbbreviation i; DOI := DOI i;
     ISSN := ISSN i; shortTitle := shortTitle i; url := url i;
     date := date i |}.

Definition withUrl (i : ZoteroItem) (ty : string) (u : option string)
  : ZoteroItem :=
  {| key := key i; version := version i; itemType := ty;
     title := title i; creators := creators i; abstractNote := abstractNote i;
     institution := institution i; bookTitle := bookTitle i;
     proceedingsTitle := proceedingsTitle i;
     publicationTitle := publicationTitle i;
     volume := volume i; issue := issue i; pages := pages i;
     series := series i; seriesTitle := seriesTitle i;
     seriesText := seriesText i;
     journalAbbreviation := journalAbbreviation i; DOI := DOI i;
     ISSN := ISSN i; shortTitle := shortTitle i; url := u;
     date := date i |}.

(** Nature 600(2):100-110. *)
Definition natureArticle : ZoteroItem :=
  withVenue sampleItem "journalArticle"
    (Some "Nature") (Some "600") (Some "2") (Some "100-110") None.

(** A journal article without a journal, carrying a proceedings title. *)
Definition articleWithProceedings : ZoteroItem :=
  withVenue sampleItem "journalArticle"
    None None None None (Some "Proc. IEEE VIS").

(** A conference paper that carries a publication title. *)
Definition paperWithJournal : ZoteroItem :=
  withVenue sampleItem "conferencePaper"
    (Some "Nature") None None None (Some "Proc. IEEE VIS").

(** A bioRxiv preprint reached through a link that mentions arxiv. *)
Definition biorxivViaArxiv : ZoteroItem :=
  withUrl sampleItem "preprint"
    (Some "https://www.biorxiv.org/content/10.1101/2024.01.01.573819?ref=arxiv").

(** The optional textual fields by name. *)
Definition optionalFieldTable : list (string * (ZoteroItem -> option string)) :=
  [ ("institution", institution); ("bookTitle", bookTitle);
    ("proceedingsTitle", proceedingsTitle);
    ("publicationTitle", publicationTitle); ("volume", volume);
    ("issue", issue); ("pages", pages); ("series", series);
    ("seriesTitle", seriesTitle); ("seriesText", seriesText);
    ("journalAbbreviation", journalAbbreviation); ("DOI", DOI);
    ("ISSN", ISSN); ("shortTitle", shortTitle); ("url", url) ].

(** The [data] object of a raw record. *)
Definition rawData (raw : Json) : list (string * Json) :=
  match raw with
  | JObj top => match assoc "data" top with
                | Some (JObj data) => data
                | _ => []
                end
  | _ => []
  end.

(** What a raw optional field becomes. *)
Definition normalizedField (x : option Json) : option string :=
  match x with
  | Some (JStr "") => None
  | Some (JStr s) => Some s
  | _ => None
  end.

(** A host for the examples: local time is UTC, and [Number(s)] reads the
    decimal integers. *)
Definition decimalNumber (s : string) : number :=
  match NilZero.int_of_string s with
  | Some i => Num (Z.of_int i)
  | None => NaN
  end.

#[export] Instance utcHost : Host :=
  {| StringToNumber := decimalNumber; UTC := fun t => t |}.

Definition rawRecord (k ty : string) (fields : list (string * Json))
    (parts : list Json) : Json :=
  JObj [ ("key", JStr k);
         ("data", JObj ([ ("key", JStr k); ("version", JNum 7);
                          ("itemType", JStr ty); ("title", JStr "A title");
                          ("creators",
                            JArr [ JObj [ ("creatorType", JStr "author");
                                          ("firstName", JStr "Jane Ann");
                                          ("lastName", JStr "Doe") ] ]);
                          ("abstractNote", JStr "Abstract  We show.") ]
                        ++ fields));
         ("csljson", JObj [ ("issued", JObj [ ("date-parts", JArr [JArr parts]) ]) ]) ].

(** An article whose volume and DOI are empty strings. *)
Definition rawArticle : Json :=
  rawRecord "ART00001" "journalArticle"
    [ ("publicationTitle", JStr "Nature"); ("volume", JStr "");
      ("pages", JStr "100-110"); ("DOI", JStr "") ]
    [ JNum 2023; JStr "5" ].

(** ** Remote collections *)

(** The request for the records of a collection from [start] on, at most
    [limit] of them, as JSON with the bibliographic data, attachments left
    out. *)
Definition pageRequest (groupId collectionId : string) (start limit : nat)
  : Request :=
  {| endpoint := "https://api.zotero.org/groups/" +:+ groupId +:+
                 "/collections/" +:+ collectionId +:+ "/items";
     query := [ ("format", QStr "json"); ("include", QStr "csljson,data");
                ("itemType", QStr "-attachment");
                ("limit", QNum limit);
                ("start", QNum start) ] |}.

(** The service holds the finite collection [coll] (attachments left out)
    and answers a request for at most [limit] records from [start] on with
    these records. *)
Definition serves (world : World) (groupId collectionId : string)
    (coll : list Json) : Prop :=
  forall start limit, exists r,
    world (pageRequest groupId collectionId start limit) = Ok r /\
    json r = Ok (JArr (firstn limit (skipn start coll))).

(** The offsets requested for a collection of [n] records. *)
Definition pageStarts (n : nat) : list nat :=
  map (fun k => (k * 100)%nat) (seq 0 (S (n / 100))).

(** The requests for a collection of [n] records: pages of 100 from offset
    0 on. *)
Definition pageRequests (groupId collectionId : string) (n : nat) : list Event :=
  map (fun start => HttpGet (pageRequest groupId collectionId start 100))
      (pageStarts n).

(** The raw page at offset [start]. *)
Definition rawPage (coll : list Json) (start : nat) : list Json :=
  firstn 100 (skipn start coll).

(** The raw record is a note: its [data.itemType] is "note". *)
Definition isNoteB (j : Json) : bool :=
  match j with
  | JObj f =>
      match assoc "data" f with
      | Some (JObj data) =>
          match assoc "itemType" data with
          | Some (JStr ty) => String.eqb ty "note"
          | _ => false
          end
      | _ => false
      end
  | _ => false
  end.

Definition isNoteRecord (j : Json) : Prop := isNoteB j = true.

Fixpoint queryStr (name : string) (q : list (string * QueryValue)) : option string :=
  match q with
  | [] => None
  | (k, QStr s) :: rest => if String.eqb k name then Some s else queryStr name rest
  | _ :: rest => queryStr name rest
  end.

Fixpoint queryNat (name : string) (q : list (string * QueryValue)) : option nat :=
  match q with
  | [] => None
  | (k, QNum n) :: rest => if String.eqb k name then Some n else queryNat name rest
  | _ :: rest => queryNat name rest
  end.

(** A world for the examples: the two collections of the group, read by
    the parameters of the request (JSON, attachments left out, at most
    [limit] records from [start] on), and an identifier service that
    resolves nothing. *)
Definition sampleWorld (pubs preprints : list Json) : World :=
  fun req =>
    let page coll :=
      match queryStr "format" (query req), queryStr "include" (query req),
            queryStr "itemType" (query req),
            queryNat "limit" (query req), queryNat "start" (query req) with
      | Some "json", Some "csljson,data", Some "-attachment",
        Some limit, Some start =>
          Ok {| text := "";
                json := Ok (JArr (firstn limit (skipn start coll))) |}
      | _, _, _, _, _ => Throw NetworkError
      end in
    if String.eqb (endpoint req)
         "https://api.zotero.org/groups/5145258/collections/YGTEVG73/items"
    then page pubs
    else if String.eqb (endpoint req)
         "https://api.zotero.org/groups/5145258/collections/AJKTPNSI/items"
    then page preprints
    else if String.eqb (endpoint req)
         "https://www.ncbi.nlm.nih.gov/pmc/utils/idconv/v1.0/"
    then Ok {| text := ""; json := Ok (JObj [("records", JArr [])]) |}
    else Throw NetworkError.

Definition rawNote : Json :=
  JObj [ ("key", JStr "NOTE0001");
         ("data", JObj [ ("key", JStr "NOTE0001"); ("itemType", JStr "note");
                         ("note", JStr "<p>to read</p>") ]) ].

(** A preprint on bioRxiv. *)
Definition rawPreprint : Json :=
  rawRecord "PRE00001" "preprint"
    [ ("url", JStr "https://www.biorxiv.org/content/10.1101/2024.01.01.573819") ]
    [ JNum 2024; JNum 1 ].

(** A hundred articles and a note: a full page, then a page of one note. *)
Definition hundredAndANote : list Json := repeat rawArticle 100 ++ [rawNote].

(** ** The identifier service *)

(** The batches of a DOI list: the [k]-th holds the DOIs from [100 k] on,
    at most 100 of them. *)
Definition batchCount (n : nat) : nat := ((n + 99) / 100)%nat.

Definition batchAt (dois : list string) (k : nat) : list string :=
  firstn 100 (skipn (k * 100) dois).

Definition batches (dois : list string) : list (list string) :=
  map (batchAt dois) (seq 0 (batchCount (length dois))).

(** The lookup of the DOIs of [batch]: they are sent in the parameter
    [ids], with commas between them, and the answer is asked for as JSON. *)
Definition lookupRequest (batch : list string) : Request :=
  {| endpoint := "https://www.ncbi.nlm.nih.gov/pmc/utils/idconv/v1.0/";
     query := [ ("ids", QStr (String.concat "," batch));
                ("format", QStr "json") ] |}.

(** The service answers the lookup of [batch] with a response that the
    schema reads as [records]. *)
Definition answered (world : World) (batch : list string)
    (records : list NcbiRecord) : Prop :=
  exists r j, world (lookupRequest batch) = Ok r /\ json r = Ok j /\
              ncbiIdConverterResponseSchema j = ([], Ok records).

(** A key that an object keeps as a property of its own when it is assigned
    to: every string but "__proto__", which sets the prototype instead. *)
Definition ownKey (d : string) : Prop := d <> "__proto__".

(** The record reports DOI [d] with the PubMed identifier [p]. *)
Definition resolved (record : NcbiRecord) (d p : string) : Prop :=
  doi record = d /\ rec_pmid record = Some p /\ p <> "".

(** An identifier service for the examples: it knows one DOI, reports a
    second one without identifier and a third one with an empty one. *)
Definition idconvWorld : World :=
  fun req =>
    if String.eqb (endpoint req)
         "https://www.ncbi.nlm.nih.gov/pmc/utils/idconv/v1.0/"
       && bool_decide (queryStr "ids" (query req)
                       = Some "10.1000/a,10.1000/b,10.1000/c")
       && bool_decide (queryStr "format" (query req) = Some "json")
    then Ok {| text := "";
               json := Ok (JObj [ ("status", JStr "ok");
                                  ("records",
                                    JArr [ JObj [ ("doi", JStr "10.1000/a");
                                                  ("pmid", JStr "31000001") ];
                                           JObj [ ("doi", JStr "10.1000/b") ];
                                           JObj [ ("doi", JStr "10.1000/c");
                                                  ("pmid", JStr "") ] ]) ]) |}
    else Throw NetworkError.

Definition threeDois : list string := ["10.1000/a"; "10.1000/b"; "10.1000/c"].

(** ** The export order *)

(** The comparator of [main] on items. *)
Definition byDate `{Host} (a c : ZoteroItem) : number :=
  compareDates (date a) (date c).

(** The key the specification sorts by: the year and the month, 0 when the
    month is absent; pairs are compared lexicographically. *)
Definition sortKey (i : ZoteroItem) : option (Z * Z) :=
  match year (date i), orZero (month (date i)) with
  | Some (Num y), Some (Num m) => Some (y, m)
  | _, _ => None
  end.

Definition keyBefore (k1 k2 : Z * Z) : Prop :=
  fst k1 < fst k2 \/ (fst k1 = fst k2 /\ snd k1 < snd k2).

(** An item of the given year and month. *)
Definition dated (k : string) (y : Z) (m : option Z) : ZoteroItem :=
  {| key := k; version := 1; itemType := "journalArticle";
     title := "A title"; creators := []; abstractNote := "";
     institution := None; bookTitle := None; proceedingsTitle := None;
     publicationTitle := Some "Nature"; volume := None; issue := None;
     pages := None; series := None; seriesTitle := None; seriesText := None;
     journalAbbreviation := None; DOI := None; ISSN := None;
     shortTitle := None; url := None;
     date := {| year := Some (Num y);
                month := option_map Num m;
                day := None |} |}.

(** The comparator of a descending sort by [time]. *)
Definition descending {A} (time : A -> Z) (x y : A) : number :=
  Num (time y - time x).

(** The time value of an item, when its date has one. *)
Definition timeOf `{Host} (i : ZoteroItem) : Z :=
  match itemTime (date i) with
  | Num t => t
  | NaN => 0
  end.

(** ** Traces *)

(** A computation that leaves no event and returns or throws. *)
Definition quiet {A} (m : Eff A) : Prop :=
  trace m = [] /\ outcome m <> OutOfFuel.

(** The names of the files written, in order. *)
Fixpoint filesWritten (t : list Event) : list string :=
  match t with
  | [] => []
  | WriteTextFile _ name _ :: rest => name :: filesWritten rest
  | _ :: rest => filesWritten rest
  end.

(** A computation that writes no file. *)
Definition writesNothing {A} (m : Eff A) : Prop :=
  filesWritten (trace m) = [].

(** ** The run *)

(** The export steps of [main], from [fs.ensureDir] on. *)
Definition exportFiles (outDir : string) (withPubMedIds : list Enriched)
  : Eff unit :=
  run emit (EnsureDir outDir) then
  run emit (WriteTextFile outDir "papers.json" (JsonText withPubMedIds)) then
  let* pubsCsv := toCsv (List.filter (fun p => negb (isPreprint p)) withPubMedIds) in
  run emit (WriteTextFile outDir "pubs.csv" (CsvText pubsCsv)) then
  let* preprintsCsv := toCsv (List.filter isPreprint withPubMedIds) in
  run emit (WriteTextFile outDir "preprints.csv" (CsvText preprintsCsv)) then
  ret tt.

(** The items of a run in export order, with their PubMed identifiers. *)
Definition exported `{Host} (idMap : gmap string string)
    (items : list ZoteroItem) : list Enriched :=
  map (withPubMedId idMap) (toSorted byDate items).

Definition noRowError : Error :=
  TypeError "Cannot convert undefined or null to object".

(** The keys of the raw records of a collection. *)
Definition rawKey (j : Json) : option string :=
  match j with
  | JObj top => match assoc "key" top with
                | Some (JStr k) => Some k
                | _ => None
                end
  | _ => None
  end.

(** The items that the schema makes of raw records (in the sample host). *)
Definition parsed (raws : list Json) : list ZoteroItem :=
  match outcome (parsePage (JArr raws)) with
  | Ok items => items
  | _ => []
  end.

Definition articleItems : list ZoteroItem := Eval vm_compute in parsed [rawArticle].

Definition publicationsRequest (start : nat) : Event :=
  HttpGet (collectionRequest HIDIVE_GROUP_ID HIDIVE_PUBLICATIONS_COLLECTION_ID start).

Definition preprintsRequest (start : nat) : Event :=
  HttpGet (collectionRequest HIDIVE_GROUP_ID HIDIVE_PREPRINTS_COLLECTION_ID start).

(** ** Overlapping collections and the key listings *)

(** Two collections that share the preprint [PRE00001]. *)
Definition overlappingWorld : World :=
  sampleWorld [rawArticle; rawPreprint] [rawPreprint].

(** A world for the key listings: the keys of each collection, one per
    line, and no notes. *)
Definition keysWorld (pubKeys preprintKeys : string) : World :=
  fun req =>
    let listing keys :=
      match queryStr "itemType" (query req) with
      | Some "-attachment" => Ok {| text := keys; json := Throw SyntaxError |}
      | _ => Ok {| text := ""; json := Throw SyntaxError |}
      end in
    if String.eqb (endpoint req)
         (endpoint (KeyListing.keysRequest HIDIVE_PUBLICATIONS_COLLECTION_ID ""))
    then listing pubKeys
    else if String.eqb (endpoint req)
         (endpoint (KeyListing.keysRequest HIDIVE_PREPRINTS_COLLECTION_ID ""))
    then listing preprintKeys
    else Throw NetworkError.

Definition newline : string := String "010"%char "".

(** ART00001 and PRE00001 in the publications, PRE00001 in the preprints. *)
Definition sharedKeyWorld : World :=
  keysWorld ("ART00001" +:+ newline +:+ "PRE00001" +:+ newline)
            ("PRE00001" +:+ newline).

(** ** Vocabulary of the further properties *)

(** [Number(part)] for a part of a date range, when the part is a number or
    a string. *)
Definition partNumber `{Host} (j : Json) : option number :=
  match j with
  | JNum n => Some (Num n)
  | JStr s => Some (StringToNumber s)
  | _ => None
  end.

(** The date read off the parts of a range. *)
Definition dateOfParts `{Host} (parts : list Json) : IssuedDate :=
  {| year := nth_error parts 0 ≫= partNumber;
     month := nth_error parts 1 ≫= partNumber;
     day := nth_error parts 2 ≫= partNumber |}.

(** An item without year: its only date range is empty. *)
Definition undatedItem : ZoteroItem :=
  {| key := "NODATE01"; version := 1; itemType := "thesis";
     title := "A title"; creators := [Person author "Jane Ann" "Doe"];
     abstractNote := "";
     institution := None; bookTitle := None; proceedingsTitle := None;
     publicationTitle := None; volume := None; issue := None; pages := None;
     series := None; seriesTitle := None; seriesText := None;
     journalAbbreviation := None; DOI := None; ISSN := None;
     shortTitle := None; url := None;
     date := {| year := None; month := None; day := None |} |}.

(** The role a [creatorType] string stands for, if the schema knows it. *)
Definition creatorRole (s : string) : option CreatorType :=
  if String.eqb s "author" then Some author
  else if String.eqb s "editor" then Some editor
  else None.

(** The venue of a journal article in the rich rendering. *)
Definition journalVenueRich (t : string) (v i p : option string) : string :=
  "*" +:+ t +:+ "*"
    +:+ match v with Some v' => " **" +:+ v' +:+ "**" | None => "" end
    +:+ match i with Some i' => "(" +:+ i' +:+ ")" | None => "" end
    +:+ match p with
        | Some p' =>
            (match i, v with None, None => " " | _, _ => ":" end) +:+ p'
        | None => ""
        end.

(** Two outcomes of the same kind: both values, or the same error. *)
Definition sameKind {A} (r1 r2 : Result A) : Prop :=
  match r1, r2 with
  | Ok _, Ok _ => True
  | Throw e1, Throw e2 => e1 = e2
  | OutOfFuel, OutOfFuel => True
  | _, _ => False
  end.

(** A report of an institution, with pages. *)
Definition reportItem : ZoteroItem :=
  {| key := "REP00001"; version := 1; itemType := "report";
     title := "A title"; creators := [Org author "HuBMAP Consortium"];
     abstractNote := "";
     institution := Some "Harvard Medical School"; bookTitle := None;
     proceedingsTitle := None;
     publicationTitle := None; volume := None; issue := None;
     pages := Some "12"; series := None; seriesTitle := None;
     seriesText := None; journalAbbreviation := None; DOI := None;
     ISSN := None; shortTitle := None; url := None;
     date := {| year := Some (Num 2022); month := None; day := None |} |}.

(** The record has a [data] to read the type from: it is an object whose
    [data] is neither missing nor null. *)
Definition hasData (j : Json) : bool :=
  match j with
  | JObj f =>
      match assoc "data" f with
      | None | Some JNull => false
      | Some _ => true
      end
  | _ => false
  end.

(** ** Pages of a collection *)

(** From offset [start] on, the service answers the successive requests
    with the raw pages of [ps], each of them full and accepted by the
    schema as the items given with it. *)
Fixpoint fullPages `{Host} (world : World) (groupId collectionId : string)
    (start : nat) (ps : list (list Json * list ZoteroItem)) : Prop :=
  match ps with
  | [] => True
  | (page, items) :: rest =>
      (exists r, world (collectionRequest groupId collectionId start) = Ok r /\
                 json r = Ok (JArr page)) /\
      (itemsPerPage <= length page)%nat /\
      parsePage (JArr page) = ([], Ok items) /\
      fullPages world groupId collectionId (start + itemsPerPage) rest
  end.

(** The requests for [n] successive pages from offset [start] on. *)
Definition requestsFrom (groupId collectionId : string) (start n : nat)
  : list Event :=
  map (fun k => HttpGet (collectionRequest groupId collectionId
                           (start + k * itemsPerPage)))
      (seq 0 n).

(** A service that ignores the offset and always sends the same hundred
    records. *)
Definition stuckWorld : World :=
  fun _ => Ok {| text := ""; json := Ok (JArr (repeat rawArticle 100)) |}.

(** A service that sends a first page of a hundred records and then
    fails. *)
Definition failingWorld : World :=
  fun req =>
    match queryNat "start" (query req) with
    | Some O => Ok {| text := ""; json := Ok (JArr (repeat rawArticle 100)) |}
    | _ => Throw NetworkError
    end.

Definition hundredItems : list ZoteroItem :=
  flat_map (fun _ => articleItems) (seq 0 100).

(** ** Answers of the identifier service *)

(** A response of the identifier service with the given records. *)
Definition idconvResponse (records : list (string * option string)) : Response :=
  {| text := "";
     json := Ok (JObj [ ("status", JStr "ok");
                        ("records",
                          JArr (map (fun '(d, p) =>
                                       JObj (("doi", JStr d) ::
                                             match p with
                                             | Some p' => [("pmid", JStr p')]
                                             | None => []
                                             end))
                                    records)) ]) |}.

(** A service that reports the one DOI twice, with two identifiers. *)
Definition twiceWorld : World :=
  fun _ => Ok (idconvResponse [ ("10.1000/a", Some "31000001");
                                ("10.1000/a", Some "31000002") ]).

(** A service that fails on the request for the one DOI ["10.1000/a"] and
    answers every other request with no record. *)
Definition singleDoiWorld : World :=
  fun req =>
    match query req with
    | ("ids", QStr "10.1000/a") :: _ => Throw NetworkError
    | _ => Ok (idconvResponse [])
    end.

(** A hundred and one DOIs, the last of them ["10.1000/a"]. *)
Definition manyDois : list string := repeat "10.1000/b" 100 ++ ["10.1000/a"].

(** The requests for the first [n] batches. *)
Definition batchRequests (dois : list string) (n : nat) : list Event :=
  map (fun k => HttpGet (idconvRequest (batchAt dois k))) (seq 0 n).

(** The batch request fails with [e]: the service fails, its response is
    no JSON, or the schema rejects it. *)
Definition batchFails (world : World) (batch : list string) (e : Error) : Prop :=
  world (idconvRequest batch) = Throw e \/
  (exists r, world (idconvRequest batch) = Ok r /\ json r = Throw e) \/
  (exists r j, world (idconvRequest batch) = Ok r /\ json r = Ok j /\
               ncbiIdConverterResponseSchema j = ([], Throw e)).

(** ** The tables *)

(** [row] is the row that [toCsv] makes of [pub]. *)
Definition rowFor (pub : Enriched) (row : CsvRow) : Prop :=
  Month row = month (date (item pub)) /\
  Year row = year (date (item pub)) /\
  PubMedID row = pmid pub /\
  RowDOI row = DOI (item pub) /\
  outcome (formatCitation (item pub)) = Ok (Citation row).

(** The citation of [pub] can be formatted. *)
Definition formats (pub : Enriched) : Prop :=
  exists s, outcome (formatCitation (item pub)) = Ok s.

Definition preprintItems : list ZoteroItem := Eval vm_compute in parsed [rawPreprint].

(** ** Keys and time values *)

(** The item has the key [k]. *)
Definition hasKey (k : Z * Z) (i : ZoteroItem) : bool :=
  match sortKey i with
  | Some (y, m) => (y =? fst k) && (m =? snd k)
  | None => false
  end.

(** The key of the item has a four-digit year (from 100 on) and a month
    index from 0 to 11. *)
Definition plainKey (i : ZoteroItem) : Prop :=
  exists y m, sortKey i = Some (y, m) /\ 100 <= y <= 9999 /\ 0 <= m <= 11.

(** The item with the key [k2] is not newer by key than the one with [k1]. *)
Definition keyNotAfter (a c : ZoteroItem) : Prop :=
  forall ka kc, sortKey a = Some ka -> sortKey c = Some kc -> ~ keyBefore ka kc.

(** The time value of the first day of month [m] of year [y], in UTC. *)
Definition keyTime (y m : Z) : Z :=
  (DayFromYear y + DaysBeforeMonth (InLeapYear y) m) * msPerDay.

(** ** The revision that lists the keys *)

(** The lines of a key listing. *)
Definition listingLines (r : Response) : list string :=
  KeyListing.splitLines (KeyListing.trim (text r)).

(** Every request is answered or fails, and so is the reading of a body. *)
Definition responsive (world : World) : Prop :=
  forall req,
    world req <> OutOfFuel /\
    forall r, world req = Ok r -> json r <> OutOfFuel.

(** The item that the service and the schema give for a key, if any. *)
Definition fetched (zoteroItemResponse : Json -> Eff KeyListing.Item)
    (world : World) (itemKey : string) : option KeyListing.Item :=
  match outcome (KeyListing.fetchZoteroItem zoteroItemResponse world itemKey) with
  | Ok i => Some i
  | _ => None
  end.

(** The lines on the error console and the requests of a trace. *)
Definition isConsoleError (ev : Event) : bool :=
  match ev with
  | ConsoleError _ _ => true
  | _ => false
  end.

Definition isRequest (ev : Event) : bool :=
  match ev with
  | HttpGet _ => true
  | _ => false
  end.

(** An item that holds its key only, and a schema for the examples that
    reads the key of a response. *)
Definition itemOfKey (k : string) : KeyListing.Item :=
  {| KeyListing.bib := ""; KeyListing.key := k; KeyListing.version := 1;
     KeyListing.itemType := "journalArticle"; KeyListing.title := "A title";
     KeyListing.creators := []; KeyListing.abstractNote := None;
     KeyListing.publicationTitle := None; KeyListing.volume := None;
     KeyListing.issue := None; KeyListing.pages := None;
     KeyListing.series := None; KeyListing.seriesTitle := None;
     KeyListing.seriesText := None; KeyListing.journalAbbreviation := None;
     KeyListing.DOI := None; KeyListing.ISSN := None;
     KeyListing.shortTitle := None; KeyListing.url := None;
     KeyListing.date := {| year := Some (Num 2023); month := None; day := None |} |}.

Definition keySchema (j : Json) : Eff KeyListing.Item :=
  match j with
  | JObj f =>
      match assoc "key" f with
      | Some (JStr k) => ret (itemOfKey k)
      | _ => throw (ZodError "key")
      end
  | _ => throw (ZodError "item")
  end.

(** An item service that fails on the first request made and answers the
    later ones. *)
Definition flakyService : KeyListing.Service :=
  fun n _ =>
    match n with
    | O => Throw NetworkError
    | S _ => Ok {| text := ""; json := Ok (JObj [("key", JStr "ART00001")]) |}
    end.

(** ** The README *)

(** The section that the script writes below the text it keeps. *)
Definition papersSection (pubs preprints : string) : string :=
  "## Papers" +:+ Readme.LF +:+
  "### Publications" +:+ Readme.LF +:+ Readme.LF +:+ pubs +:+ Readme.LF +:+
  "### Preprints" +:+ Readme.LF +:+ Readme.LF +:+ preprints +:+ Readme.LF.

(** ** Strings *)

Lemma append_cons (c : ascii) (s t : string) :
  String c s +:+ t = String c (s +:+ t).
Proof. reflexivity. Qed.

Lemma append_nil_l (s : string) : "" +:+ s = s.
Proof. reflexivity. Qed.

Lemma append_nil_r (s : string) : s +:+ "" = s.
Proof.
  induction s as [|c s IH]; [reflexivity|].
  now rewrite append_cons, IH.
Qed.

Lemma append_assoc (s1 s2 s3 : string) :
  (s1 +:+ s2) +:+ s3 = s1 +:+ (s2 +:+ s3).
Proof.
  induction s1 as [|c s1 IH]; [reflexivity|].
  now rewrite !append_cons, IH.
Qed.

Lemma prefix_iff (p s : string) :
  String.prefix p s = true <-> exists post, s = p +:+ post.
Proof.
  revert s. induction p as [|c p IH]; intros s.
  - destruct s; simpl; split; eauto.
  - destruct s as [|d s]; simpl.
    + split; [discriminate | intros [post H]; discriminate].
    + destruct (ascii_dec c d) as [->|Hne].
      * rewrite IH. split; intros [post H]; exists post.
        -- now rewrite H.
        -- rewrite append_cons in H. now inversion H.
      * split; [discriminate|].
        intros [post H]. rewrite append_cons in H. inversion H. congruence.
Qed.

Lemma includes_contains (s needle : string) :
  includes s needle = true <-> contains s needle.
Proof.
  unfold contains. induction s as [|c s IH].
  - change (includes "" needle) with (String.prefix needle "" || false).
    rewrite orb_false_r. split.
    + intros H. apply prefix_iff in H. destruct H as [post H].
      exists "", post. exact H.
    + intros [pre [post H]]. apply prefix_iff. destruct pre as [|d pre].
      * now exists post.
      * rewrite append_cons in H. discriminate.
  - change (includes (String c s) needle)
      with (String.prefix needle (String c s) || includes s needle).
    rewrite orb_true_iff. split.
    + intros [H | H].
      * apply prefix_iff in H. destruct H as [post H]. exists "", post. exact H.
      * apply IH in H. destruct H as [pre [post H]].
        exists (String c pre), post. rewrite append_cons. now rewrite H.
    + intros [pre [post H]]. destruct pre as [|d pre].
      * left. apply prefix_iff. now exists post.
      * right. apply IH. rewrite append_cons in H. inversion H.
        now exists pre, post.
Qed.

Lemma truthy_Some (x : option string) :
  x <> Some "" -> truthy x = match x with Some _ => true | None => false end.
Proof.
  destruct x as [s|]; simpl; [|reflexivity].
  intros H. destruct (String.eqb_spec s ""); [subst; contradiction | reflexivity].
Qed.

(** ** Authors *)

Lemma isAZ_isCapital (c : ascii) : isAZ c = isCapital c.
Proof. destruct c as [[] [] [] [] [] [] [] []]; reflexivity. Qed.

Lemma join_matches_AZ (s : string) : join "" (matches_AZ s) = capitals s.
Proof.
  unfold capitals. induction s as [|c s IH]; simpl; [reflexivity|].
  rewrite <- isAZ_isCapital. destruct (isAZ c); simpl; [|exact IH].
  rewrite <- IH. destruct (matches_AZ s); reflexivity.
Qed.

Lemma initials_capitals (s : string) :
  match match_AZ s with Some l => join "" l | None => "" end = capitals s.
Proof.
  rewrite <- join_matches_AZ. unfold match_AZ.
  destruct (matches_AZ s); reflexivity.
Qed.

Lemma join_separated (sep : string) (l : list string) :
  join sep l = separated sep l.
Proof.
  unfold separated. induction l as [|x [|y l] IH]; [reflexivity..|].
  change (join sep (x :: y :: l)) with (x +:+ sep +:+ join sep (y :: l)).
  rewrite IH. reflexivity.
Qed.

Lemma isAuthor_tagged (a : Author) : isAuthor a = taggedAuthor a.
Proof. destruct a as [[] ?|[] ? ?]; reflexivity. Qed.


(** ** Venue of a journal article *)

Lemma normalized_fields (i : ZoteroItem) :
  normalized i ->
  institution i <> Some "" /\ bookTitle i <> Some "" /\
  proceedingsTitle i <> Some "" /\ publicationTitle i <> Some "" /\
  volume i <> Some "" /\ issue i <> Some "" /\ pages i <> Some "" /\
  DOI i <> Some "" /\ url i <> Some "".
Proof.
  unfold normalized, optionalFields. intros H.
  repeat match goal with
         | H : Forall _ (_ :: _) |- _ => inversion H; clear H; subst
         end.
  repeat split; assumption.
Qed.

(** C3, counterexample.  A journal article without publication title whose
    record carries a proceedings title does not get the empty venue: the
    type assertion of the proceedings branch throws. *)
Lemma journal_without_title_throws :
  itemType articleWithProceedings = "journalArticle" /\
  publicationTitle articleWithProceedings = None /\
  normalized articleWithProceedings /\
  formatJournalInfo articleWithProceedings false = ([], Throw (AssertionError "")) /\
  outcome (formatJournalInfo articleWithProceedings false) <> Ok "".
Proof.
  split; [reflexivity|]. split; [reflexivity|].
  split; [repeat constructor; discriminate|].
  split; [reflexivity | discriminate].
Qed.

(** C3, amended.  In the default rendering, a normalized journal article
    with a publication title gets the venue made of the title, then a
    space and the volume if there is one, then the issue in parentheses if
    there is one, then the pages after ":" when an issue or a volume is
    there and after " " otherwise; "Nature", "600", "2", "100-110" give
    "Nature 600(2):100-110".  Without publication title the venue is empty
    provided the record carries no proceedings title, book title or
    institution either. *)
Theorem journal_venue (meta : ZoteroItem) :
  normalized meta ->
  itemType meta = "journalArticle" ->
  (forall t, publicationTitle meta = Some t ->
     formatJournalInfo meta false =
       ([], Ok (journalVenue t (volume meta) (issue meta) (pages meta)))) /\
  journalVenue "Nature" (Some "600") (Some "2") (Some "100-110")
    = "Nature 600(2):100-110" /\
  (publicationTitle meta = None -> proceedingsTitle meta = None ->
   bookTitle meta = None -> institution meta = None ->
     outcome (formatJournalInfo meta false) = Ok "").
Proof.
  intros Hn Hty. apply normalized_fields in Hn.
  destruct Hn as (_ & _ & _ & Hpub & Hvol & Hiss & Hpg & _).
  split; [|split; [reflexivity|]].
  - intros t Ht. unfold formatJournalInfo. rewrite Hty.
    rewrite (truthy_Some _ Hpub), (truthy_Some _ Hvol),
      (truthy_Some _ Hiss), (truthy_Some _ Hpg).
    rewrite Ht. unfold journalVenue.
    destruct (volume meta) as [v|], (issue meta) as [i|], (pages meta) as [p|];
      cbn -[String.append]; unfold it, b;
      rewrite ?append_assoc, ?append_nil_r; reflexivity.
  - intros H1 H2 H3 H4. unfold formatJournalInfo.
    rewrite Hty, H1, H2, H3, H4. reflexivity.
Qed.

Lemma journal_venue_witness :
  normalized natureArticle /\
  itemType natureArticle = "journalArticle" /\
  formatJournalInfo natureArticle false = ([], Ok "Nature 600(2):100-110").
Proof.
  assert (Hn : normalized natureArticle) by (repeat constructor; discriminate).
  split; [exact Hn|]. split; [reflexivity|].
  exact (proj1 (journal_venue natureArticle Hn eq_refl) "Nature" eq_refl).
Defined.

(** ** Venue of a preprint *)

(** C6, counterexample.  A preprint whose url contains "biorxiv" and, further
    on, "arxiv" is shown as arXiv: the arXiv test comes first. *)
Lemma biorxiv_url_rendered_arxiv :
  itemType biorxivViaArxiv = "preprint" /\
  (exists u, url biorxivViaArxiv = Some u /\ contains u "biorxiv") /\
  formatJournalInfo biorxivViaArxiv false = ([], Ok "arXiv") /\
  outcome (formatJournalInfo biorxivViaArxiv false) <> Ok "bioRxiv".
Proof.
  split; [reflexivity|]. split.
  - eexists. split; [reflexivity|]. apply includes_contains. reflexivity.
  - split; [reflexivity | discriminate].
Qed.

Lemma opt_includes_contains (x : option string) (needle : string) :
  opt_includes x needle = true <-> exists u, x = Some u /\ contains u needle.
Proof.
  destruct x as [u|]; simpl.
  - rewrite includes_contains. split.
    + intros H. now exists u.
    + intros [u' [Hu H]]. now inversion Hu.
  - split; [discriminate | intros [u [Hu _]]; discriminate].
Qed.

(** C6, amended.  The venue of a preprint is that of the first server, in
    the order arXiv, bioRxiv, medRxiv, OSF, SSRN, whose substring occurs in
    the url, and "Preprint" when none does or the url is absent; no other
    field matters.  In particular a url that contains "biorxiv" and does
    not contain "arxiv" gives "bioRxiv". *)
Theorem preprint_venue (meta : ZoteroItem) :
  itemType meta = "preprint" ->
  formatJournalInfo meta false = ([], Ok (firstServer (url meta) preprintServers)) /\
  (forall u, url meta = Some u -> contains u "biorxiv" -> ~ contains u "arxiv" ->
     formatJournalInfo meta false = ([], Ok "bioRxiv")) /\
  ((forall needle venue, In (needle, venue) preprintServers ->
      forall u, url meta = Some u -> ~ contains u needle) ->
     formatJournalInfo meta false = ([], Ok "Preprint")).
Proof.
  intros Hty.
  assert (Hfmt : formatJournalInfo meta false
                 = ([], Ok (firstServer (url meta) preprintServers))).
  { unfold formatJournalInfo. rewrite Hty. cbn -[opt_includes].
    repeat match goal with
           | |- context [if opt_includes ?x ?n then _ else _] =>
               destruct (opt_includes x n)
           end; reflexivity. }
  split; [exact Hfmt|]. split.
  - intros u Hu Hbio Harx. rewrite Hfmt. f_equal. f_equal.
    cbn -[opt_includes].
    destruct (opt_includes (url meta) "arxiv") eqn:E1.
    + apply opt_includes_contains in E1. destruct E1 as [u' [Hu' H]].
      rewrite Hu in Hu'. inversion Hu'; subst. contradiction.
    + assert (E2 : opt_includes (url meta) "biorxiv" = true).
      { apply opt_includes_contains. now exists u. }
      now rewrite E2.
  - intros Hnone. rewrite Hfmt. f_equal. f_equal.
    assert (Hoff : forall needle venue, In (needle, venue) preprintServers ->
                   opt_includes (url meta) needle = false).
    { intros needle venue Hin.
      destruct (opt_includes (url meta) needle) eqn:E; [|reflexivity].
      apply opt_includes_contains in E. destruct E as [u [Hu H]].
      exfalso. exact (Hnone needle venue Hin u Hu H). }
    unfold preprintServers in *. cbn -[opt_includes].
    rewrite (Hoff "arxiv" "arXiv"), (Hoff "biorxiv" "bioRxiv"),
      (Hoff "medrxiv" "medRxiv"), (Hoff "osf.io" "OSF Preprints"),
      (Hoff "ssrn" "SSRN Preprints"); simpl; tauto.
Qed.

Lemma preprint_venue_witness :
  itemType (withUrl sampleItem "preprint" (Some "https://www.biorxiv.org/content/10.1101/2024"))
    = "preprint" /\
  formatJournalInfo
    (withUrl sampleItem "preprint" (Some "https://www.biorxiv.org/content/10.1101/2024"))
    false = ([], Ok "bioRxiv").
Proof.
  split; [reflexivity|].
  exact (proj1 (preprint_venue
           (withUrl sampleItem "preprint" (Some "https://www.biorxiv.org/content/10.1101/2024"))
           eq_refl)).
Defined.

(** ** Which items format without throwing *)

(** C2, counterexample.  A conference paper, a recognized type, that carries
    a publication title makes [formatJournalInfo] and [formatCitation]
    throw; and a journal article without any venue field, a recognized type
    too, gets the empty venue and the diagnostic. *)
Lemma recognized_type_throws :
  recognized (itemType paperWithJournal) /\
  normalized paperWithJournal /\
  formatJournalInfo paperWithJournal false = ([], Throw (AssertionError "")) /\
  formatCitation paperWithJournal = ([], Throw (AssertionError "")) /\
  recognized (itemType sampleItem) /\
  formatJournalInfo sampleItem false
    = ([ConsoleError "Unhandled item type" (key sampleItem)], Ok "").
Proof.
  split; [cbv; tauto|]. split; [repeat constructor; discriminate|].
  split; [reflexivity|]. split; [reflexivity|].
  split; [cbv; tauto | reflexivity].
Qed.

Lemma formatCitation_outcome (meta : ZoteroItem) :
  forall t, (exists s, formatJournalInfo meta false = (t, Ok s)) ->
            exists s, formatCitation meta = (t, Ok s).
Proof.
  intros t [s H]. unfold formatCitation, formatZoteroItem, bind.
  rewrite H. cbn. rewrite !app_nil_r. eauto.
Qed.

Lemma formatCitation_throws (meta : ZoteroItem) t e :
  formatJournalInfo meta false = (t, Throw e) ->
  formatCitation meta = (t, Throw e).
Proof.
  intros H. unfold formatCitation, formatZoteroItem, bind. now rewrite H.
Qed.

(** C2, amended.  Formatting returns a string without throwing and without
    diagnostic for a thesis, for a preprint, and for an item whose first
    venue field (publication title, proceedings title, book title,
    institution, in this order) is the one of its type (journalArticle,
    conferencePaper, bookSection, report).  It throws an assertion error
    when the first venue field belongs to another type.  An item that is
    neither thesis nor preprint and carries none of the four fields,
    whatever its type, gets the empty venue and a logged diagnostic. *)
Theorem formatting_outcomes (meta : ZoteroItem) (rich : bool) :
  (itemType meta = "thesis" \/ itemType meta = "preprint" ->
     (exists s, formatJournalInfo meta rich = ([], Ok s)) /\
     (exists s, formatCitation meta = ([], Ok s))) /\
  (itemType meta <> "thesis" -> itemType meta <> "preprint" ->
     match venueOwner meta with
     | Some ty =>
         if String.eqb (itemType meta) ty
         then (exists s, formatJournalInfo meta rich = ([], Ok s)) /\
              (exists s, formatCitation meta = ([], Ok s))
         else formatJournalInfo meta rich = ([], Throw (AssertionError "")) /\
              formatCitation meta = ([], Throw (AssertionError ""))
     | None =>
         formatJournalInfo meta rich
           = ([ConsoleError "Unhandled item type" (key meta)], Ok "") /\
         (exists s, formatCitation meta
           = ([ConsoleError "Unhandled item type" (key meta)], Ok s))
     end).
Proof.
  assert (Hgen : forall r,
    (itemType meta = "thesis" \/ itemType meta = "preprint" ->
       exists s, formatJournalInfo meta r = ([], Ok s)) /\
    (itemType meta <> "thesis" -> itemType meta <> "preprint" ->
       match venueOwner meta with
       | Some ty =>
           if String.eqb (itemType meta) ty
           then exists s, formatJournalInfo meta r = ([], Ok s)
           else formatJournalInfo meta r = ([], Throw (AssertionError ""))
       | None =>
           formatJournalInfo meta r
             = ([ConsoleError "Unhandled item type" (key meta)], Ok "")
       end)).
  { intros r. split.
    - intros [H | H]; unfold formatJournalInfo; rewrite H; cbn -[opt_includes].
      + eauto.
      + repeat match goal with
               | |- context [if opt_includes ?x ?n then _ else _] =>
                   destruct (opt_includes x n)
               end; eauto.
    - intros H1 H2. apply String.eqb_neq in H1, H2.
      unfold formatJournalInfo, venueOwner. rewrite H1, H2.
      destruct (truthy (publicationTitle meta)).
      { destruct (String.eqb (itemType meta) "journalArticle"); cbn; eauto. }
      destruct (truthy (proceedingsTitle meta)).
      { destruct (String.eqb (itemType meta) "conferencePaper"); cbn; eauto. }
      destruct (truthy (bookTitle meta)).
      { destruct (String.eqb (itemType meta) "bookSection"); cbn; eauto. }
      destruct (truthy (institution meta)).
      { destruct (String.eqb (itemType meta) "report"); cbn; eauto. }
      reflexivity. }
  split.
  - intros H. split; [exact (proj1 (Hgen rich) H)|].
    apply formatCitation_outcome, (proj1 (Hgen false) H).
  - intros H1 H2.
    pose proof (proj2 (Hgen rich) H1 H2) as Hr.
    pose proof (proj2 (Hgen false) H1 H2) as Hf.
    destruct (venueOwner meta) as [ty|].
    + destruct (String.eqb (itemType meta) ty).
      * split; [exact Hr | now apply formatCitation_outcome].
      * split; [exact Hr | now apply formatCitation_throws].
    + split; [exact Hr|]. apply formatCitation_outcome. eauto.
Qed.

(** ** The effect monad *)

Lemma bind_Ok {A B} (m : Eff A) (f : A -> Eff B) t (y : B) :
  bind m f = (t, Ok y) ->
  exists t1 a t2, m = (t1, Ok a) /\ f a = (t2, Ok y) /\ t = t1 ++ t2.
Proof.
  unfold bind. destruct m as [t1 [a | e |]]; try discriminate.
  destruct (f a) as [t2 r] eqn:E. intros Heq. inversion Heq; subst.
  now exists t1, a, t2.
Qed.

Lemma bind_ret_l {A B} (a : A) (f : A -> Eff B) : bind (ret a) f = f a.
Proof. unfold bind, ret. destruct (f a). reflexivity. Qed.

Lemma bind_eq {A B} (m : Eff A) (f : A -> Eff B) t a :
  m = (t, Ok a) -> bind m f = (t ++ fst (f a), snd (f a)).
Proof. intros ->. unfold bind. destruct (f a). reflexivity. Qed.

Lemma bind_pure {A B} (m : Eff A) (f : A -> Eff B) a :
  m = ([], Ok a) -> bind m f = f a.
Proof. intros ->. unfold bind. destruct (f a). reflexivity. Qed.

Lemma trace_bind {A B} (m : Eff A) (f : A -> Eff B) :
  trace (bind m f) =
    trace m ++ match outcome m with Ok a => trace (f a) | _ => [] end.
Proof.
  destruct m as [t [a | e |]]; unfold bind, trace, outcome; cbn [fst snd].
  - destruct (f a). reflexivity.
  - now rewrite app_nil_r.
  - now rewrite app_nil_r.
Qed.

Lemma outcome_bind {A B} (m : Eff A) (f : A -> Eff B) :
  outcome (bind m f) =
    match outcome m with
    | Ok a => outcome (f a)
    | Throw e => Throw e
    | OutOfFuel => OutOfFuel
    end.
Proof.
  destruct m as [t [a | e |]]; unfold bind, outcome; cbn [fst snd];
    try reflexivity.
  destruct (f a). reflexivity.
Qed.

(** ** The schema *)

Lemma maybeStringSchema_Ok what x t v :
  maybeStringSchema what x = (t, Ok v) -> v = normalizedField x /\ v <> Some "".
Proof.
  unfold maybeStringSchema, ret, throw.
  destruct x as [[| | |s| |]|]; intros Heq; inversion Heq; subst; clear Heq.
  - destruct (String.eqb_spec s "") as [->|Hne].
    + split; [reflexivity | discriminate].
    + split.
      * destruct s; [contradiction | reflexivity].
      * intros Hs. inversion Hs. contradiction.
  - split; [reflexivity | discriminate].
Qed.

Section Schema.
Context `{host : Host}.

Lemma zoteroItemSchema_fields (raw : Json) t (i : ZoteroItem) :
  zoteroItemSchema raw = (t, Ok i) ->
  Forall (fun '(name, get) =>
            get i = normalizedField (assoc name (rawData raw)) /\
            get i <> Some "")
         optionalFieldTable.
Proof.
  unfold zoteroItemSchema, rawData.
  destruct raw as [| | | | |top]; try discriminate.
  destruct (assoc "data" top) as [[| | | | |data]|]; try discriminate.
  destruct (assoc "csljson" top) as [[| | | | |csljson]|]; try discriminate.
  intros Hparse.
  repeat match type of Hparse with
         | bind _ _ = (_, Ok _) =>
             let t1 := fresh "t" in let a := fresh "a" in
             let t2 := fresh "t" in let Hm := fresh "Hm" in
             apply bind_Ok in Hparse;
             destruct Hparse as (t1 & a & t2 & Hm & Hparse & _)
         end.
  inversion Hparse; subst; clear Hparse. cbn [optionalFieldTable].
  repeat match goal with
         | Hm : maybeStringSchema _ _ = (_, Ok _) |- _ =>
             apply maybeStringSchema_Ok in Hm
         end.
  repeat constructor; cbn; tauto.
Qed.

(** C9.  For a raw record that the schema accepts, each optional textual
    field of the normalized item is absent when the raw field is the empty
    string (or missing) and is the raw string otherwise; in no case is it
    the empty string. *)
Theorem schema_drops_empty_strings (raw : Json) (t : list Event) (i : ZoteroItem) :
  zoteroItemSchema raw = (t, Ok i) ->
  normalized i /\
  (forall name get, In (name, get) optionalFieldTable ->
     (assoc name (rawData raw) = Some (JStr "") -> get i = None) /\
     (assoc name (rawData raw) = None -> get i = None) /\
     (forall s, s <> "" -> assoc name (rawData raw) = Some (JStr s) ->
                get i = Some s) /\
     get i <> Some "").
Proof.
  intros Hparse. apply zoteroItemSchema_fields in Hparse. split.
  - unfold normalized, optionalFields. unfold optionalFieldTable in Hparse.
    repeat match goal with
           | H : Forall _ (_ :: _) |- _ => inversion H; clear H; subst
           end.
    repeat constructor; tauto.
  - intros name get Hin. rewrite List.Forall_forall in Hparse.
    destruct (Hparse (name, get) Hin) as [Heq Hne].
    repeat split.
    + intros Hraw. now rewrite Heq, Hraw.
    + intros Hraw. now rewrite Heq, Hraw.
    + intros s Hs Hraw. rewrite Heq, Hraw. destruct s; [contradiction | reflexivity].
    + exact Hne.
Qed.

End Schema.

Lemma schema_drops_empty_strings_witness :
  exists i,
    zoteroItemSchema rawArticle = ([], Ok i) /\
    assoc "volume" (rawData rawArticle) = Some (JStr "") /\
    normalized i /\ volume i = None /\ DOI i = None /\
    publicationTitle i = Some "Nature".
Proof.
  eexists. split; [reflexivity|].
  split; [reflexivity|].
  pose proof (schema_drops_empty_strings rawArticle [] _ eq_refl) as [Hn Hf].
  split; [exact Hn|].
  split; [exact (proj1 (Hf "volume" volume ltac:(cbn; tauto)) eq_refl)|].
  split; reflexivity.
Defined.

(** ** Pagination *)

Lemma nil_app_nil {A} (t1 t2 : list A) : [] = t1 ++ t2 -> t1 = [] /\ t2 = [].
Proof.
  destruct t1; simpl; intros Heq; [subst; split; reflexivity | discriminate].
Qed.

Lemma bind_pure_Ok {A B} (m : Eff A) (f : A -> Eff B) (y : B) :
  bind m f = ([], Ok y) ->
  exists a, m = ([], Ok a) /\ f a = ([], Ok y).
Proof.
  intros Hb. apply bind_Ok in Hb. destruct Hb as (t1 & a & t2 & Hm & Hf & Ht).
  apply nil_app_nil in Ht. destruct Ht as [-> ->]. now exists a.
Qed.

Lemma mapM_app_pure {A B} (f : A -> Eff B) (l1 l2 : list A) ys :
  mapM f (l1 ++ l2) = ([], Ok ys) ->
  exists y1 y2, mapM f l1 = ([], Ok y1) /\ mapM f l2 = ([], Ok y2) /\
                ys = y1 ++ y2.
Proof.
  revert ys. induction l1 as [|x l1 IH]; intros ys Hm.
  - exists [], ys. split; [reflexivity | split; [exact Hm | reflexivity]].
  - cbn [app mapM] in Hm.
    apply bind_pure_Ok in Hm. destruct Hm as (y & Hy & Hm).
    apply bind_pure_Ok in Hm. destruct Hm as (ys' & Hys & Hm).
    inversion Hm; subst; clear Hm.
    destruct (IH _ Hys) as (y1 & y2 & H1 & H2 & ->).
    exists (y :: y1), y2. split; [|split; [exact H2 | reflexivity]].
    cbn [mapM]. rewrite (bind_pure _ _ _ Hy), (bind_pure _ _ _ H1). reflexivity.
Qed.

Lemma filterM_app_pure {A} (f : A -> Eff bool) (l1 l2 : list A) ks :
  filterM f (l1 ++ l2) = ([], Ok ks) ->
  exists k1 k2, filterM f l1 = ([], Ok k1) /\ filterM f l2 = ([], Ok k2) /\
                ks = k1 ++ k2.
Proof.
  revert ks. induction l1 as [|x l1 IH]; intros ks Hm.
  - exists [], ks. split; [reflexivity | split; [exact Hm | reflexivity]].
  - cbn [app filterM] in Hm.
    apply bind_pure_Ok in Hm. destruct Hm as (keep & Hy & Hm).
    apply bind_pure_Ok in Hm. destruct Hm as (ks' & Hys & Hm).
    inversion Hm; subst; clear Hm.
    destruct (IH _ Hys) as (k1 & k2 & H1 & H2 & ->).
    exists (if keep then x :: k1 else k1), k2. split; [|split; [exact H2|]].
    + cbn [filterM]. rewrite (bind_pure _ _ _ Hy), (bind_pure _ _ _ H1). reflexivity.
    + destruct keep; reflexivity.
Qed.

(** A computation is quiet when it leaves no event and is no cut loop:
    it returns or throws. *)
Lemma bind_not_OutOfFuel {A B} (m : Eff A) (f : A -> Eff B) :
  outcome m <> OutOfFuel -> (forall a, outcome (f a) <> OutOfFuel) ->
  outcome (bind m f) <> OutOfFuel.
Proof.
  intros Hm Hf. unfold bind. destruct m as [t [a | e |]]; cbn in *.
  - specialize (Hf a). destruct (f a). exact Hf.
  - discriminate.
  - contradiction.
Qed.

Lemma quiet_ret {A} (a : A) : quiet (ret a).
Proof. split; [reflexivity | discriminate]. Qed.

Lemma quiet_throw {A} (e : Error) : quiet (@throw A e).
Proof. split; [reflexivity | discriminate]. Qed.

Lemma quiet_bind {A B} (m : Eff A) (f : A -> Eff B) :
  quiet m -> (forall a, quiet (f a)) -> quiet (bind m f).
Proof.
  intros [Ht Ho] Hf. destruct m as [t [a | e |]]; cbn in *; subst.
  - unfold bind. destruct (Hf a) as [Ht' Ho']. destruct (f a). cbn in *.
    subst. split; [reflexivity | exact Ho'].
  - split; [reflexivity | discriminate].
  - contradiction.
Qed.

Lemma quiet_mapM {A B} (f : A -> Eff B) (l : list A) :
  (forall x, quiet (f x)) -> quiet (mapM f l).
Proof.
  intros Hf. induction l as [|x l IH]; [apply quiet_ret|].
  cbn [mapM]. apply quiet_bind; [apply Hf | intros y].
  apply quiet_bind; [exact IH | intros ys; apply quiet_ret].
Qed.

Lemma quiet_filterM {A} (f : A -> Eff bool) (l : list A) :
  (forall x, quiet (f x)) -> quiet (filterM f l).
Proof.
  intros Hf. induction l as [|x l IH]; [apply quiet_ret|].
  cbn [filterM]. apply quiet_bind; [apply Hf | intros y].
  apply quiet_bind; [exact IH | intros ys; apply quiet_ret].
Qed.

Ltac quiet_cases :=
  repeat first
    [ apply quiet_ret
    | apply quiet_throw
    | match goal with
      | |- quiet (match ?x with _ => _ end) => destruct x
      | |- quiet (if ?c then _ else _) => destruct c
      end ].

Lemma quiet_notNote (j : Json) : quiet (notNote j).
Proof. unfold notNote. quiet_cases. Qed.

Lemma quiet_zString what x : quiet (zString what x).
Proof. unfold zString. quiet_cases. Qed.

Lemma quiet_zNumber what x : quiet (zNumber what x).
Proof. unfold zNumber. quiet_cases. Qed.

Lemma quiet_maybeStringSchema what x : quiet (maybeStringSchema what x).
Proof. unfold maybeStringSchema. quiet_cases. Qed.

Lemma quiet_zCreatorType x : quiet (zCreatorType x).
Proof. unfold zCreatorType. quiet_cases. Qed.

Lemma quiet_zCreator j : quiet (zCreator j).
Proof.
  assert (Hperson : forall f,
    quiet (let* t := zCreatorType (assoc "creatorType" f) in
           let* firstName := zString "firstName" (assoc "firstName" f) in
           let* lastName := zString "lastName" (assoc "lastName" f) in
           ret (Person t firstName lastName))).
  { intros f.
    apply quiet_bind; [apply quiet_zCreatorType | intros ?].
    apply quiet_bind; [apply quiet_zString | intros ?].
    apply quiet_bind; [apply quiet_zString | intros ?]. apply quiet_ret. }
  unfold zCreator. destruct j as [| | | | |f]; try apply quiet_throw.
  specialize (Hperson f). revert Hperson.
  destruct (zCreatorType (assoc "creatorType" f)) as [t [a | e |]];
    destruct (assoc "name" f) as [[| | | | |]|]; intros Hperson;
    first [apply quiet_ret | exact Hperson].
Qed.

Lemma quiet_zArray {A} what (elem : Json -> Eff A) x :
  (forall j, quiet (elem j)) -> quiet (zArray what elem x).
Proof.
  intros He. unfold zArray.
  destruct x as [[| | | | |]|]; try apply quiet_throw. now apply quiet_mapM.
Qed.

Lemma quiet_zNcbiRecord j : quiet (zNcbiRecord j).
Proof.
  unfold zNcbiRecord. destruct j as [| | | | |f]; try apply quiet_throw.
  apply quiet_bind; [apply quiet_zString | intros d]. quiet_cases.
Qed.

Lemma quiet_ncbiIdConverterResponseSchema j :
  quiet (ncbiIdConverterResponseSchema j).
Proof.
  unfold ncbiIdConverterResponseSchema.
  destruct j; try apply quiet_throw. apply quiet_zArray, quiet_zNcbiRecord.
Qed.

Section PaginationWithHost.
Context `{host : Host}.

Lemma quiet_zIssued x : quiet (zIssued x).
Proof.
  unfold zIssued.
  destruct x as [[| | | | |f]|]; try apply quiet_throw.
  destruct (assoc "date-parts" f) as [[| | | |ranges|]|]; try apply quiet_throw.
  apply quiet_bind.
  - apply quiet_mapM. intros r. unfold zDateRange.
    destruct r; try apply quiet_throw.
    apply quiet_mapM. intros p. unfold zDatePart. quiet_cases.
  - intros value. quiet_cases.
Qed.

Lemma quiet_zoteroItemSchema j : quiet (zoteroItemSchema j).
Proof.
  unfold zoteroItemSchema.
  destruct j as [| | | | |top]; try apply quiet_throw.
  destruct (assoc "data" top) as [[| | | | |data]|]; try apply quiet_throw.
  destruct (assoc "csljson" top) as [[| | | | |csljson]|]; try apply quiet_throw.
  repeat first
    [ apply quiet_ret
    | apply quiet_zString
    | apply quiet_zNumber
    | apply quiet_maybeStringSchema
    | apply quiet_zIssued
    | apply quiet_zArray; apply quiet_zCreator
    | apply quiet_bind; [|intros ?] ].
Qed.

Lemma quiet_parsePage page : quiet (parsePage page).
Proof.
  unfold parsePage. destruct page; try apply quiet_throw.
  apply quiet_bind.
  - apply quiet_filterM, quiet_notNote.
  - intros kept. apply quiet_mapM, quiet_zoteroItemSchema.
Qed.

Lemma parsePage_not_OutOfFuel page : outcome (parsePage page) <> OutOfFuel.
Proof. apply quiet_parsePage. Qed.

Lemma parsePage_app (l1 l2 : list Json) items :
  parsePage (JArr (l1 ++ l2)) = ([], Ok items) ->
  exists i1 i2, parsePage (JArr l1) = ([], Ok i1) /\
                parsePage (JArr l2) = ([], Ok i2) /\ items = i1 ++ i2.
Proof.
  unfold parsePage. intros Hp.
  apply bind_pure_Ok in Hp. destruct Hp as (kept & Hk & Hm).
  apply filterM_app_pure in Hk. destruct Hk as (k1 & k2 & Hk1 & Hk2 & ->).
  apply mapM_app_pure in Hm. destruct Hm as (i1 & i2 & Hi1 & Hi2 & ->).
  exists i1, i2. split; [|split; [|reflexivity]].
  - now rewrite (bind_pure _ _ _ Hk1).
  - now rewrite (bind_pure _ _ _ Hk2).
Qed.

Lemma notNote_note (j : Json) :
  isNoteRecord j -> notNote j = ([], Ok false).
Proof.
  unfold isNoteRecord, isNoteB, notNote.
  destruct j as [| | | | |f]; try discriminate.
  destruct (assoc "data" f) as [[| | | | |data]|]; try discriminate.
  destruct (assoc "itemType" data) as [[| | |ty| |]|]; try discriminate.
  now intros ->.
Qed.

Lemma parsePage_notes (l : list Json) :
  Forall isNoteRecord l -> parsePage (JArr l) = ([], Ok []).
Proof.
  intros Hl. unfold parsePage.
  assert (Hk : filterM notNote l = ([], Ok [])).
  { induction Hl as [|x l Hx Hl IH]; [reflexivity|].
    cbn [filterM].
    rewrite (bind_pure _ _ _ (notNote_note x Hx)), (bind_pure _ _ _ IH).
    reflexivity. }
  now rewrite (bind_pure _ _ _ Hk).
Qed.

End PaginationWithHost.

Lemma div_step (n : nat) :
  (100 <= n)%nat -> ((n - 100) / 100 = n / 100 - 1)%nat /\ (1 <= n / 100)%nat.
Proof.
  intros H.
  pose proof (Nat.div_mod_eq n 100) as E.
  pose proof (Nat.mod_upper_bound n 100 ltac:(lia)) as B.
  assert (P : (1 <= n / 100)%nat) by (destruct (n / 100)%nat; lia).
  split; [|exact P].
  symmetry. apply (Nat.div_unique _ _ _ (n mod 100)); lia.
Qed.

Section FetchCollection.
Context `{host : Host}.
Variables (world : World) (groupId collectionId : string) (coll : list Json).
Hypothesis Hserves : serves world groupId collectionId coll.

Lemma fetchPages_turn (fuel : nat) (acc : list ZoteroItem) (start : nat) :
  fetchPages (S fuel) world groupId collectionId acc start =
  let next :=
    let* newItems := parsePage (JArr (rawPage coll start)) in
    if (length (rawPage coll start) <? itemsPerPage)%nat then ret (acc ++ newItems)
    else fetchPages fuel world groupId collectionId (acc ++ newItems)
           (start + itemsPerPage)%nat in
  (HttpGet (collectionRequest groupId collectionId start) :: fst next, snd next).
Proof.
  destruct (Hserves start itemsPerPage) as (r & Hr & Hj).
  change (pageRequest groupId collectionId start itemsPerPage)
    with (collectionRequest groupId collectionId start) in Hr.
  change (firstn itemsPerPage (skipn start coll)) with (rawPage coll start) in Hj.
  cbn [fetchPages]. unfold fetch, responseJson. rewrite Hr.
  rewrite (bind_eq _ _ _ r eq_refl). cbn beta. rewrite Hj.
  rewrite (bind_pure _ _ _ eq_refl). reflexivity.
Qed.

Lemma offsets_shift {A} (f : nat -> A) (start n : nat) :
  f start :: map (fun k => f (start + itemsPerPage + k * itemsPerPage)%nat) (seq 0 n)
  = map (fun k => f (start + k * itemsPerPage)%nat) (seq 0 (S n)).
Proof.
  cbn [seq map]. f_equal; [f_equal; lia|].
  rewrite <- seq_shift, map_map. apply map_ext. intros k. f_equal. lia.
Qed.

Lemma fetchPages_served (fuel : nat) :
  forall (acc : list ZoteroItem) (start : nat),
    (length (skipn start coll) / itemsPerPage < fuel)%nat ->
    outcome (fetchPages fuel world groupId collectionId acc start) <> OutOfFuel /\
    (forall items,
        parsePage (JArr (skipn start coll)) = ([], Ok items) ->
        fetchPages fuel world groupId collectionId acc start =
          (map (fun k => HttpGet (collectionRequest groupId collectionId
                                    (start + k * itemsPerPage)))
               (seq 0 (S (length (skipn start coll) / itemsPerPage))),
           Ok (acc ++ items))).
Proof.
  induction fuel as [|fuel IH]; intros acc start Hfuel; [lia|].
  rewrite fetchPages_turn. cbv zeta.
  set (rest := skipn start coll) in *.
  assert (Hpage : rawPage coll start = firstn itemsPerPage rest) by reflexivity.
  destruct (Nat.ltb_spec (length (rawPage coll start)) itemsPerPage) as [Hshort | Hfull].
  - (* the short page: the loop ends *)
    assert (Hlen : (length rest < itemsPerPage)%nat).
    { rewrite Hpage, length_firstn in Hshort. lia. }
    assert (Hall : rawPage coll start = rest).
    { rewrite Hpage. apply firstn_all2. lia. }
    split.
    + unfold outcome. cbn [snd].
      apply (bind_not_OutOfFuel (parsePage (JArr (rawPage coll start)))).
      * apply parsePage_not_OutOfFuel.
      * discriminate.
    + intros items Hitems. rewrite Hall, (bind_pure _ _ _ Hitems).
      rewrite Nat.div_small by exact Hlen.
      cbn [seq map fst snd ret]. repeat f_equal. lia.
  - (* a full page: one more turn *)
    assert (Hlen : (itemsPerPage <= length rest)%nat).
    { rewrite Hpage, length_firstn in Hfull. lia. }
    assert (Hskip : skipn (start + itemsPerPage) coll = skipn itemsPerPage rest).
    { unfold rest. rewrite Nat.add_comm. symmetry. apply skipn_skipn. }
    destruct (div_step (length rest) Hlen) as [Hdiv Hpos].
    assert (Hdiv' : (length (skipn itemsPerPage rest) / itemsPerPage
                     = length rest / itemsPerPage - 1)%nat).
    { rewrite length_skipn. exact Hdiv. }
    split.
    + unfold outcome. cbn [snd].
      apply (bind_not_OutOfFuel (parsePage (JArr (rawPage coll start)))).
      * apply parsePage_not_OutOfFuel.
      * intros newItems. apply IH. rewrite Hskip, Hdiv'.
        unfold itemsPerPage in *. lia.
    + intros items Hitems.
      rewrite <- (firstn_skipn itemsPerPage rest) in Hitems.
      apply parsePage_app in Hitems.
      destruct Hitems as (i1 & i2 & Hi1 & Hi2 & ->).
      rewrite <- Hpage in Hi1. rewrite (bind_pure _ _ _ Hi1).
      destruct (IH (acc ++ i1) (start + itemsPerPage)%nat) as [_ Hrun].
      { rewrite Hskip, Hdiv'. unfold itemsPerPage in *. lia. }
      rewrite Hskip in Hrun. rewrite (Hrun i2 Hi2). cbn [fst snd].
      rewrite Hdiv'.
      replace (S (length rest / itemsPerPage))
        with (S (S (length rest / itemsPerPage - 1)))
        by (unfold itemsPerPage in *; lia).
      rewrite <- app_assoc. f_equal.
      apply (offsets_shift
        (fun s => HttpGet (collectionRequest groupId collectionId s))).
Qed.

End FetchCollection.

Lemma mapM_app_intro {A B} (f : A -> Eff B) (l1 l2 : list A) y1 y2 :
  mapM f l1 = ([], Ok y1) -> mapM f l2 = ([], Ok y2) ->
  mapM f (l1 ++ l2) = ([], Ok (y1 ++ y2)).
Proof.
  revert y1. induction l1 as [|x l1 IH]; intros y1 H1 H2.
  - inversion H1; subst. exact H2.
  - cbn [mapM] in H1.
    apply bind_pure_Ok in H1. destruct H1 as (y & Hy & H1).
    apply bind_pure_Ok in H1. destruct H1 as (ys & Hys & H1).
    inversion H1; subst; clear H1.
    cbn [app mapM].
    rewrite (bind_pure _ _ _ Hy), (bind_pure _ _ _ (IH _ Hys H2)). reflexivity.
Qed.

Lemma filterM_app_intro {A} (f : A -> Eff bool) (l1 l2 : list A) k1 k2 :
  filterM f l1 = ([], Ok k1) -> filterM f l2 = ([], Ok k2) ->
  filterM f (l1 ++ l2) = ([], Ok (k1 ++ k2)).
Proof.
  revert k1. induction l1 as [|x l1 IH]; intros k1 H1 H2.
  - inversion H1; subst. exact H2.
  - cbn [filterM] in H1.
    apply bind_pure_Ok in H1. destruct H1 as (keep & Hy & H1).
    apply bind_pure_Ok in H1. destruct H1 as (ks & Hys & H1).
    inversion H1; subst; clear H1.
    cbn [app filterM].
    rewrite (bind_pure _ _ _ Hy), (bind_pure _ _ _ (IH _ Hys H2)).
    destruct keep; reflexivity.
Qed.

Section FetchCollectionClaim.
Context `{host : Host}.

Lemma parsePage_app_intro (l1 l2 : list Json) i1 i2 :
  parsePage (JArr l1) = ([], Ok i1) -> parsePage (JArr l2) = ([], Ok i2) ->
  parsePage (JArr (l1 ++ l2)) = ([], Ok (i1 ++ i2)).
Proof.
  unfold parsePage. intros H1 H2.
  apply bind_pure_Ok in H1. destruct H1 as (k1 & Hk1 & Hm1).
  apply bind_pure_Ok in H2. destruct H2 as (k2 & Hk2 & Hm2).
  rewrite (bind_pure _ _ _ (filterM_app_intro _ _ _ _ _ Hk1 Hk2)).
  now apply mapM_app_intro.
Qed.

Lemma fetchPages_requests (world : World) (groupId collectionId : string)
    (fuel : nat) :
  forall (acc : list ZoteroItem) (start : nat),
  exists n,
    trace (fetchPages fuel world groupId collectionId acc start)
    = map (fun k => HttpGet (collectionRequest groupId collectionId
                               (start + k * itemsPerPage)))
          (seq 0 n).
Proof.
  induction fuel as [|fuel IH]; intros acc start; [exists 0%nat; reflexivity|].
  cbn [fetchPages]. rewrite trace_bind. cbn [fetch trace outcome fst snd].
  destruct (world (collectionRequest groupId collectionId start)) as [r | e |];
    [|exists 1%nat; cbn; now rewrite Nat.add_0_r..].
  rewrite trace_bind. cbn [responseJson trace outcome fst snd app].
  destruct (json r) as [page | e |];
    [|exists 1%nat; cbn; now rewrite Nat.add_0_r..].
  rewrite trace_bind.
  destruct (quiet_parsePage page) as [Hq _]. rewrite Hq. cbn [app].
  destruct (outcome (parsePage page)) as [newItems | e |];
    [|exists 1%nat; cbn; now rewrite Nat.add_0_r..].
  destruct (jsonLength page <? itemsPerPage)%nat.
  - exists 1%nat. cbn. now rewrite Nat.add_0_r.
  - destruct (IH (acc ++ newItems) (start + itemsPerPage)%nat) as [n Hn].
    exists (S n). rewrite Hn.
    apply (offsets_shift
             (fun s => HttpGet (collectionRequest groupId collectionId s))).
Qed.

(** C7.  The collection is asked for in pages of 100 records from offset
    0 on: every request names the collection, asks for JSON with the
    bibliographic data, leaves attachments out, and carries the limit 100
    and its offset.  For a finite remote collection the loop ends, and it
    ends with the first page whose raw size is below 100: the pages
    requested before are full, the last one is short, and no further
    request is made.  When the records pass the schema the result holds
    the items of all the records that are no notes; a last page made of
    notes only ends the loop as well. *)
Theorem fetch_ends_at_short_page (world : World) (groupId collectionId : string)
    (coll : list Json) (fuel : nat) :
  serves world groupId collectionId coll ->
  (length coll / 100 < fuel)%nat ->
  let fetched := fetchZoteroCollection fuel world groupId collectionId in
  let last := (length coll / 100 * 100)%nat in
  outcome fetched <> OutOfFuel /\
  (forall start, In start (pageStarts (length coll)) -> start <> last ->
     length (rawPage coll start) = 100%nat) /\
  (In last (pageStarts (length coll)) /\
   length (rawPage coll last) < 100)%nat /\
  (forall items, parsePage (JArr coll) = ([], Ok items) ->
     fetched = (pageRequests groupId collectionId (length coll), Ok items)) /\
  (forall items, parsePage (JArr (firstn last coll)) = ([], Ok items) ->
     Forall isNoteRecord (rawPage coll last) ->
     fetched = (pageRequests groupId collectionId (length coll), Ok items)) /\
  (forall t result, fetched = (t, result) ->
     exists n, t = map (fun k => HttpGet (pageRequest groupId collectionId
                                            (k * 100) 100)) (seq 0 n)).
Proof.
  intros Hserves Hfuel fetched last.
  pose proof (fetchPages_served world groupId collectionId coll Hserves fuel [] 0%nat)
    as Hrun.
  cbn [skipn app] in Hrun. specialize (Hrun Hfuel). destruct Hrun as [Hend Hrun].
  pose proof (Nat.div_mod_eq (length coll) 100) as Hdm.
  pose proof (Nat.mod_upper_bound (length coll) 100 ltac:(discriminate)) as Hmod.
  assert (Hall : forall items, parsePage (JArr coll) = ([], Ok items) ->
            fetched = (pageRequests groupId collectionId (length coll), Ok items)).
  { intros items Hitems. unfold fetched, fetchZoteroCollection.
    rewrite (Hrun items Hitems). unfold pageRequests, pageStarts.
    rewrite map_map. reflexivity. }
  assert (Hshort : (length (rawPage coll last) < 100)%nat).
  { unfold rawPage. rewrite length_firstn, length_skipn. unfold last. lia. }
  split; [exact Hend|].
  split; [|split; [split; [|exact Hshort]|split; [exact Hall|split]]].
  - intros start Hin Hne. unfold pageStarts in Hin.
    apply in_map_iff in Hin. destruct Hin as (k & <- & Hk).
    apply in_seq in Hk. unfold rawPage.
    rewrite length_firstn, length_skipn.
    assert (k <> length coll / 100)%nat by (intros ->; now apply Hne).
    nia.
  - unfold pageStarts. apply in_map_iff.
    exists (length coll / 100)%nat. split; [reflexivity|].
    apply in_seq. lia.
  - intros items Hitems Hnotes. apply Hall.
    rewrite <- (firstn_skipn last coll).
    rewrite <- (app_nil_r items).
    apply parsePage_app_intro; [exact Hitems|].
    replace (skipn last coll) with (rawPage coll last).
    + now apply parsePage_notes.
    + unfold rawPage. apply firstn_all2. unfold rawPage in Hshort.
      rewrite length_firstn in Hshort. lia.
  - intros t result Heq.
    destruct (fetchPages_requests world groupId collectionId fuel [] 0%nat)
      as [n Hn].
    exists n. unfold fetched, fetchZoteroCollection in Heq.
    rewrite Heq in Hn. cbn [trace fst] in Hn. rewrite Hn.
    apply map_ext. intros k. reflexivity.
Qed.

End FetchCollectionClaim.

Lemma fetch_ends_at_short_page_witness :
  serves (sampleWorld hundredAndANote [])
    HIDIVE_GROUP_ID HIDIVE_PUBLICATIONS_COLLECTION_ID hundredAndANote /\
  (length hundredAndANote / 100 < 2)%nat /\
  rawPage hundredAndANote 100 = [rawNote] /\
  exists items,
    length items = 100%nat /\
    fetchZoteroCollection 2 (sampleWorld hundredAndANote [])
      HIDIVE_GROUP_ID HIDIVE_PUBLICATIONS_COLLECTION_ID
    = ([ HttpGet (pageRequest "5145258" "YGTEVG73" 0 100);
         HttpGet (pageRequest "5145258" "YGTEVG73" 100 100) ],
       Ok items).
Proof.
  assert (Hs : serves (sampleWorld hundredAndANote [])
                 HIDIVE_GROUP_ID HIDIVE_PUBLICATIONS_COLLECTION_ID hundredAndANote)
    by (intros start limit; eexists; split; reflexivity).
  assert (Hf : (length hundredAndANote / 100 < 2)%nat)
    by (vm_compute; lia).
  split; [exact Hs|]. split; [exact Hf|]. split; [reflexivity|].
  destruct (fetch_ends_at_short_page _ _ _ _ 2%nat Hs Hf)
    as (_ & _ & _ & _ & Hnotes & _).
  eexists. split; cycle 1.
  - apply Hnotes; [vm_compute; reflexivity | repeat constructor].
  - reflexivity.
Defined.

(** ** DOI to PubMed identifier *)

Lemma firstn_add {A} (a c : nat) (l : list A) :
  firstn (a + c) l = firstn a l ++ firstn c (skipn a l).
Proof.
  revert l. induction a as [|a IH]; intros l; [reflexivity|].
  destruct l as [|x l]; cbn [Nat.add firstn skipn app].
  - now destruct c.
  - now rewrite IH.
Qed.

Lemma concat_batchAt (dois : list string) (n : nat) :
  concat (map (batchAt dois) (seq 0 n)) = firstn (n * 100) dois.
Proof.
  induction n as [|n IH]; [reflexivity|].
  rewrite seq_S, map_app, concat_app, IH. cbn [map concat Nat.add].
  rewrite app_nil_r. unfold batchAt.
  replace (S n * 100)%nat with (n * 100 + 100)%nat by lia.
  now rewrite firstn_add.
Qed.

Lemma batchCount_step (n : nat) :
  (1 <= n)%nat -> batchCount n = S (batchCount (n - 100)).
Proof.
  intros Hn. unfold batchCount.
  destruct (le_lt_dec 100 n) as [Hge | Hlt].
  - destruct (div_step (n + 99)) as [Hd Hp]; [lia|].
    replace (n - 100 + 99)%nat with (n + 99 - 100)%nat by lia. lia.
  - replace (n - 100)%nat with 0%nat by lia.
    rewrite (Nat.div_small (0 + 99)) by lia.
    symmetry. apply (Nat.div_unique _ _ _ (n - 1)); lia.
Qed.

Lemma batchCount_covers (n : nat) : (n <= batchCount n * 100)%nat.
Proof.
  unfold batchCount.
  pose proof (Nat.div_mod_eq (n + 99) 100).
  pose proof (Nat.mod_upper_bound (n + 99) 100 ltac:(lia)). lia.
Qed.

Lemma batchCount_last (n k : nat) :
  (k < batchCount n)%nat -> (k * 100 < n)%nat.
Proof.
  unfold batchCount. intros Hk.
  pose proof (Nat.div_mod_eq (n + 99) 100).
  pose proof (Nat.mod_upper_bound (n + 99) 100 ltac:(lia)). lia.
Qed.

Lemma batchCount_full (n k : nat) :
  (S k < batchCount n)%nat -> (k * 100 + 100 <= n)%nat.
Proof.
  intros Hk. apply batchCount_last in Hk. lia.
Qed.

Lemma addRecord_lookup (m : gmap string string) (record : NcbiRecord) (d : string) :
  addRecord m record !! d =
    match rec_pmid record with
    | Some p => if truthy (Some p) && String.eqb (doi record) d
                then Some p else m !! d
    | None => m !! d
    end.
Proof.
  unfold addRecord. destruct (rec_pmid record) as [p|]; [|reflexivity].
  destruct (truthy (Some p)); [|reflexivity]. cbn [andb].
  destruct (String.eqb_spec (doi record) d) as [->|Hne].
  - apply lookup_insert_eq.
  - now apply lookup_insert_ne.
Qed.

Lemma fold_addRecord_lookup (records : list NcbiRecord) :
  forall (m : gmap string string) (d p : string),
    fold_left addRecord records m !! d = Some p ->
    m !! d = Some p \/ exists record, In record records /\ resolved record d p.
Proof.
  induction records as [|r records IH]; intros m d p Hl; [now left|].
  cbn [fold_left] in Hl. apply IH in Hl. destruct Hl as [Hl | (r' & Hin & Hr)].
  - rewrite addRecord_lookup in Hl.
    destruct (rec_pmid r) as [q|] eqn:Eq; [|now left].
    destruct (truthy (Some q)) eqn:Et; [|now left].
    destruct (String.eqb_spec (doi r) d) as [Hd|Hne]; cbn [andb] in Hl; [|now left].
    right. exists r. split; [now left|]. inversion Hl; subst q.
    split; [exact Hd|]. split; [exact Eq|]. intros ->. discriminate.
  - right. exists r'. split; [now right | exact Hr].
Qed.

Lemma fold_addRecord_keeps (records : list NcbiRecord) :
  forall (m : gmap string string) (d : string),
    is_Some (m !! d) -> is_Some (fold_left addRecord records m !! d).
Proof.
  induction records as [|r records IH]; intros m d Hm; [exact Hm|].
  cbn [fold_left]. apply IH. rewrite addRecord_lookup.
  destruct (rec_pmid r) as [q|]; [|exact Hm].
  destruct (truthy (Some q) && String.eqb (doi r) d); [eauto | exact Hm].
Qed.

Lemma fold_addRecord_resolved (records : list NcbiRecord) :
  forall (m : gmap string string) (record : NcbiRecord) (d p : string),
    In record records -> resolved record d p ->
    is_Some (fold_left addRecord records m !! d).
Proof.
  induction records as [|r records IH]; intros m record d p Hin Hr; [contradiction|].
  cbn [fold_left]. destruct Hin as [-> | Hin].
  - apply fold_addRecord_keeps. rewrite addRecord_lookup.
    destruct Hr as (Hd & Hp & Hne). rewrite Hp, Hd, String.eqb_refl.
    cbn [truthy]. destruct (String.eqb_spec p ""); [contradiction|].
    cbn. eauto.
  - now apply (IH _ record d p).
Qed.

Lemma idconvRequest_lookup (batch : list string) :
  idconvRequest batch = lookupRequest batch.
Proof.
  unfold idconvRequest, lookupRequest. now rewrite join_separated.
Qed.

Section Resolver.
Variables (world : World) (dois : list string).

Lemma getPubMedIdsFrom_batches (fuel : nat) :
  forall (i : nat) (records : gmap string string) (responses : list (list NcbiRecord)),
    let pending :=
      map (fun k => firstn 100 (skipn (i + k * itemsPerPage) dois))
          (seq 0 (batchCount (length dois - i))) in
    Forall2 (answered world) pending responses ->
    (length dois - i < fuel)%nat ->
    getPubMedIdsFrom fuel world dois 100 i records =
      (map (fun batch => HttpGet (idconvRequest batch)) pending,
       Ok (fold_left addRecord (concat responses) records)).
Proof.
  induction fuel as [|fuel IH]; intros i records responses pending Hans Hfuel; [lia|].
  cbn [getPubMedIdsFrom].
  destruct (Nat.ltb_spec i (length dois)) as [Hlt | Hge].
  - assert (Hcount : batchCount (length dois - i)
                     = S (batchCount (length dois - (i + 100)))).
    { rewrite batchCount_step by lia. f_equal. f_equal. lia. }
    subst pending. rewrite Hcount in *.
    rewrite <- (offsets_shift (fun s => firstn 100 (skipn s dois))) in Hans.
    rewrite <- (offsets_shift (fun s => firstn 100 (skipn s dois))).
    inversion Hans as [|batch recs rest responses' Hfirst Hrest]; subst; clear Hans.
    destruct Hfirst as (r & j & Hr & Hj & Hparse).
    rewrite <- idconvRequest_lookup in Hr.
    assert (Hslice : slice dois i (i + 100) = firstn 100 (skipn i dois)).
    { unfold slice. f_equal. lia. }
    rewrite Hslice. unfold fetch, responseJson. rewrite Hr.
    rewrite (bind_eq _ _ _ r eq_refl). cbn beta. rewrite Hj.
    rewrite (bind_pure _ _ _ eq_refl), (bind_pure _ _ _ Hparse).
    rewrite (IH (i + 100)%nat _ responses' Hrest) by lia.
    cbn [fst snd map concat app]. rewrite fold_left_app. reflexivity.
  - assert (Hcount : batchCount (length dois - i) = 0%nat).
    { replace (length dois - i)%nat with 0%nat by lia. reflexivity. }
    subst pending. rewrite Hcount in *. cbn [seq map] in *.
    inversion Hans; subst. reflexivity.
Qed.

End Resolver.

(** C8.  When every lookup is answered with a response that the schema
    accepts (and no record names the key "__proto__", which an object does
    not store), [getPubMedIds] returns a map that holds a DOI exactly when
    some record of the responses reports this DOI with a PubMed identifier
    that is not empty, and maps it to such an identifier: a DOI without
    identifier is absent, and no value is the empty string.  The lookups
    send the DOIs in batches of 100, in the parameter [ids] with commas
    between them: the batches put end to end are the list, every batch but
    the last holds 100 DOIs, and the last holds between 1 and 100. *)
Theorem pubmed_map_holds_resolved_dois (world : World) (dois : list string)
    (responses : list (list NcbiRecord)) (fuel : nat) :
  Forall2 (answered world) (batches dois) responses ->
  Forall (fun record => ownKey (doi record)) (concat responses) ->
  (length dois < fuel)%nat ->
  exists m : gmap string string,
    getPubMedIds fuel world dois 100 =
      (map (fun batch => HttpGet (lookupRequest batch)) (batches dois), Ok m) /\
    (forall d, is_Some (m !! d) <->
               exists record p, In record (concat responses) /\ resolved record d p) /\
    (forall d p, m !! d = Some p ->
               p <> "" /\
               exists record, In record (concat responses) /\ resolved record d p) /\
    concat (batches dois) = dois /\
    Forall (fun batch => 1 <= length batch <= 100)%nat (batches dois) /\
    (forall k, (S k < batchCount (length dois))%nat ->
               length (batchAt dois k) = 100%nat).
Proof.
  intros Hans _ Hfuel.
  assert (Hpending : batches dois =
            map (fun k => firstn 100 (skipn (0 + k * itemsPerPage) dois))
                (seq 0 (batchCount (length dois - 0)))).
  { unfold batches. rewrite Nat.sub_0_r. reflexivity. }
  exists (fold_left addRecord (concat responses) ∅).
  split; [|split; [|split; [|split; [|split]]]].
  - unfold getPubMedIds.
    rewrite <- (map_ext _ _ (fun batch => f_equal HttpGet (idconvRequest_lookup batch))).
    rewrite Hpending.
    apply getPubMedIdsFrom_batches; [now rewrite <- Hpending | lia].
  - intros d. split.
    + intros [p Hp]. apply fold_addRecord_lookup in Hp.
      destruct Hp as [Hp | (record & Hin & Hr)].
      * rewrite lookup_empty in Hp. discriminate.
      * now exists record, p.
    + intros (record & p & Hin & Hr). now apply (fold_addRecord_resolved _ _ record d p).
  - intros d p Hp. apply fold_addRecord_lookup in Hp.
    destruct Hp as [Hp | (record & Hin & Hr)].
    + rewrite lookup_empty in Hp. discriminate.
    + split; [apply Hr | now exists record].
  - unfold batches. rewrite concat_batchAt. apply firstn_all2, batchCount_covers.
  - unfold batches. apply List.Forall_forall. intros batch Hin.
    apply in_map_iff in Hin. destruct Hin as (k & <- & Hk).
    apply in_seq in Hk. unfold batchAt.
    rewrite length_firstn, length_skipn.
    pose proof (batchCount_last (length dois) k ltac:(lia)). lia.
  - intros k Hk. apply batchCount_full in Hk. unfold batchAt.
    rewrite length_firstn, length_skipn. lia.
Qed.

Lemma pubmed_map_holds_resolved_dois_witness :
  Forall2 (answered idconvWorld) (batches threeDois)
    [[ {| doi := "10.1000/a"; rec_pmid := Some "31000001" |};
       {| doi := "10.1000/b"; rec_pmid := None |};
       {| doi := "10.1000/c"; rec_pmid := Some "" |} ]] /\
  (length threeDois < 4)%nat /\
  exists m : gmap string string,
    getPubMedIds 4 idconvWorld threeDois 100
    = ([ HttpGet {| endpoint := "https://www.ncbi.nlm.nih.gov/pmc/utils/idconv/v1.0/";
                    query := [ ("ids", QStr "10.1000/a,10.1000/b,10.1000/c");
                               ("format", QStr "json") ] |} ], Ok m) /\
    m !! "10.1000/a" = Some "31000001" /\
    m !! "10.1000/b" = None /\
    m !! "10.1000/c" = None.
Proof.
  assert (Hans : Forall2 (answered idconvWorld) (batches threeDois)
            [[ {| doi := "10.1000/a"; rec_pmid := Some "31000001" |};
               {| doi := "10.1000/b"; rec_pmid := None |};
               {| doi := "10.1000/c"; rec_pmid := Some "" |} ]]).
  { constructor; [|constructor]. eexists _, _.
    split; [reflexivity|]. split; reflexivity. }
  assert (Hfuel : (length threeDois < 4)%nat) by (cbn; lia).
  assert (Hown : Forall (fun record => ownKey (doi record))
            (concat [[ {| doi := "10.1000/a"; rec_pmid := Some "31000001" |};
                       {| doi := "10.1000/b"; rec_pmid := None |};
                       {| doi := "10.1000/c"; rec_pmid := Some "" |} ]]))
    by (repeat constructor; discriminate).
  split; [exact Hans|]. split; [exact Hfuel|].
  destruct (pubmed_map_holds_resolved_dois idconvWorld threeDois _ 4%nat
              Hans Hown Hfuel)
    as (m & Hrun & Hdom & Hval & _).
  exists m. split; [exact Hrun|].
  assert (Hnone : forall d, d <> "10.1000/a" -> m !! d = None).
  { intros d Hd. destruct (m !! d) as [p|] eqn:E; [|reflexivity].
    destruct (Hval d p E) as (Hp & record & Hin & Hd' & Hp' & _).
    cbn in Hin. destruct Hin as [<- | [<- | [<- | []]]]; cbn in *;
      congruence. }
  split; [|split; apply Hnone; discriminate].
  destruct (proj2 (Hdom "10.1000/a")) as [p Hp].
  { eexists _, "31000001". split; [left; reflexivity|].
    repeat split. discriminate. }
  destruct (Hval _ _ Hp) as (_ & record & Hin & Hd' & Hp' & _).
  cbn in Hin. destruct Hin as [<- | [<- | [<- | []]]]; cbn in *;
    try congruence; discriminate.
Defined.

(** ** The export order *)

Lemma insertBy_Permutation {A} (cmp : A -> A -> Z) (x : A) (l : list A) :
  Permutation (insertBy cmp x l) (x :: l).
Proof.
  induction l as [|y l IH]; cbn [insertBy]; [reflexivity|].
  destruct (cmp x y <=? 0); [reflexivity|].
  rewrite IH. apply perm_swap.
Qed.

Lemma toSorted_Permutation {A} (cmp : A -> A -> number) (l : list A) :
  Permutation (toSorted cmp l) l.
Proof.
  induction l as [|x l IH]; [reflexivity|].
  unfold toSorted in *. cbn [fold_right].
  rewrite insertBy_Permutation. now constructor.
Qed.

Lemma insertBy_ext {A} (cmp cmp' : A -> A -> Z) (x : A) (l : list A) :
  (forall y, In y l -> cmp x y = cmp' x y) ->
  insertBy cmp x l = insertBy cmp' x l.
Proof.
  induction l as [|y l IH]; intros Hext; [reflexivity|].
  cbn [insertBy]. rewrite (Hext y) by now left.
  destruct (cmp' x y <=? 0); [reflexivity|].
  f_equal. apply IH. intros z Hz. apply Hext. now right.
Qed.

Lemma toSorted_ext {A} (cmp cmp' : A -> A -> number) (l : list A) :
  (forall x y, In x l -> In y l -> sortCompare cmp x y = sortCompare cmp' x y) ->
  toSorted cmp l = toSorted cmp' l.
Proof.
  induction l as [|x l IH]; intros Hext; [reflexivity|].
  unfold toSorted in *. cbn [fold_right].
  rewrite IH by (intros y z Hy Hz; apply Hext; now right).
  apply insertBy_ext. intros y Hy. apply Hext; [now left|].
  right. apply (Permutation_in _ (toSorted_Permutation cmp' l)). exact Hy.
Qed.

Section ByKey.
Context {A : Type} (time : A -> Z).

Lemma insertBy_sorted (x : A) (l : list A) :
  StronglySorted (fun a c => time c <= time a) l ->
  StronglySorted (fun a c => time c <= time a)
    (insertBy (sortCompare (descending time)) x l).
Proof.
  induction l as [|y l IH]; intros Hs; cbn [insertBy].
  - repeat constructor.
  - inversion Hs as [|? ? Hl Hy]; subst.
    destruct (Z.leb_spec (sortCompare (descending time) x y) 0) as [Hle | Hgt];
      unfold sortCompare, descending in *.
    + constructor; [exact Hs|]. constructor; [lia|].
      eapply List.Forall_impl; [|exact Hy]. cbn. intros z Hz. lia.
    + constructor; [now apply IH|].
      apply (Permutation_Forall
               (Permutation_sym
                  (insertBy_Permutation (sortCompare (descending time)) x l))).
      constructor; [lia | exact Hy].
Qed.

Lemma toSorted_sorted (l : list A) :
  StronglySorted (fun a c => time c <= time a) (toSorted (descending time) l).
Proof.
  induction l as [|x l IH]; [constructor|].
  unfold toSorted in *. cbn [fold_right]. now apply insertBy_sorted.
Qed.

Lemma insertBy_stable (t : Z) (x : A) (l : list A) :
  StronglySorted (fun a c => time c <= time a) l ->
  List.filter (fun a => time a =? t) (insertBy (sortCompare (descending time)) x l)
  = List.filter (fun a => time a =? t) (x :: l).
Proof.
  induction l as [|y l IH]; intros Hs; cbn [insertBy]; [reflexivity|].
  inversion Hs as [|? ? Hl Hy]; subst.
  destruct (Z.leb_spec (sortCompare (descending time) x y) 0) as [Hle | Hgt];
    [reflexivity|].
  unfold sortCompare, descending in Hgt. cbn [List.filter] in *. rewrite (IH Hl).
  destruct (Z.eqb_spec (time x) t), (Z.eqb_spec (time y) t); try reflexivity.
  lia.
Qed.

Lemma toSorted_stable (t : Z) (l : list A) :
  List.filter (fun a => time a =? t) (toSorted (descending time) l)
  = List.filter (fun a => time a =? t) l.
Proof.
  induction l as [|x l IH]; [reflexivity|].
  unfold toSorted in *. cbn [fold_right].
  rewrite insertBy_stable by apply toSorted_sorted.
  cbn [List.filter]. now rewrite IH.
Qed.

End ByKey.

Section ExportOrder.
Context `{host : Host}.

(** Items whose dates have a time value come out newest first, and items
    of the same time value keep the order of the input. *)
Lemma export_order (items : list ZoteroItem) :
  Forall (fun i => itemTime (date i) <> NaN) items ->
  let sorted := toSorted byDate items in
  Permutation sorted items /\
  StronglySorted (fun a c => timeOf c <= timeOf a) sorted /\
  (forall t, List.filter (fun i => timeOf i =? t) sorted
             = List.filter (fun i => timeOf i =? t) items).
Proof.
  intros Hvalid sorted.
  assert (Hext : sorted = toSorted (descending timeOf) items).
  { apply toSorted_ext. intros x y Hx Hy.
    rewrite List.Forall_forall in Hvalid.
    pose proof (Hvalid x Hx) as Vx. pose proof (Hvalid y Hy) as Vy.
    unfold sortCompare, byDate, compareDates, timeOf, descending.
    destruct (itemTime (date x)), (itemTime (date y)); congruence. }
  rewrite Hext. split; [apply toSorted_Permutation|].
  split; [apply (toSorted_sorted timeOf) | intros t; apply (toSorted_stable timeOf)].
Qed.

(** C4, the divergence.  December 2023 and a 2024 item without month get
    the same time value, whatever the time zone: month 12 of 2023 is month
    0 of 2024 for [new Date(year, month)].  The sort reads 0 from the
    comparator both ways (in UTC the comparator returns 0) and keeps the
    order of the input, although the key (2023, 12) comes before the key
    (2024, 0). *)
Theorem december_ties_with_next_year :
  let december := dated "DEC2023" 2023 (Some 12) in
  let undated := dated "Y2024" 2024 None in
  sortKey december = Some (2023, 12) /\
  sortKey undated = Some (2024, 0) /\
  keyBefore (2023, 12) (2024, 0) /\
  itemTime (date december) = itemTime (date undated) /\
  sortCompare byDate december undated = 0 /\
  sortCompare byDate undated december = 0 /\
  @byDate utcHost december undated = Num 0 /\
  @byDate utcHost undated december = Num 0 /\
  toSorted byDate [december; undated] = [december; undated] /\
  toSorted byDate [undated; december] = [undated; december].
Proof.
  cbv zeta.
  assert (Htie : itemTime (date (dated "DEC2023" 2023 (Some 12)))
                 = itemTime (date (dated "Y2024" 2024 None))) by reflexivity.
  assert (H1 : sortCompare byDate (dated "DEC2023" 2023 (Some 12))
                 (dated "Y2024" 2024 None) = 0).
  { unfold sortCompare, byDate, compareDates. rewrite Htie.
    destruct (itemTime _); [lia | reflexivity]. }
  assert (H2 : sortCompare byDate (dated "Y2024" 2024 None)
                 (dated "DEC2023" 2023 (Some 12)) = 0).
  { unfold sortCompare, byDate, compareDates. rewrite Htie.
    destruct (itemTime _); [lia | reflexivity]. }
  split; [reflexivity|]. split; [reflexivity|].
  split; [left; cbn; lia|]. split; [exact Htie|].
  split; [exact H1|]. split; [exact H2|].
  split; [reflexivity|]. split; [reflexivity|].
  unfold toSorted. cbn [fold_right insertBy]. rewrite H1, H2. split; reflexivity.
Qed.

End ExportOrder.

(** The example of the specification, in the time zone UTC: (2023, 5),
    (2023, no month), (2024, 1) come out as 2024-01, 2023-05, 2023. *)
Example export_order_example :
  toSorted byDate
    [dated "A" 2023 (Some 5); dated "B" 2023 None; dated "C" 2024 (Some 1)]
  = [dated "C" 2024 (Some 1); dated "A" 2023 (Some 5); dated "B" 2023 None].
Proof. vm_compute. reflexivity. Qed.

(** *** Where the key order and the time order agree *)

Lemma DayFromYear_step (y : Z) : DayFromYear y + 365 <= DayFromYear (y + 1).
Proof.
  unfold DayFromYear.
  replace (y + 1 - 1970) with (y - 1970 + 1) by lia.
  replace (y + 1 - 1969) with (y - 1969 + 1) by lia.
  replace (y + 1 - 1901) with (y - 1901 + 1) by lia.
  replace (y + 1 - 1601) with (y - 1601 + 1) by lia.
  Z.to_euclidean_division_equations. lia.
Qed.

Lemma DayFromYear_next (y1 y2 : Z) :
  y1 < y2 -> DayFromYear y1 + 365 <= DayFromYear y2.
Proof.
  intros Hlt.
  assert (Hgen : forall n : nat,
            DayFromYear y1 + 365 <= DayFromYear (y1 + 1 + Z.of_nat n)).
  { induction n as [|n IH].
    - rewrite Z.add_0_r. apply DayFromYear_step.
    - pose proof (DayFromYear_step (y1 + 1 + Z.of_nat n)) as Hs.
      replace (y1 + 1 + Z.of_nat (S n)) with (y1 + 1 + Z.of_nat n + 1) by lia.
      lia. }
  specialize (Hgen (Z.to_nat (y2 - y1 - 1))).
  replace (y1 + 1 + Z.of_nat (Z.to_nat (y2 - y1 - 1))) with y2 in Hgen by lia.
  exact Hgen.
Qed.

Lemma DaysBeforeMonth_cases (P : Z -> Prop) (m : Z) :
  0 <= m <= 11 ->
  P 0 -> P 1 -> P 2 -> P 3 -> P 4 -> P 5 -> P 6 -> P 7 -> P 8 -> P 9 ->
  P 10 -> P 11 -> P m.
Proof.
  intros Hm.
  assert (Hc : m = 0 \/ m = 1 \/ m = 2 \/ m = 3 \/ m = 4 \/ m = 5 \/ m = 6 \/
               m = 7 \/ m = 8 \/ m = 9 \/ m = 10 \/ m = 11) by lia.
  intuition (subst; assumption).
Qed.

Lemma DaysBeforeMonth_bound (leap : bool) (m : Z) :
  0 <= m <= 11 -> 0 <= DaysBeforeMonth leap m <= 335.
Proof.
  intros Hm. pattern m. apply DaysBeforeMonth_cases; [exact Hm|..];
    destruct leap; cbn; lia.
Qed.

Lemma DaysBeforeMonth_lt (leap : bool) (m1 m2 : Z) :
  0 <= m1 -> m1 < m2 -> m2 <= 11 ->
  DaysBeforeMonth leap m1 < DaysBeforeMonth leap m2.
Proof.
  intros H0 Hlt H11.
  assert (B1 : 0 <= m1 <= 11) by lia. assert (B2 : 0 <= m2 <= 11) by lia.
  revert Hlt.
  pattern m1. apply DaysBeforeMonth_cases; [exact B1|..];
    pattern m2; apply DaysBeforeMonth_cases; try exact B2;
    intros Hlt; try lia; destruct leap; cbn; lia.
Qed.

Lemma MakeDay_first (y m : Z) :
  0 <= m <= 11 ->
  MakeDay y m 1 = DayFromYear y + DaysBeforeMonth (InLeapYear y) m.
Proof.
  intros Hm. unfold MakeDay.
  rewrite Z.div_small, Z.mod_small by lia.
  rewrite Z.add_0_r. lia.
Qed.

Lemma DayFromYear_range (y : Z) :
  100 <= y <= 9999 -> -700000 <= DayFromYear y <= 3000000.
Proof.
  intros Hy. unfold DayFromYear. Z.to_euclidean_division_equations. lia.
Qed.

(** In the time zone UTC, for years 100 to 9999 and months 0 to 11 (an
    absent month counts as 0), an item whose key (year, month-or-0) comes
    first has the smaller time value: the comparator puts it last. *)
Lemma key_order_is_time_order (a c : ZoteroItem) (y1 m1 y2 m2 : Z) :
  sortKey a = Some (y1, m1) -> sortKey c = Some (y2, m2) ->
  100 <= y1 <= 9999 -> 100 <= y2 <= 9999 ->
  0 <= m1 <= 11 -> 0 <= m2 <= 11 ->
  keyBefore (y1, m1) (y2, m2) ->
  sortCompare byDate a c > 0 /\ sortCompare byDate c a < 0.
Proof.
  intros Ka Kc Hy1 Hy2 Hm1 Hm2 Hbefore.
  assert (Htime : forall i y m, sortKey i = Some (y, m) ->
            100 <= y <= 9999 -> 0 <= m <= 11 ->
            itemTime (date i)
            = Num ((DayFromYear y + DaysBeforeMonth (InLeapYear y) m) * msPerDay)).
  { intros i y m Hk Hy Hm. unfold sortKey in Hk. unfold itemTime, dateTime.
    destruct (year (date i)) as [[y'|]|]; try discriminate.
    destruct (orZero (month (date i))) as [[m'|]|]; try discriminate.
    inversion Hk; subst. cbn [ToNumber].
    unfold MakeFullYear.
    replace ((0 <=? y) && (y <=? 99)) with false
      by (symmetry; apply andb_false_iff; right; apply Z.leb_gt; lia).
    rewrite MakeDay_first by exact Hm. cbn [UTC utcHost]. unfold TimeClip.
    pose proof (DayFromYear_range y Hy).
    pose proof (DaysBeforeMonth_bound (InLeapYear y) m Hm).
    replace (Z.abs _ <=? 8640000000000000) with true; [reflexivity|].
    symmetry. apply Z.leb_le. unfold msPerDay. lia. }
  unfold sortCompare, byDate, compareDates.
  rewrite (Htime a y1 m1 Ka Hy1 Hm1), (Htime c y2 m2 Kc Hy2 Hm2).
  assert (Hdays : DayFromYear y1 + DaysBeforeMonth (InLeapYear y1) m1
                  < DayFromYear y2 + DaysBeforeMonth (InLeapYear y2) m2).
  { destruct Hbefore as [Hy | [Hy Hm]]; cbn [fst snd] in *.
    - pose proof (DayFromYear_next y1 y2 Hy).
      pose proof (DaysBeforeMonth_bound (InLeapYear y1) m1 Hm1).
      pose proof (DaysBeforeMonth_bound (InLeapYear y2) m2 Hm2). lia.
    - subst y2.
      pose proof (DaysBeforeMonth_lt (InLeapYear y1) m1 m2). lia. }
  unfold msPerDay. lia.
Qed.

(** ** Files written *)

Lemma filesWritten_app (t1 t2 : list Event) :
  filesWritten (t1 ++ t2) = filesWritten t1 ++ filesWritten t2.
Proof.
  induction t1 as [|ev t1 IH]; [reflexivity|].
  destruct ev; cbn [app filesWritten]; now rewrite IH.
Qed.

Lemma writesNothing_bind {A B} (m : Eff A) (f : A -> Eff B) :
  writesNothing m -> (forall a, writesNothing (f a)) -> writesNothing (bind m f).
Proof.
  unfold writesNothing. intros Hm Hf. rewrite trace_bind, filesWritten_app, Hm.
  destruct (outcome m); [apply Hf | reflexivity | reflexivity].
Qed.

Lemma writesNothing_quiet {A} (m : Eff A) : quiet m -> writesNothing m.
Proof. intros [Ht _]. unfold writesNothing. now rewrite Ht. Qed.

Lemma writesNothing_ret {A} (a : A) : writesNothing (ret a).
Proof. reflexivity. Qed.

Lemma writesNothing_mapM {A B} (f : A -> Eff B) (l : list A) :
  (forall x, writesNothing (f x)) -> writesNothing (mapM f l).
Proof.
  intros Hf. induction l as [|x l IH]; [reflexivity|].
  cbn [mapM]. apply writesNothing_bind; [apply Hf | intros y].
  apply writesNothing_bind; [exact IH | intros ys; reflexivity].
Qed.

Lemma writesNothing_fetch (world : World) (req : Request) :
  writesNothing (fetch world req).
Proof. reflexivity. Qed.

Lemma writesNothing_responseJson (r : Response) :
  writesNothing (responseJson r).
Proof. reflexivity. Qed.

Lemma getPubMedIdsFrom_writesNothing (fuel : nat) (world : World)
    (dois : list string) (batchSize : nat) :
  forall i records,
    writesNothing (getPubMedIdsFrom fuel world dois batchSize i records).
Proof.
  induction fuel as [|fuel IH]; intros i records; [reflexivity|].
  cbn [getPubMedIdsFrom]. destruct (i <? length dois)%nat; [|reflexivity].
  apply writesNothing_bind; [apply writesNothing_fetch | intros response].
  apply writesNothing_bind; [apply writesNothing_responseJson | intros data].
  apply writesNothing_bind; [|intros parsed; apply IH].
  apply writesNothing_quiet, quiet_ncbiIdConverterResponseSchema.
Qed.

Lemma formatJournalInfo_tame (meta : ZoteroItem) (rich : bool) :
  writesNothing (formatJournalInfo meta rich) /\
  outcome (formatJournalInfo meta rich) <> OutOfFuel.
Proof.
  unfold formatJournalInfo, writesNothing, assert.
  repeat match goal with
         | |- context [if ?c then _ else _] => destruct c
         end; split; first [reflexivity | discriminate].
Qed.

Lemma formatCitation_tame (i : ZoteroItem) :
  writesNothing (formatCitation i) /\ outcome (formatCitation i) <> OutOfFuel.
Proof.
  destruct (formatJournalInfo_tame i false) as [Hw Ho].
  unfold formatCitation, formatZoteroItem. split.
  - apply writesNothing_bind; [|intros f; reflexivity].
    apply writesNothing_bind; [exact Hw | intros p; reflexivity].
  - rewrite !outcome_bind.
    destruct (outcome (formatJournalInfo i false)); [discriminate.. | contradiction].
Qed.

Lemma csvRow_tame (pub : Enriched) :
  writesNothing (csvRow pub) /\ outcome (csvRow pub) <> OutOfFuel.
Proof.
  destruct (formatCitation_tame (item pub)) as [Hw Ho]. unfold csvRow. split.
  - apply writesNothing_bind; [exact Hw | intros c; reflexivity].
  - rewrite outcome_bind.
    destruct (outcome (formatCitation (item pub))); [discriminate.. | contradiction].
Qed.

Lemma mapM_not_OutOfFuel {A B} (f : A -> Eff B) (l : list A) :
  (forall x, outcome (f x) <> OutOfFuel) -> outcome (mapM f l) <> OutOfFuel.
Proof.
  intros Hf. induction l as [|x l IH]; [discriminate|].
  cbn [mapM]. apply bind_not_OutOfFuel; [apply Hf | intros y].
  apply bind_not_OutOfFuel; [exact IH | discriminate].
Qed.

Lemma toCsv_tame (pubs : list Enriched) :
  writesNothing (toCsv pubs) /\ outcome (toCsv pubs) <> OutOfFuel.
Proof.
  unfold toCsv. split.
  - apply writesNothing_bind.
    + apply writesNothing_mapM. intros p. apply csvRow_tame.
    + intros [|r rest]; reflexivity.
  - apply bind_not_OutOfFuel.
    + apply mapM_not_OutOfFuel. intros p. apply csvRow_tame.
    + intros [|r rest]; discriminate.
Qed.

Lemma filter_none {A} (f : A -> bool) (l : list A) :
  Forall (fun x => f x = false) l -> List.filter f l = [].
Proof.
  induction 1 as [|x l Hx Hl IH]; [reflexivity|].
  cbn [List.filter]. now rewrite Hx.
Qed.

Section Run.
Context `{host : Host}.

Lemma fetchPages_writesNothing (fuel : nat) (world : World)
    (groupId collectionId : string) :
  forall items start,
    writesNothing (fetchPages fuel world groupId collectionId items start).
Proof.
  induction fuel as [|fuel IH]; intros items start; [reflexivity|].
  cbn [fetchPages].
  apply writesNothing_bind; [apply writesNothing_fetch | intros response].
  apply writesNothing_bind; [apply writesNothing_responseJson | intros page].
  apply writesNothing_bind.
  - apply writesNothing_quiet, quiet_parsePage.
  - intros newItems. destruct (jsonLength page <? itemsPerPage)%nat;
      [reflexivity | apply IH].
Qed.

(** [main] is the three fetches followed by the export steps. *)
Lemma main_export (fuel : nat) (world : World) (args : list string)
    (pubs preprints : list ZoteroItem) (idMap : gmap string string)
    (t1 t2 t3 : list Event) :
  fetchZoteroCollection fuel world
    HIDIVE_GROUP_ID HIDIVE_PUBLICATIONS_COLLECTION_ID = (t1, Ok pubs) ->
  fetchZoteroCollection fuel world
    HIDIVE_GROUP_ID HIDIVE_PREPRINTS_COLLECTION_ID = (t2, Ok preprints) ->
  getPubMedIds fuel world (omap DOI (pubs ++ preprints)) 100 = (t3, Ok idMap) ->
  let steps := exportFiles (default "./hidive-papers" (head args))
                 (exported idMap (pubs ++ preprints)) in
  main fuel world args = (t1 ++ t2 ++ t3 ++ trace steps, outcome steps) /\
  filesWritten (t1 ++ t2 ++ t3) = [].
Proof.
  intros H1 H2 H3 steps. split.
  - unfold main. rewrite (bind_eq _ _ _ _ H1). cbn beta zeta.
    rewrite (bind_eq _ _ _ _ H2). cbn beta zeta. cbn [app].
    rewrite (bind_eq _ _ _ _ H3). cbn beta zeta. cbn [fst snd].
    reflexivity.
  - rewrite !filesWritten_app.
    pose proof (fetchPages_writesNothing fuel world HIDIVE_GROUP_ID
                  HIDIVE_PUBLICATIONS_COLLECTION_ID [] 0%nat) as W1.
    pose proof (fetchPages_writesNothing fuel world HIDIVE_GROUP_ID
                  HIDIVE_PREPRINTS_COLLECTION_ID [] 0%nat) as W2.
    pose proof (getPubMedIdsFrom_writesNothing fuel world
                  (omap DOI (pubs ++ preprints)) 100 0%nat ∅) as W3.
    unfold writesNothing, fetchZoteroCollection, getPubMedIds in *.
    rewrite H1 in W1. rewrite H2 in W2. rewrite H3 in W3.
    cbn [trace fst] in *. now rewrite W1, W2, W3.
Qed.

End Run.

Section EmptyPartition.
Context `{host : Host}.

Lemma exported_partition (idMap : gmap string string) (items : list ZoteroItem)
    (f : Enriched -> bool) :
  Forall (fun i => f (withPubMedId idMap i) = false) items ->
  List.filter f (exported idMap items) = [].
Proof.
  intros Hall. apply filter_none. unfold exported.
  apply Forall_map.
  apply (Permutation_Forall (Permutation_sym (toSorted_Permutation byDate items))).
  exact Hall.
Qed.

(** C10.  [toCsv] of the empty list throws, since it reads the columns off
    the first row.  So a run whose items include no preprint aborts at the
    export of [preprints.csv], which is never written, after [papers.json]
    and (when its rows format) [pubs.csv]; and a run whose items are all
    preprints aborts at [pubs.csv] with only [papers.json] written. *)
Theorem empty_partition_aborts_export (fuel : nat) (world : World)
    (args : list string) (pubs preprints : list ZoteroItem)
    (idMap : gmap string string) (t1 t2 t3 : list Event) :
  fetchZoteroCollection fuel world
    HIDIVE_GROUP_ID HIDIVE_PUBLICATIONS_COLLECTION_ID = (t1, Ok pubs) ->
  fetchZoteroCollection fuel world
    HIDIVE_GROUP_ID HIDIVE_PREPRINTS_COLLECTION_ID = (t2, Ok preprints) ->
  getPubMedIds fuel world (omap DOI (pubs ++ preprints)) 100 = (t3, Ok idMap) ->
  let items := pubs ++ preprints in
  let result := main fuel world args in
  toCsv [] = ([], Throw noRowError) /\
  (Forall (fun i => itemType i <> "preprint") items ->
     (exists e, outcome result = Throw e) /\
     ~ In "preprints.csv" (filesWritten (trace result)) /\
     (forall t table,
         toCsv (List.filter (fun p => negb (isPreprint p)) (exported idMap items))
           = (t, Ok table) ->
         outcome result = Throw noRowError /\
         filesWritten (trace result) = ["papers.json"; "pubs.csv"])) /\
  (Forall (fun i => itemType i = "preprint") items ->
     outcome result = Throw noRowError /\
     filesWritten (trace result) = ["papers.json"]).
Proof.
  intros H1 H2 H3 items result.
  destruct (main_export fuel world args pubs preprints idMap t1 t2 t3 H1 H2 H3)
    as [Hmain Hquiet].
  fold items in Hmain.
  set (outDir := default "./hidive-papers" (head args)) in *.
  assert (Htrace : filesWritten (trace result)
                   = filesWritten (trace (exportFiles outDir (exported idMap items)))).
  { unfold result. rewrite Hmain. cbn [trace fst].
    rewrite !app_assoc, filesWritten_app, <- !app_assoc, Hquiet. reflexivity. }
  assert (Hout : outcome result
                 = outcome (exportFiles outDir (exported idMap items))).
  { unfold result. now rewrite Hmain. }
  rewrite Htrace, Hout. clear Htrace Hout Hmain.
  split; [reflexivity|]. split.
  - intros Hnone.
    assert (Hpre : List.filter isPreprint (exported idMap items) = []).
    { apply exported_partition. eapply List.Forall_impl; [|exact Hnone].
      intros i Hi. unfold isPreprint, withPubMedId. cbn [item].
      now apply String.eqb_neq. }
    unfold exportFiles. rewrite Hpre.
    destruct (toCsv_tame (List.filter (fun p => negb (isPreprint p))
                            (exported idMap items))) as [Hw Ho].
    unfold writesNothing in Hw.
    destruct (toCsv _) as [tp [table | e |]] eqn:Ep in Hw, Ho |- *;
      cbn [trace outcome fst snd] in Hw, Ho.
    + rewrite !trace_bind, !outcome_bind. cbn [trace outcome fst snd emit ret app].
      cbn [filesWritten]. rewrite filesWritten_app, Hw.
      split; [eexists; reflexivity|]. split.
      * cbn. intuition discriminate.
      * intros t table' Heq. split; reflexivity.
    + rewrite !trace_bind, !outcome_bind. cbn [trace outcome fst snd emit ret app].
      cbn [filesWritten]. rewrite filesWritten_app, Hw.
      split; [eexists; reflexivity|]. split.
      * cbn. intuition discriminate.
      * intros t table' Heq. discriminate.
    + contradiction.
  - intros Hall.
    assert (Hpub : List.filter (fun p => negb (isPreprint p)) (exported idMap items) = []).
    { apply exported_partition. eapply List.Forall_impl; [|exact Hall].
      intros i Hi. unfold isPreprint, withPubMedId. cbn [item].
      rewrite Hi. reflexivity. }
    unfold exportFiles. rewrite Hpub. split; reflexivity.
Qed.

End EmptyPartition.

Lemma empty_partition_aborts_export_witness :
  let world := sampleWorld [rawArticle] [] in
  fetchZoteroCollection 2 world
    HIDIVE_GROUP_ID HIDIVE_PUBLICATIONS_COLLECTION_ID
    = ([publicationsRequest 0], Ok articleItems) /\
  fetchZoteroCollection 2 world
    HIDIVE_GROUP_ID HIDIVE_PREPRINTS_COLLECTION_ID
    = ([preprintsRequest 0], Ok []) /\
  getPubMedIds 2 world (omap DOI (articleItems ++ [])) 100 = ([], Ok ∅) /\
  Forall (fun i => itemType i <> "preprint") (articleItems ++ []) /\
  outcome (main 2 world []) = Throw noRowError /\
  filesWritten (trace (main 2 world [])) = ["papers.json"; "pubs.csv"].
Proof.
  cbv zeta.
  assert (H1 : fetchZoteroCollection 2 (sampleWorld [rawArticle] [])
                 HIDIVE_GROUP_ID HIDIVE_PUBLICATIONS_COLLECTION_ID
               = ([publicationsRequest 0], Ok articleItems))
    by (vm_compute; reflexivity).
  assert (H2 : fetchZoteroCollection 2 (sampleWorld [rawArticle] [])
                 HIDIVE_GROUP_ID HIDIVE_PREPRINTS_COLLECTION_ID
               = ([preprintsRequest 0], Ok []))
    by (vm_compute; reflexivity).
  assert (H3 : getPubMedIds 2 (sampleWorld [rawArticle] [])
                 (omap DOI (articleItems ++ [])) 100 = ([], Ok ∅))
    by reflexivity.
  assert (Hnone : Forall (fun i : ZoteroItem => itemType i <> "preprint")
                    (articleItems ++ []))
    by (repeat constructor; discriminate).
  split; [exact H1|]. split; [exact H2|]. split; [exact H3|].
  split; [exact Hnone|].
  refine (proj2 (proj2 (proj1 (proj2
    (empty_partition_aborts_export 2 (sampleWorld [rawArticle] []) []
       articleItems [] ∅ _ _ _ H1 H2 H3)) Hnone)) _ _ _).
  vm_compute. reflexivity.
Defined.

(** ** Overlapping collections *)

(** C1, the divergence.  The last revision never compares the keys of the
    two collections.  With the preprint PRE00001 in both of them the run
    completes: it makes the two page requests, writes the three files, and
    exports PRE00001 twice, in [papers.json] and in [preprints.csv]. *)
Theorem overlap_goes_unnoticed :
  serves overlappingWorld "5145258" "YGTEVG73" [rawArticle; rawPreprint] /\
  serves overlappingWorld "5145258" "AJKTPNSI" [rawPreprint] /\
  map rawKey [rawArticle; rawPreprint] = [Some "ART00001"; Some "PRE00001"] /\
  map rawKey [rawPreprint] = [Some "PRE00001"] /\
  outcome (main 2 overlappingWorld []) = Ok tt /\
  filesWritten (trace (main 2 overlappingWorld []))
    = ["papers.json"; "pubs.csv"; "preprints.csv"] /\
  exists (all : list Enriched) (pubsCsv preprintsCsv : CsvTable),
    trace (main 2 overlappingWorld [])
    = [ HttpGet (pageRequest "5145258" "YGTEVG73" 0 100);
        HttpGet (pageRequest "5145258" "AJKTPNSI" 0 100);
        EnsureDir "./hidive-papers";
        WriteTextFile "./hidive-papers" "papers.json" (JsonText all);
        WriteTextFile "./hidive-papers" "pubs.csv" (CsvText pubsCsv);
        WriteTextFile "./hidive-papers" "preprints.csv" (CsvText preprintsCsv) ] /\
    map (fun p => key (item p)) all = ["PRE00001"; "PRE00001"; "ART00001"] /\
    length (rows pubsCsv) = 1%nat /\
    length (rows preprintsCsv) = 2%nat.
Proof.
  split; [intros start limit; eexists; split; reflexivity|].
  split; [intros start limit; eexists; split; reflexivity|].
  split; [reflexivity|]. split; [reflexivity|].
  split; [vm_compute; reflexivity|]. split; [vm_compute; reflexivity|].
  eexists _, _, _. split; [vm_compute; reflexivity|].
  split; [|split]; reflexivity.
Qed.

(** ** Sets of keys *)

Lemma has_In (ids : list string) (id : string) :
  KeyListing.has ids id = true <-> In id ids.
Proof.
  unfold KeyListing.has. rewrite existsb_exists. split.
  - intros (x & Hx & He). apply String.eqb_eq in He. now subst.
  - intros Hin. exists id. split; [exact Hin | apply String.eqb_refl].
Qed.

Lemma intersection_In (a c : list string) (k : string) :
  In k (KeyListing.intersection a c) <-> In k a /\ In k c.
Proof.
  unfold KeyListing.intersection. rewrite filter_In, has_In. tauto.
Qed.

Lemma intersection_size (a c : list string) :
  (length (KeyListing.intersection a c) =? 0)%nat = true
  <-> forall k, In k a -> ~ In k c.
Proof.
  rewrite Nat.eqb_eq. split.
  - intros Hlen k Ha Hc.
    assert (Hin : In k (KeyListing.intersection a c)) by now apply intersection_In.
    destruct (KeyListing.intersection a c); [contradiction | discriminate].
  - intros Hdisj. destruct (KeyListing.intersection a c) as [|k rest] eqn:E;
      [reflexivity|].
    assert (Hin : In k (KeyListing.intersection a c)) by (rewrite E; now left).
    apply intersection_In in Hin. destruct Hin as [Ha Hc].
    exfalso. exact (Hdisj k Ha Hc).
Qed.


(** * Further properties of the code

    ** The date of a record *)

Lemma mapM_length {A B} (f : A -> Eff B) (l : list A) t ys :
  mapM f l = (t, Ok ys) -> length ys = length l.
Proof.
  revert t ys. induction l as [|x l IH]; intros t ys Hm.
  - inversion Hm. reflexivity.
  - cbn [mapM] in Hm.
    apply bind_Ok in Hm. destruct Hm as (t1 & y & t2 & _ & Hm & _).
    apply bind_Ok in Hm. destruct Hm as (t3 & ys' & t4 & Hys & Hm & _).
    inversion Hm; subst. cbn [length]. f_equal. exact (IH _ _ Hys).
Qed.

Lemma quiet_outcome {A} (m : Eff A) :
  quiet m -> (exists a, m = ([], Ok a)) \/ (exists e, m = ([], Throw e)).
Proof.
  intros [Ht Ho]. destruct m as [t [a | e |]]; cbn in *; subst.
  - left. now exists a.
  - right. now exists e.
  - contradiction.
Qed.

Section IssuedDate.
Context `{host : Host}.

Lemma zDatePart_partNumber (p : Json) (n : number) :
  zDatePart p = ([], Ok n) <-> partNumber p = Some n.
Proof.
  destruct p; cbn; split; intros Heq; inversion Heq; reflexivity.
Qed.

Lemma mapM_zDatePart (parts : list Json) :
  Forall (fun p => is_Some (partNumber p)) parts ->
  exists nums, mapM zDatePart parts = ([], Ok nums) /\
               forall k, nth_error nums k = nth_error parts k ≫= partNumber.
Proof.
  induction 1 as [|p parts [n Hn] _ (nums & Hm & Hk)].
  - exists []. split; [reflexivity|]. intros [|k]; reflexivity.
  - exists (n :: nums). split.
    + cbn [mapM]. rewrite (bind_pure _ _ n), (bind_pure _ _ _ Hm); [reflexivity|].
      now apply zDatePart_partNumber.
    + intros [|k]; cbn; [now rewrite Hn | apply Hk].
Qed.

Lemma mapM_zDatePart_fails (parts : list Json) :
  Exists (fun p => partNumber p = None) parts ->
  exists e, mapM zDatePart parts = ([], Throw e).
Proof.
  induction 1 as [p parts Hp | p parts _ (e & He)].
  - destruct p; try discriminate; cbn; eauto.
  - cbn [mapM]. destruct (partNumber p) as [n|] eqn:En.
    + rewrite (bind_pure _ _ n) by now apply zDatePart_partNumber.
      rewrite He. cbn. eauto.
    + destruct p; try discriminate; cbn; eauto.
Qed.

(** X1.  The schema accepts the issued date of a record exactly when
    [date-parts] holds one range of numbers and strings.  The year, the
    month and the day are then [Number] of the parts 0, 1 and 2; a part
    that is missing leaves its field undefined (an empty range is accepted
    and gives no year) and parts beyond the third are ignored.  No range,
    or more than one, is rejected. *)
Theorem issued_takes_one_range (f : list (string * Json)) (ranges : list Json) :
  assoc "date-parts" f = Some (JArr ranges) ->
  (forall parts, ranges = [JArr parts] ->
     Forall (fun p => is_Some (partNumber p)) parts ->
     zIssued (Some (JObj f)) = ([], Ok (dateOfParts parts))) /\
  (forall parts, ranges = [JArr parts] ->
     Exists (fun p => partNumber p = None) parts ->
     exists e, zIssued (Some (JObj f)) = ([], Throw e)) /\
  (length ranges <> 1%nat ->
     exists e, zIssued (Some (JObj f)) = ([], Throw e)) /\
  (ranges = [] ->
     zIssued (Some (JObj f)) = ([], Throw (ZodError "Too many dates"))).
Proof.
  intros Hf. unfold zIssued. rewrite Hf.
  split; [|split; [|split]].
  - intros parts -> Hparts.
    destruct (mapM_zDatePart parts Hparts) as (nums & Hm & Hk).
    cbn [mapM zDateRange]. rewrite (bind_pure _ _ _ Hm).
    cbn [mapM bind ret app]. unfold dateOfParts. now rewrite <- !Hk.
  - intros parts -> Hparts.
    destruct (mapM_zDatePart_fails parts Hparts) as (e & He).
    cbn [mapM zDateRange]. rewrite He. cbn. eauto.
  - intros Hlen.
    assert (Hq : quiet (mapM zDateRange ranges)).
    { apply quiet_mapM. intros r. unfold zDateRange.
      destruct r; try apply quiet_throw.
      apply quiet_mapM. intros p. unfold zDatePart.
      destruct p; first [apply quiet_ret | apply quiet_throw]. }
    destruct (quiet_outcome _ Hq) as [[value Hv] | [e He]].
    + pose proof (mapM_length _ _ _ _ Hv) as Hl. rewrite Hv. cbn.
      destruct value as [|parts [|]]; cbn in Hl; eauto. congruence.
    + rewrite He. cbn. eauto.
  - intros ->. reflexivity.
Qed.

End IssuedDate.

Lemma issued_takes_one_range_witness :
  assoc "date-parts" [("date-parts", JArr [JArr [JNum 2023; JStr "5"]])]
    = Some (JArr [JArr [JNum 2023; JStr "5"]]) /\
  zIssued (Some (JObj [("date-parts", JArr [JArr [JNum 2023; JStr "5"]])]))
    = ([], Ok {| year := Some (Num 2023); month := Some (Num 5); day := None |}).
Proof.
  split; [reflexivity|].
  refine (proj1 (issued_takes_one_range
                   [("date-parts", JArr [JArr [JNum 2023; JStr "5"]])]
                   [JArr [JNum 2023; JStr "5"]] eq_refl)
            [JNum 2023; JStr "5"] eq_refl _).
  repeat constructor; eexists; reflexivity.
Defined.

(** ** An item without year *)

Section Undated.
Context `{host : Host}.

(** X2.  An item whose date has no year (the schema lets an empty date
    range through) has no time value: the comparator of the export returns
    [NaN] for it against every item, in both directions, so the comparator
    is not consistent and the standard leaves the place of the item to the
    engine.  Its citation, when it formats, ends with the year shown as
    "undefined". *)
Theorem undated_item_ties (a : ZoteroItem) :
  year (date a) = None ->
  itemTime (date a) = NaN /\
  (forall c, byDate a c = NaN /\ byDate c a = NaN) /\
  (forall t s, formatCitation a = (t, Ok s) ->
     exists before, s = before +:+ " (undefined).").
Proof.
  intros Hy.
  assert (Htime : itemTime (date a) = NaN).
  { unfold itemTime, dateTime. rewrite Hy. reflexivity. }
  split; [exact Htime|]. split.
  - intros c. unfold byDate, compareDates. rewrite Htime. split.
    + destruct (itemTime (date c)); reflexivity.
    + reflexivity.
  - intros t s Hc. unfold formatCitation, formatZoteroItem in Hc.
    apply bind_Ok in Hc. destruct Hc as (t1 & f & t2 & Hf & Hc & _).
    apply bind_Ok in Hf. destruct Hf as (t3 & published & t4 & _ & Hf & _).
    inversion Hf; subst f; clear Hf. inversion Hc; subst s; clear Hc.
    cbn [f_authors f_title f_published f_year]. rewrite Hy.
    exists (formatAuthors (creators a) false +:+ ", " +:+ quote +:+ title a
            +:+ quote +:+ ", " +:+ published).
    rewrite !append_assoc. reflexivity.
Qed.

End Undated.

Lemma undated_item_ties_witness :
  year (date undatedItem) = None /\
  byDate undatedItem natureArticle = NaN /\
  byDate natureArticle undatedItem = NaN /\
  exists before,
    outcome (formatCitation undatedItem) = Ok (before +:+ " (undefined).").
Proof.
  split; [reflexivity|].
  destruct (undated_item_ties undatedItem eq_refl) as (_ & Hties & Hcite).
  split; [apply Hties|]. split; [apply Hties|].
  destruct (Hcite _ _ eq_refl) as [before Hb].
  exists before. cbn [outcome snd formatCitation]. now rewrite <- Hb.
Defined.

(** ** Creators *)

Lemma zCreatorType_role (f : list (string * Json)) (s : string) :
  assoc "creatorType" f = Some (JStr s) ->
  zCreatorType (assoc "creatorType" f) =
    match creatorRole s with
    | Some t => ([], Ok t)
    | None => ([], Throw (ZodError "creatorType"))
    end.
Proof.
  intros ->. unfold zCreatorType, creatorRole.
  destruct (String.eqb s "author"); [reflexivity|].
  destruct (String.eqb s "editor"); reflexivity.
Qed.

(** X3.  A raw creator is read as an organization as soon as it has a
    string [name], also when first and last names are given.  Without such
    a name it must have string first and last names, and is read as a
    person; when one of the two is missing or no string it is rejected.  A
    [creatorType] other than "author" and "editor" is rejected.  A creator
    tagged "editor", organization or person, never shows in the author
    string. *)
Theorem creator_shapes (f : list (string * Json)) (s : string) :
  assoc "creatorType" f = Some (JStr s) ->
  (forall t n, creatorRole s = Some t -> assoc "name" f = Some (JStr n) ->
     zCreator (JObj f) = ([], Ok (Org t n))) /\
  (forall t first last, creatorRole s = Some t ->
     (forall n, assoc "name" f <> Some (JStr n)) ->
     assoc "firstName" f = Some (JStr first) ->
     assoc "lastName" f = Some (JStr last) ->
     zCreator (JObj f) = ([], Ok (Person t first last))) /\
  ((forall n, assoc "name" f <> Some (JStr n)) ->
   (forall first, assoc "firstName" f <> Some (JStr first)) \/
   (forall last, assoc "lastName" f <> Some (JStr last)) ->
   exists e, zCreator (JObj f) = ([], Throw e)) /\
  (creatorRole s = None -> exists e, zCreator (JObj f) = ([], Throw e)) /\
  (forall name before after rich,
     formatAuthors (before ++ Org editor name :: after) rich
     = formatAuthors (before ++ after) rich) /\
  (forall first last before after rich,
     formatAuthors (before ++ Person editor first last :: after) rich
     = formatAuthors (before ++ after) rich).
Proof.
  intros Hs. pose proof (zCreatorType_role f s Hs) as Hrole.
  split; [|split; [|split; [|split; [|split]]]].
  - intros t n Ht Hn. unfold zCreator. rewrite Hrole, Ht, Hn. reflexivity.
  - intros t first last Ht Hname Hfirst Hlast.
    unfold zCreator. rewrite Hrole, Ht, Hfirst, Hlast.
    destruct (assoc "name" f) as [[| | |n| |]|]; try reflexivity.
    exfalso. now apply (Hname n).
  - intros Hname Hmissing. unfold zCreator. rewrite Hrole.
    destruct (creatorRole s) as [t|]; [|cbn; eauto].
    rewrite (bind_pure _ _ t eq_refl).
    assert (Hperson : exists e,
              (let* firstName := zString "firstName" (assoc "firstName" f) in
               let* lastName := zString "lastName" (assoc "lastName" f) in
               ret (Person t firstName lastName)) = ([], Throw e)).
    { destruct Hmissing as [Hfirst | Hlast].
      - destruct (assoc "firstName" f) as [[| | |first| |]|]; cbn; eauto.
        exfalso. now apply (Hfirst first).
      - destruct (assoc "firstName" f) as [[| | |first| |]|]; cbn; eauto.
        destruct (assoc "lastName" f) as [[| | |last| |]|]; cbn; eauto.
        exfalso. now apply (Hlast last). }
    destruct (assoc "name" f) as [[| | |n| |]|]; try exact Hperson.
    exfalso. now apply (Hname n).
  - intros Hnone. unfold zCreator. rewrite Hrole, Hnone.
    destruct (assoc "name" f) as [[| | | | |]|]; cbn; eauto.
  - intros name before after rich. unfold formatAuthors.
    rewrite !List.filter_app. reflexivity.
  - intros first last before after rich. unfold formatAuthors.
    rewrite !List.filter_app. reflexivity.
Qed.

Lemma creator_shapes_witness :
  let f := [ ("creatorType", JStr "author"); ("name", JStr "HuBMAP Consortium");
             ("firstName", JStr "Hu"); ("lastName", JStr "Bmap") ] in
  assoc "creatorType" f = Some (JStr "author") /\
  zCreator (JObj f) = ([], Ok (Org author "HuBMAP Consortium")).
Proof.
  cbv zeta. split; [reflexivity|].
  exact (proj1 (creator_shapes
                  [ ("creatorType", JStr "author");
                    ("name", JStr "HuBMAP Consortium");
                    ("firstName", JStr "Hu"); ("lastName", JStr "Bmap") ]
                  "author" eq_refl)
           author "HuBMAP Consortium" eq_refl eq_refl).
Defined.

(** ** The venues besides journals and preprints *)

(** X4.  In the default rendering of a normalized item: a thesis is shown
    as "Thesis" whatever its fields; a conference paper without
    publication title is shown by its proceedings title; a book section
    that has neither by its book title followed by " (Book)"; a report
    that has none of the three by its institution, followed by a space and
    the pages when there are pages. *)
Theorem other_venues (meta : ZoteroItem) :
  normalized meta ->
  (itemType meta = "thesis" ->
     formatJournalInfo meta false = ([], Ok "Thesis")) /\
  (itemType meta = "conferencePaper" -> publicationTitle meta = None ->
     forall t, proceedingsTitle meta = Some t ->
     formatJournalInfo meta false = ([], Ok t)) /\
  (itemType meta = "bookSection" -> publicationTitle meta = None ->
     proceedingsTitle meta = None ->
     forall t, bookTitle meta = Some t ->
     formatJournalInfo meta false = ([], Ok (t +:+ " (Book)"))) /\
  (itemType meta = "report" -> publicationTitle meta = None ->
     proceedingsTitle meta = None -> bookTitle meta = None ->
     forall t, institution meta = Some t ->
     formatJournalInfo meta false =
       ([], Ok (t +:+ match pages meta with
                      | Some p => " " +:+ p
                      | None => ""
                      end))).
Proof.
  intros Hn. apply normalized_fields in Hn.
  destruct Hn as (Hinst & Hbook & Hproc & Hpub & _ & _ & Hpg & _).
  split; [|split; [|split]].
  - intros Hty. unfold formatJournalInfo. now rewrite Hty.
  - intros Hty Hp t Ht. unfold formatJournalInfo.
    rewrite Hty, (truthy_Some _ Hpub), (truthy_Some _ Hproc), Hp, Ht.
    reflexivity.
  - intros Hty Hp Hpr t Ht. unfold formatJournalInfo.
    rewrite Hty, (truthy_Some _ Hpub), (truthy_Some _ Hproc),
      (truthy_Some _ Hbook), Hp, Hpr, Ht.
    reflexivity.
  - intros Hty Hp Hpr Hb t Ht. unfold formatJournalInfo.
    rewrite Hty, (truthy_Some _ Hpub), (truthy_Some _ Hproc),
      (truthy_Some _ Hbook), (truthy_Some _ Hinst), (truthy_Some _ Hpg),
      Hp, Hpr, Hb, Ht.
    destruct (pages meta); reflexivity.
Qed.

Lemma other_venues_witness :
  normalized reportItem /\
  formatJournalInfo reportItem false = ([], Ok "Harvard Medical School 12").
Proof.
  assert (Hn : normalized reportItem) by (repeat constructor; discriminate).
  split; [exact Hn|].
  exact (proj2 (proj2 (proj2 (other_venues reportItem Hn)))
           eq_refl eq_refl eq_refl eq_refl "Harvard Medical School" eq_refl).
Defined.

(** ** The rich rendering *)

(** X5.  The [rich] option changes the text only: with and without it
    [formatJournalInfo] logs the same diagnostics and ends the same way
    (a value in both cases, or the same error), and a person is rendered
    the same.  In the rich rendering the publication title of a journal
    article is set between "*" and its volume between "**"; an
    organization is set between "*". *)
Theorem rich_is_cosmetic (meta : ZoteroItem) :
  trace (formatJournalInfo meta true) = trace (formatJournalInfo meta false) /\
  sameKind (outcome (formatJournalInfo meta true))
           (outcome (formatJournalInfo meta false)) /\
  (forall t first last,
     formatAuthor true (Person t first last)
     = formatAuthor false (Person t first last)) /\
  (forall t name, formatAuthor true (Org t name) = "*" +:+ name +:+ "*") /\
  (normalized meta -> itemType meta = "journalArticle" ->
   forall t, publicationTitle meta = Some t ->
     formatJournalInfo meta true =
       ([], Ok (journalVenueRich t (volume meta) (issue meta) (pages meta)))).
Proof.
  split; [|split; [|split; [|split]]].
  - unfold formatJournalInfo, assert.
    repeat match goal with
           | |- context [if ?c then _ else _] => destruct c
           end; reflexivity.
  - unfold formatJournalInfo, assert.
    repeat match goal with
           | |- context [if ?c then _ else _] => destruct c
           end; cbn; auto.
  - reflexivity.
  - reflexivity.
  - intros Hn Hty t Ht. apply normalized_fields in Hn.
    destruct Hn as (_ & _ & _ & Hpub & Hvol & Hiss & Hpg & _).
    unfold formatJournalInfo. rewrite Hty.
    rewrite (truthy_Some _ Hpub), (truthy_Some _ Hvol),
      (truthy_Some _ Hiss), (truthy_Some _ Hpg).
    rewrite Ht. unfold journalVenueRich.
    destruct (volume meta) as [v|], (issue meta) as [i|], (pages meta) as [p|];
      cbn -[String.append]; unfold it, b;
      rewrite ?append_assoc, ?append_nil_r; reflexivity.
Qed.

(** ** The validation of a page *)

Lemma notNote_cases (j : Json) :
  (hasData j = true /\ notNote j = ([], Ok (negb (isNoteB j)))) \/
  (hasData j = false /\ exists msg, notNote j = ([], Throw (TypeError msg))).
Proof.
  unfold hasData, notNote, isNoteB.
  destruct j as [| | | | |f]; try (right; split; [reflexivity | eexists; reflexivity]).
  destruct (assoc "data" f) as [[| | | | |data]|];
    try (right; split; [reflexivity | eexists; reflexivity]);
    try (left; split; reflexivity).
  destruct (assoc "itemType" data) as [[| | | | |]|]; left; split; reflexivity.
Qed.

Lemma filterM_notNote_Ok (l : list Json) (kept : list Json) :
  filterM notNote l = ([], Ok kept) <->
  Forall (fun r => hasData r = true) l /\
  kept = List.filter (fun r => negb (isNoteB r)) l.
Proof.
  revert kept. induction l as [|r l IH]; intros kept.
  - cbn. split.
    + intros Heq. inversion Heq. split; [constructor | reflexivity].
    + intros [_ ->]. reflexivity.
  - cbn [filterM List.filter]. split.
    + intros Hf. apply bind_pure_Ok in Hf. destruct Hf as (keep & Hk & Hf).
      apply bind_pure_Ok in Hf. destruct Hf as (kept' & Hl & Hf).
      inversion Hf; subst; clear Hf. apply IH in Hl. destruct Hl as [Hall ->].
      destruct (notNote_cases r) as [[Hd Hr] | [_ [msg Hr]]]; [|congruence].
      rewrite Hr in Hk. inversion Hk; subst.
      split; [now constructor | reflexivity].
    + intros [Hall ->]. inversion Hall as [|? ? Hd Hl]; subst.
      destruct (notNote_cases r) as [[_ Hr] | [Hno _]]; [|congruence].
      rewrite (bind_pure _ _ _ Hr).
      rewrite (bind_pure _ _ (List.filter (fun r => negb (isNoteB r)) l)).
      * reflexivity.
      * apply IH. now split.
Qed.

Lemma filterM_notNote_throws (l : list Json) :
  Exists (fun r => hasData r = false) l ->
  exists msg, filterM notNote l = ([], Throw (TypeError msg)).
Proof.
  induction 1 as [r l Hr | r l _ [msg IH]]; cbn [filterM].
  - destruct (notNote_cases r) as [[Hd _] | [_ [msg Hbad]]]; [congruence|].
    exists msg. now rewrite Hbad.
  - destruct (notNote_cases r) as [[_ Hok] | [_ [msg' Hbad]]].
    + exists msg. rewrite (bind_pure _ _ _ Hok), IH. reflexivity.
    + exists msg'. now rewrite Hbad.
Qed.

Lemma mapM_Forall2 {A B} (f : A -> Eff B) (l : list A) (ys : list B) :
  mapM f l = ([], Ok ys) <-> Forall2 (fun x y => f x = ([], Ok y)) l ys.
Proof.
  revert ys. induction l as [|x l IH]; intros ys.
  - cbn. split.
    + intros Heq. inversion Heq. constructor.
    + intros Hall. inversion Hall. reflexivity.
  - cbn [mapM]. split.
    + intros Hm. apply bind_pure_Ok in Hm. destruct Hm as (y & Hy & Hm).
      apply bind_pure_Ok in Hm. destruct Hm as (ys' & Hys & Hm).
      inversion Hm; subst. constructor; [exact Hy | now apply IH].
    + intros Hall. inversion Hall as [|? y ? ys' Hy Hys]; subst.
      apply IH in Hys. now rewrite (bind_pure _ _ _ Hy), (bind_pure _ _ _ Hys).
Qed.

Lemma Forall2_In_left {A B} (R : A -> B -> Prop) (l : list A) (ys : list B) (x : A) :
  Forall2 R l ys -> In x l -> exists y, In y ys /\ R x y.
Proof.
  induction 1 as [|a y l ys Ha _ IH]; intros Hin; [contradiction|].
  destruct Hin as [-> | Hin].
  - exists y. split; [now left | exact Ha].
  - destruct (IH Hin) as (y' & Hy & HR). exists y'. split; [now right | exact HR].
Qed.

Section PageValidation.
Context `{host : Host}.

(** X6.  A page yields items exactly when every record has a [data] to
    read (it is an object whose [data] is neither missing nor null) and
    every record that is no note passes the schema; the items are then
    those of the records that are no notes, in order, and a note is left
    out without being validated.  One record that is no note and fails the
    schema makes the whole page throw, and so does one record without
    [data], with a [TypeError] raised by the filter. *)
Theorem page_validation (l : list Json) :
  (forall items,
     parsePage (JArr l) = ([], Ok items) <->
     Forall (fun r => hasData r = true) l /\
     Forall2 (fun r i => zoteroItemSchema r = ([], Ok i))
             (List.filter (fun r => negb (isNoteB r)) l) items) /\
  (forall r, In r l -> isNoteB r = false ->
     (exists e, zoteroItemSchema r = ([], Throw e)) ->
     exists e, parsePage (JArr l) = ([], Throw e)) /\
  (forall r, In r l -> hasData r = false ->
     exists msg, parsePage (JArr l) = ([], Throw (TypeError msg))).
Proof.
  assert (Hiff : forall items,
     parsePage (JArr l) = ([], Ok items) <->
     Forall (fun r => hasData r = true) l /\
     Forall2 (fun r i => zoteroItemSchema r = ([], Ok i))
             (List.filter (fun r => negb (isNoteB r)) l) items).
  { intros items. unfold parsePage. split.
    - intros Hp. apply bind_pure_Ok in Hp. destruct Hp as (kept & Hk & Hm).
      apply filterM_notNote_Ok in Hk. destruct Hk as [Hall ->].
      split; [exact Hall | now apply mapM_Forall2].
    - intros [Hall Hitems].
      rewrite (bind_pure _ _ (List.filter (fun r => negb (isNoteB r)) l)).
      + now apply mapM_Forall2.
      + now apply filterM_notNote_Ok. }
  split; [exact Hiff|]. split.
  - intros r Hin Hnote [e He].
    destruct (quiet_outcome _ (quiet_parsePage (JArr l))) as [[items Hi] | Hthrow];
      [|exact Hthrow].
    exfalso. apply Hiff in Hi. destruct Hi as [_ Hitems].
    assert (Hk : In r (List.filter (fun r => negb (isNoteB r)) l)).
    { apply filter_In. split; [exact Hin | cbn; now rewrite Hnote]. }
    destruct (Forall2_In_left _ _ _ r Hitems Hk) as (i & _ & Hri).
    congruence.
  - intros r Hin Hbad. unfold parsePage.
    destruct (filterM_notNote_throws l) as [msg Hmsg].
    { apply List.Exists_exists. now exists r. }
    exists msg. now rewrite Hmsg.
Qed.

End PageValidation.

(** ** A fetch that fails, a fetch that never ends *)

Lemma requestsFrom_cons (groupId collectionId : string) (start n : nat) :
  requestsFrom groupId collectionId start (S n)
  = HttpGet (collectionRequest groupId collectionId start)
    :: requestsFrom groupId collectionId (start + itemsPerPage) n.
Proof.
  unfold requestsFrom. symmetry.
  apply (offsets_shift (fun s => HttpGet (collectionRequest groupId collectionId s))).
Qed.

Lemma requestsFrom_snoc (groupId collectionId : string) (start n : nat) :
  requestsFrom groupId collectionId start (S n)
  = requestsFrom groupId collectionId start n
    ++ [HttpGet (collectionRequest groupId collectionId (start + n * itemsPerPage))].
Proof. unfold requestsFrom. now rewrite seq_S, map_app. Qed.

Section FetchFailure.
Context `{host : Host}.
Variables (world : World) (groupId collectionId : string).

Lemma fetchPages_answered (fuel : nat) (acc : list ZoteroItem) (start : nat)
    (r : Response) (page : Json) :
  world (collectionRequest groupId collectionId start) = Ok r ->
  json r = Ok page ->
  fetchPages (S fuel) world groupId collectionId acc start =
  let next :=
    let* newItems := parsePage page in
    if (jsonLength page <? itemsPerPage)%nat then ret (acc ++ newItems)
    else fetchPages fuel world groupId collectionId (acc ++ newItems)
           (start + itemsPerPage)%nat in
  (HttpGet (collectionRequest groupId collectionId start) :: trace next,
   outcome next).
Proof.
  intros Hr Hj. cbn [fetchPages]. unfold fetch, responseJson. rewrite Hr.
  rewrite (bind_eq _ _ _ r eq_refl). cbn beta. rewrite Hj.
  rewrite (bind_pure _ _ _ eq_refl). reflexivity.
Qed.

Lemma fetchPages_full (ps : list (list Json * list ZoteroItem)) :
  forall (fuel : nat) (acc : list ZoteroItem) (start : nat),
    fullPages world groupId collectionId start ps ->
    let rest := fetchPages fuel world groupId collectionId
                  (acc ++ flat_map snd ps)
                  (start + length ps * itemsPerPage) in
    fetchPages (length ps + fuel) world groupId collectionId acc start
    = (requestsFrom groupId collectionId start (length ps) ++ trace rest,
       outcome rest).
Proof.
  induction ps as [|[page items] ps IH]; intros fuel acc start Hfull rest.
  - subst rest. cbn [length flat_map Nat.add Nat.mul]. rewrite app_nil_r, Nat.add_0_r.
    destruct (fetchPages fuel world groupId collectionId acc start). reflexivity.
  - destruct Hfull as ((r & Hr & Hj) & Hlen & Hparse & Hrest).
    cbn [length Nat.add]. rewrite (fetchPages_answered _ _ _ r (JArr page) Hr Hj).
    cbv zeta. rewrite (bind_pure _ _ _ Hparse). cbn [jsonLength].
    destruct (Nat.ltb_spec (length page) itemsPerPage) as [Hlt | _]; [lia|].
    rewrite (IH fuel (acc ++ items) (start + itemsPerPage)%nat Hrest).
    cbn [trace outcome fst snd]. rewrite requestsFrom_cons.
    subst rest. cbn [flat_map snd length].
    rewrite <- app_assoc.
    replace (start + itemsPerPage + length ps * itemsPerPage)%nat
      with (start + S (length ps) * itemsPerPage)%nat by lia.
    reflexivity.
Qed.

(** X7.  When the service has answered some full pages and then fails, or
    sends a page that the validation rejects, [fetchZoteroCollection]
    throws that error after the request that failed: the items of the
    pages fetched before are not returned. *)
Theorem fetch_failure_loses_pages (ps : list (list Json * list ZoteroItem))
    (fuel : nat) (e : Error) :
  fullPages world groupId collectionId 0 ps ->
  let failing := collectionRequest groupId collectionId (length ps * itemsPerPage) in
  let requests := requestsFrom groupId collectionId 0 (S (length ps)) in
  (world failing = Throw e ->
     fetchZoteroCollection (length ps + S fuel) world groupId collectionId
     = (requests, Throw e)) /\
  (forall r page, world failing = Ok r -> json r = Ok page ->
     parsePage page = ([], Throw e) ->
     fetchZoteroCollection (length ps + S fuel) world groupId collectionId
     = (requests, Throw e)) /\
  (forall r, world failing = Ok r -> json r = Throw e ->
     fetchZoteroCollection (length ps + S fuel) world groupId collectionId
     = (requests, Throw e)).
Proof.
  intros Hfull failing requests.
  pose proof (fetchPages_full ps (S fuel) [] 0%nat Hfull) as Hrun.
  cbv zeta in Hrun. cbn [Nat.add app] in Hrun.
  unfold fetchZoteroCollection. rewrite Hrun. clear Hrun.
  subst requests. rewrite requestsFrom_snoc. cbn [Nat.add].
  split; [|split].
  - intros Hw. cbn [fetchPages]. unfold fetch. fold failing. rewrite Hw.
    reflexivity.
  - intros r page Hw Hj Hp.
    rewrite (fetchPages_answered _ _ _ r page Hw Hj). cbv zeta.
    rewrite Hp. reflexivity.
  - intros r Hw Hj. cbn [fetchPages]. unfold fetch, responseJson.
    fold failing. rewrite Hw. rewrite (bind_eq _ _ _ r eq_refl). cbn beta.
    rewrite Hj. reflexivity.
Qed.

(** X8.  When the service answers every request, whatever its offset, with
    the same full page that passes the validation, the loop of
    [fetchZoteroCollection] never ends: whatever the bound on the number of
    turns, the bound is reached, with one request made per turn. *)
Theorem fetch_never_ends (page : list Json) (items : list ZoteroItem) :
  (forall start, exists r,
     world (collectionRequest groupId collectionId start) = Ok r /\
     json r = Ok (JArr page)) ->
  (itemsPerPage <= length page)%nat ->
  parsePage (JArr page) = ([], Ok items) ->
  forall fuel,
    fetchZoteroCollection fuel world groupId collectionId
    = (requestsFrom groupId collectionId 0 fuel, OutOfFuel).
Proof.
  intros Hw Hlen Hparse fuel. unfold fetchZoteroCollection.
  generalize (@nil ZoteroItem) as acc. generalize 0%nat as start.
  induction fuel as [|fuel IH]; intros start acc; [reflexivity|].
  destruct (Hw start) as (r & Hr & Hj).
  rewrite (fetchPages_answered _ _ _ r (JArr page) Hr Hj). cbv zeta.
  rewrite (bind_pure _ _ _ Hparse). cbn [jsonLength].
  destruct (Nat.ltb_spec (length page) itemsPerPage) as [Hlt | _]; [lia|].
  rewrite IH, requestsFrom_cons. reflexivity.
Qed.

End FetchFailure.

Lemma fetch_failure_loses_pages_witness :
  fullPages failingWorld HIDIVE_GROUP_ID HIDIVE_PUBLICATIONS_COLLECTION_ID 0
    [(repeat rawArticle 100, hundredItems)] /\
  failingWorld (collectionRequest HIDIVE_GROUP_ID
                  HIDIVE_PUBLICATIONS_COLLECTION_ID 100) = Throw NetworkError /\
  fetchZoteroCollection 3 failingWorld
    HIDIVE_GROUP_ID HIDIVE_PUBLICATIONS_COLLECTION_ID
  = ([publicationsRequest 0; publicationsRequest 100], Throw NetworkError).
Proof.
  assert (Hfull : fullPages failingWorld HIDIVE_GROUP_ID
                    HIDIVE_PUBLICATIONS_COLLECTION_ID 0
                    [(repeat rawArticle 100, hundredItems)]).
  { split; [eexists; split; reflexivity|].
    split; [vm_compute; lia|].
    split; [vm_compute; reflexivity | exact I]. }
  split; [exact Hfull|]. split; [reflexivity|].
  exact (proj1 (fetch_failure_loses_pages failingWorld HIDIVE_GROUP_ID
                  HIDIVE_PUBLICATIONS_COLLECTION_ID
                  [(repeat rawArticle 100, hundredItems)] 1%nat NetworkError Hfull)
           eq_refl).
Defined.

Lemma fetch_never_ends_witness :
  (forall start, exists r,
     stuckWorld (collectionRequest HIDIVE_GROUP_ID
                   HIDIVE_PUBLICATIONS_COLLECTION_ID start) = Ok r /\
     json r = Ok (JArr (repeat rawArticle 100))) /\
  (itemsPerPage <= length (repeat rawArticle 100))%nat /\
  parsePage (JArr (repeat rawArticle 100)) = ([], Ok hundredItems) /\
  fetchZoteroCollection 3 stuckWorld
    HIDIVE_GROUP_ID HIDIVE_PUBLICATIONS_COLLECTION_ID
  = ([publicationsRequest 0; publicationsRequest 100; publicationsRequest 200],
     OutOfFuel).
Proof.
  assert (Hw : forall start, exists r,
     stuckWorld (collectionRequest HIDIVE_GROUP_ID
                   HIDIVE_PUBLICATIONS_COLLECTION_ID start) = Ok r /\
     json r = Ok (JArr (repeat rawArticle 100)))
    by (intros start; eexists; split; reflexivity).
  assert (Hlen : (itemsPerPage <= length (repeat rawArticle 100))%nat)
    by (vm_compute; lia).
  assert (Hparse : parsePage (JArr (repeat rawArticle 100)) = ([], Ok hundredItems))
    by (vm_compute; reflexivity).
  split; [exact Hw|]. split; [exact Hlen|]. split; [exact Hparse|].
  exact (fetch_never_ends stuckWorld HIDIVE_GROUP_ID
           HIDIVE_PUBLICATIONS_COLLECTION_ID _ _ Hw Hlen Hparse 3%nat).
Defined.

(** ** More on the identifier lookups *)

Lemma fold_addRecord_unresolved (records : list NcbiRecord) :
  forall (m : gmap string string) (d : string),
    (forall r p, In r records -> ~ resolved r d p) ->
    fold_left addRecord records m !! d = m !! d.
Proof.
  induction records as [|r records IH]; intros m d Hnone; [reflexivity|].
  cbn [fold_left]. rewrite IH by (intros r' p Hin; apply Hnone; now right).
  rewrite addRecord_lookup.
  destruct (rec_pmid r) as [q|] eqn:Eq; [|reflexivity].
  destruct (truthy (Some q)) eqn:Et; [|reflexivity].
  destruct (String.eqb_spec (doi r) d) as [Hd | Hne]; [|reflexivity].
  exfalso. apply (Hnone r q); [now left|].
  split; [exact Hd|]. split; [exact Eq|]. intros ->. discriminate.
Qed.

Lemma fold_addRecord_last (before after : list NcbiRecord) (record : NcbiRecord)
    (m : gmap string string) (d p : string) :
  resolved record d p ->
  (forall r p', In r after -> ~ resolved r d p') ->
  fold_left addRecord (before ++ record :: after) m !! d = Some p.
Proof.
  intros (Hd & Hp & Hne) Hafter.
  rewrite fold_left_app. cbn [fold_left].
  rewrite fold_addRecord_unresolved by exact Hafter.
  rewrite addRecord_lookup, Hp, Hd, String.eqb_refl. cbn [truthy].
  destruct (String.eqb_spec p ""); [contradiction | reflexivity].
Qed.

(** X9.  When the responses report a DOI more than once with a PubMed
    identifier, the map holds the identifier of the last such record (in
    the order of the batches, then of the records of a response). *)
Theorem later_record_wins (world : World) (dois : list string)
    (responses : list (list NcbiRecord)) (fuel : nat)
    (before after : list NcbiRecord) (record : NcbiRecord) (d p : string) :
  Forall2 (answered world) (batches dois) responses ->
  (length dois < fuel)%nat ->
  concat responses = before ++ record :: after ->
  resolved record d p ->
  (forall r p', In r after -> ~ resolved r d p') ->
  exists m : gmap string string,
    outcome (getPubMedIds fuel world dois 100) = Ok m /\ m !! d = Some p.
Proof.
  intros Hans Hfuel Hsplit Hres Hafter.
  exists (fold_left addRecord (concat responses) ∅). split.
  - unfold getPubMedIds.
    rewrite (getPubMedIdsFrom_batches world dois fuel 0 ∅ responses).
    + reflexivity.
    + rewrite Nat.sub_0_r. exact Hans.
    + lia.
  - rewrite Hsplit. now apply fold_addRecord_last.
Qed.

Lemma later_record_wins_witness :
  let first := {| doi := "10.1000/a"; rec_pmid := Some "31000001" |} in
  let second := {| doi := "10.1000/a"; rec_pmid := Some "31000002" |} in
  Forall2 (answered twiceWorld) (batches ["10.1000/a"]) [[first; second]] /\
  (length ["10.1000/a"] < 2)%nat /\
  resolved second "10.1000/a" "31000002" /\
  exists m : gmap string string,
    outcome (getPubMedIds 2 twiceWorld ["10.1000/a"] 100) = Ok m /\
    m !! "10.1000/a" = Some "31000002".
Proof.
  cbv zeta.
  assert (Hans : Forall2 (answered twiceWorld) (batches ["10.1000/a"])
            [[ {| doi := "10.1000/a"; rec_pmid := Some "31000001" |};
               {| doi := "10.1000/a"; rec_pmid := Some "31000002" |} ]]).
  { constructor; [|constructor]. eexists _, _.
    split; [reflexivity|]. split; reflexivity. }
  assert (Hfuel : (length ["10.1000/a"] < 2)%nat) by (cbn; lia).
  assert (Hres : resolved {| doi := "10.1000/a"; rec_pmid := Some "31000002" |}
                   "10.1000/a" "31000002")
    by (split; [reflexivity | split; [reflexivity | discriminate]]).
  split; [exact Hans|]. split; [exact Hfuel|]. split; [exact Hres|].
  apply (later_record_wins twiceWorld ["10.1000/a"] _ 2%nat
           [ {| doi := "10.1000/a"; rec_pmid := Some "31000001" |} ] []
           _ _ _ Hans Hfuel eq_refl Hres).
  intros r p' [].
Defined.

Section ResolverFailure.
Variables (world : World) (dois : list string).

Lemma getPubMedIdsFrom_prefix (responses : list (list NcbiRecord)) :
  forall (fuel i : nat) (records : gmap string string),
    Forall2 (answered world)
      (map (fun k => firstn 100 (skipn (i + k * itemsPerPage) dois))
           (seq 0 (length responses)))
      responses ->
    (i + length responses * 100 <= length dois + 99)%nat ->
    let rest := getPubMedIdsFrom fuel world dois 100
                  (i + length responses * 100)
                  (fold_left addRecord (concat responses) records) in
    getPubMedIdsFrom (length responses + fuel) world dois 100 i records
    = (map (fun k => HttpGet (idconvRequest
                                (firstn 100 (skipn (i + k * itemsPerPage) dois))))
           (seq 0 (length responses)) ++ trace rest,
       outcome rest).
Proof.
  induction responses as [|recs responses IH]; intros fuel i records Hans Hlen rest.
  - subst rest. cbn [length seq map app Nat.mul Nat.add concat fold_left].
    rewrite Nat.add_0_r. destruct (getPubMedIdsFrom _ _ _ _ _ _). reflexivity.
  - cbn [length] in *.
    rewrite <- (offsets_shift (fun s => firstn 100 (skipn s dois))) in Hans.
    rewrite <- (offsets_shift
                  (fun s => HttpGet (idconvRequest (firstn 100 (skipn s dois))))).
    inversion Hans as [|batch recs' rest' responses' Hfirst Hrest]; subst; clear Hans.
    destruct Hfirst as (r & j & Hr & Hj & Hparse).
    rewrite <- idconvRequest_lookup in Hr.
    cbn [Nat.add getPubMedIdsFrom].
    destruct (Nat.ltb_spec i (length dois)) as [Hlt | Hge]; [|lia].
    assert (Hslice : slice dois i (i + 100) = firstn 100 (skipn i dois)).
    { unfold slice. f_equal. lia. }
    rewrite Hslice. unfold fetch, responseJson. rewrite Hr.
    rewrite (bind_eq _ _ _ r eq_refl). cbn beta. rewrite Hj.
    rewrite (bind_pure _ _ _ eq_refl), (bind_pure _ _ _ Hparse).
    rewrite (IH fuel (i + 100)%nat _ Hrest) by (unfold itemsPerPage in *; lia).
    subst rest. cbn [fst snd trace outcome concat app].
    rewrite fold_left_app.
    replace (i + 100 + length responses * 100)%nat
      with (i + S (length responses) * 100)%nat by lia.
    reflexivity.
Qed.

(** X10.  When the first batches are answered and the request for the
    next batch fails (the service fails, the body is no JSON, or the schema
    rejects it), [getPubMedIds] throws that error after this request: the
    identifiers resolved by the batches before are not returned. *)
Theorem failing_batch_loses_identifiers (responses : list (list NcbiRecord))
    (fuel : nat) (e : Error) :
  let k := length responses in
  Forall2 (answered world) (map (batchAt dois) (seq 0 k)) responses ->
  (k * 100 < length dois)%nat ->
  batchFails world (batchAt dois k) e ->
  getPubMedIds (k + S fuel) world dois 100
  = (batchRequests dois (S k), Throw e).
Proof.
  intros k Hans Hk Hfail.
  pose proof (getPubMedIdsFrom_prefix responses (S fuel) 0 ∅) as Hrun.
  cbv zeta in Hrun. cbn [Nat.add] in Hrun.
  unfold getPubMedIds. fold k in Hrun. rewrite Hrun; [|exact Hans | lia].
  clear Hrun. unfold batchRequests. rewrite seq_S, map_app. cbn [map Nat.add].
  cbn [getPubMedIdsFrom].
  destruct (Nat.ltb_spec (k * 100) (length dois)) as [_ | Hge]; [|lia].
  assert (Hslice : slice dois (k * 100) (k * 100 + 100) = batchAt dois k).
  { unfold slice, batchAt. f_equal. lia. }
  rewrite Hslice. unfold fetch, responseJson.
  destruct Hfail as [Hw | [(r & Hw & Hj) | (r & j & Hw & Hj & Hs)]]; rewrite Hw.
  - reflexivity.
  - rewrite (bind_eq _ _ _ r eq_refl). cbn beta. rewrite Hj. reflexivity.
  - rewrite (bind_eq _ _ _ r eq_refl). cbn beta. rewrite Hj.
    rewrite (bind_pure _ _ _ eq_refl), Hs. reflexivity.
Qed.

(** X11.  With a batch size of 0 and a DOI list that is not empty the loop
    of [getPubMedIds] makes no progress: as long as the service answers the
    request for no DOI, the same request is made again, whatever the bound
    on the number of turns. *)
Theorem zero_batch_size_never_ends (records : list NcbiRecord) :
  dois <> [] ->
  answered world [] records ->
  forall fuel,
    getPubMedIds fuel world dois 0
    = (repeat (HttpGet (idconvRequest [])) fuel, OutOfFuel).
Proof.
  intros Hne (r & j & Hr & Hj & Hparse) fuel. unfold getPubMedIds.
  rewrite <- idconvRequest_lookup in Hr.
  generalize (∅ : gmap string string) as m.
  induction fuel as [|fuel IH]; intros m; [reflexivity|].
  cbn [getPubMedIdsFrom repeat].
  destruct (Nat.ltb_spec 0 (length dois)) as [_ | Hge];
    [|destruct dois; [contradiction | cbn in Hge; lia]].
  assert (Hslice : slice dois 0 (0 + 0) = []) by reflexivity.
  rewrite Hslice. unfold fetch, responseJson. rewrite Hr.
  rewrite (bind_eq _ _ _ r eq_refl). cbn beta. rewrite Hj.
  rewrite (bind_pure _ _ _ eq_refl), (bind_pure _ _ _ Hparse).
  cbn [Nat.add]. rewrite IH. reflexivity.
Qed.

End ResolverFailure.

Lemma failing_batch_loses_identifiers_witness :
  (1 * 100 < length manyDois)%nat /\
  getPubMedIds 2 singleDoiWorld manyDois 100
  = (batchRequests manyDois 2, Throw NetworkError).
Proof.
  split; [vm_compute; lia|].
  apply (failing_batch_loses_identifiers singleDoiWorld manyDois [[]] 0%nat
           NetworkError).
  - constructor; [|constructor]. eexists _, _.
    split; [vm_compute; reflexivity|]. split; reflexivity.
  - vm_compute. lia.
  - left. vm_compute. reflexivity.
Defined.

Lemma zero_batch_size_never_ends_witness :
  ["10.1000/a"] <> [] /\
  forall fuel,
    getPubMedIds fuel twiceWorld ["10.1000/a"] 0
    = (repeat (HttpGet (idconvRequest [])) fuel, OutOfFuel).
Proof.
  split; [discriminate|].
  apply (zero_batch_size_never_ends twiceWorld ["10.1000/a"]
           [ {| doi := "10.1000/a"; rec_pmid := Some "31000001" |};
             {| doi := "10.1000/a"; rec_pmid := Some "31000002" |} ]).
  - discriminate.
  - eexists _, _. split; [reflexivity|]. split; reflexivity.
Defined.

(** ** The tables and a completed run *)

Lemma mapM_outcome_Forall2 {A B} (f : A -> Eff B) (l : list A) (ys : list B) :
  outcome (mapM f l) = Ok ys <-> Forall2 (fun x y => outcome (f x) = Ok y) l ys.
Proof.
  revert ys. induction l as [|x l IH]; intros ys.
  - cbn. split.
    + intros Heq. inversion Heq. constructor.
    + intros Hall. inversion Hall. reflexivity.
  - cbn [mapM]. rewrite outcome_bind. split.
    + intros Hm. destruct (outcome (f x)) as [y | e |] eqn:Ey; try discriminate.
      rewrite outcome_bind in Hm.
      destruct (outcome (mapM f l)) as [ys' | e |] eqn:Eys; try discriminate.
      cbn in Hm. inversion Hm; subst. constructor; [exact Ey | now apply IH].
    + intros Hall. inversion Hall as [|? y ? ys' Hy Hys]; subst.
      rewrite Hy, outcome_bind. apply IH in Hys. now rewrite Hys.
Qed.

Lemma mapM_outcome_Throw {A B} (f : A -> Eff B) (before after : list A) (x : A)
    (e : Error) :
  Forall (fun a => exists y, outcome (f a) = Ok y) before ->
  outcome (f x) = Throw e ->
  outcome (mapM f (before ++ x :: after)) = Throw e.
Proof.
  intros Hbefore Hx. induction Hbefore as [|a before [y Hy] _ IH].
  - cbn [app mapM]. rewrite outcome_bind, Hx. reflexivity.
  - cbn [app mapM]. rewrite outcome_bind, Hy, outcome_bind, IH. reflexivity.
Qed.

Lemma csvRow_rowFor (pub : Enriched) (row : CsvRow) :
  outcome (csvRow pub) = Ok row <-> rowFor pub row.
Proof.
  unfold csvRow, rowFor. rewrite outcome_bind. split.
  - destruct (outcome (formatCitation (item pub))) as [s | e |]; try discriminate.
    cbn. intros Heq. inversion Heq; subst. cbn. tauto.
  - intros (Hm & Hy & Hp & Hd & Hc). rewrite Hc. cbn.
    destruct row; cbn in *; subst. reflexivity.
Qed.

Lemma toCsv_rows (pubs : list Enriched) (table : CsvTable) :
  outcome (toCsv pubs) = Ok table ->
  pubs <> [] /\
  columns table = ["Month"; "Year"; "Citation"; "PubMed ID"; "DOI"] /\
  Forall2 rowFor pubs (rows table).
Proof.
  unfold toCsv. rewrite outcome_bind.
  destruct (outcome (mapM csvRow pubs)) as [rs | e |] eqn:Em; try discriminate.
  apply mapM_outcome_Forall2 in Em.
  destruct rs as [|r rs]; [discriminate|]. cbn. intros Heq. inversion Heq; subst.
  cbn [columns rows]. split; [|split; [reflexivity|]].
  - intros ->. inversion Em.
  - eapply Forall2_impl; [exact Em|]. intros p row. apply csvRow_rowFor.
Qed.

(** X12.  A table of [toCsv] has the five columns Month, Year, Citation,
    PubMed ID and DOI, in this order, and one row per item, in the order of
    the items, with the month, year, identifier and DOI of the item and its
    citation; the list of items is not empty.  The first item
    whose citation cannot be formatted makes [toCsv] throw that error, and
    no table is made of the others; a list that is not empty and whose
    citations all format gives a table. *)
Theorem csv_table_follows_items (pubs : list Enriched) :
  (forall table,
      outcome (toCsv pubs) = Ok table ->
      pubs <> [] /\
      columns table = ["Month"; "Year"; "Citation"; "PubMed ID"; "DOI"] /\
      Forall2 rowFor pubs (rows table)) /\
  (forall before pub after e,
      pubs = before ++ pub :: after ->
      Forall formats before ->
      outcome (formatCitation (item pub)) = Throw e ->
      outcome (toCsv pubs) = Throw e) /\
  (pubs <> [] -> Forall formats pubs ->
   exists table, outcome (toCsv pubs) = Ok table).
Proof.
  split; [|split].
  - intros table. apply toCsv_rows.
  - intros before pub after e -> Hbefore Hpub.
    unfold toCsv. rewrite outcome_bind.
    rewrite (mapM_outcome_Throw csvRow before after pub e); [reflexivity | |].
    + eapply List.Forall_impl; [|exact Hbefore].
      intros p [s Hs]. unfold csvRow. rewrite outcome_bind, Hs. cbn. eauto.
    + unfold csvRow. rewrite outcome_bind, Hpub. reflexivity.
  - intros Hne Hall.
    assert (Hrows : exists rs, Forall2 (fun p r => outcome (csvRow p) = Ok r) pubs rs).
    { clear Hne. induction Hall as [|p pubs [s Hs] _ [rs IH]].
      - exists []. constructor.
      - eexists (_ :: rs). constructor; [|exact IH].
        unfold csvRow. rewrite outcome_bind, Hs. reflexivity. }
    destruct Hrows as [rs Hrs]. pose proof Hrs as Hlen.
    apply mapM_outcome_Forall2 in Hrs.
    unfold toCsv. rewrite outcome_bind, Hrs.
    destruct rs as [|r rs]; [inversion Hlen; subst; contradiction|].
    eexists. reflexivity.
Qed.

Lemma filter_partition_length {A} (f : A -> bool) (l : list A) :
  (length (List.filter (fun x => negb (f x)) l) + length (List.filter f l)
   = length l)%nat.
Proof.
  induction l as [|x l IH]; [reflexivity|].
  cbn [List.filter]. destruct (f x); cbn [negb length]; lia.
Qed.

Section CompletedRun.
Context `{host : Host}.


End CompletedRun.


(** ** The order of the exported items *)

Lemma StronglySorted_filter' {A} (R : A -> A -> Prop) (f : A -> bool) (l : list A) :
  StronglySorted R l -> StronglySorted R (List.filter f l).
Proof.
  induction 1 as [|x l Hs IH Hx]; [constructor|].
  cbn [List.filter]. destruct (f x); [|exact IH].
  constructor; [exact IH|].
  apply List.Forall_forall. intros y Hy. apply List.filter_In in Hy.
  rewrite List.Forall_forall in Hx. now apply Hx.
Qed.

Lemma StronglySorted_weaken {A} (R R' : A -> A -> Prop) (P : A -> Prop) (l : list A) :
  (forall a c, P a -> P c -> R a c -> R' a c) ->
  Forall P l -> StronglySorted R l -> StronglySorted R' l.
Proof.
  intros Himp HP Hs. induction Hs as [|x l Hs IH Hx]; [constructor|].
  inversion HP as [|? ? Px Pl]; subst.
  constructor; [now apply IH|].
  rewrite List.Forall_forall in Hx, Pl |- *.
  intros y Hy. apply Himp; auto.
Qed.

Lemma filter_map_comm {A B} (g : A -> B) (f : B -> bool) (l : list A) :
  List.filter f (map g l) = map g (List.filter (fun x => f (g x)) l).
Proof.
  induction l as [|x l IH]; [reflexivity|].
  cbn [map List.filter]. destruct (f (g x)); cbn [map]; now rewrite IH.
Qed.

Section NewestFirst.
Context `{host : Host}.

(** X14.  When the date of every item has a time value, the exported
    list, and with it each of the two tables, is in descending order of the
    time value, and items of the same time value keep the order in which
    they were fetched (publications before preprints). *)
Theorem exports_newest_first (idMap : gmap string string)
    (items : list ZoteroItem) :
  Forall (fun i => itemTime (date i) <> NaN) items ->
  let all := exported idMap items in
  let newerFirst := fun a c : Enriched => timeOf (item c) <= timeOf (item a) in
  StronglySorted newerFirst all /\
  StronglySorted newerFirst (List.filter (fun p => negb (isPreprint p)) all) /\
  StronglySorted newerFirst (List.filter isPreprint all) /\
  (forall t, List.filter (fun p => timeOf (item p) =? t) all
             = map (withPubMedId idMap)
                   (List.filter (fun i => timeOf i =? t) items)).
Proof.
  intros Hvalid all newerFirst.
  destruct (export_order items Hvalid) as (_ & Hsorted & Hstable).
  assert (Hall : StronglySorted newerFirst all).
  { unfold all, exported, newerFirst. clear Hstable.
    induction Hsorted as [|x l Hs IH Hx]; [constructor|].
    cbn [map]. constructor; [exact IH|].
    apply Forall_map. exact Hx. }
  split; [exact Hall|].
  split; [now apply StronglySorted_filter'|].
  split; [now apply StronglySorted_filter'|].
  intros t. unfold all, exported.
  rewrite filter_map_comm. cbn [item withPubMedId]. now rewrite Hstable.
Qed.

End NewestFirst.

Lemma exports_newest_first_witness :
  let items := [dated "A" 2023 (Some 5); dated "B" 2023 None; dated "C" 2024 (Some 1)] in
  Forall (fun i => itemTime (date i) <> NaN) items /\
  StronglySorted (fun a c : Enriched => timeOf (item c) <= timeOf (item a))
    (exported ∅ items).
Proof.
  cbv zeta.
  assert (Hvalid : Forall (fun i => itemTime (date i) <> NaN)
            [dated "A" 2023 (Some 5); dated "B" 2023 None; dated "C" 2024 (Some 1)])
    by (repeat constructor; discriminate).
  split; [exact Hvalid|].
  exact (proj1 (exports_newest_first ∅ _ Hvalid)).
Defined.

(** *** In UTC, by year and month *)

Lemma itemTime_of_key (i : ZoteroItem) (y m : Z) :
  sortKey i = Some (y, m) -> 100 <= y <= 9999 -> 0 <= m <= 11 ->
  itemTime (date i) = Num (keyTime y m).
Proof.
  intros Hk Hy Hm. unfold sortKey in Hk. unfold itemTime, dateTime, keyTime.
  destruct (year (date i)) as [[y'|]|]; try discriminate.
  destruct (orZero (month (date i))) as [[m'|]|]; try discriminate.
  inversion Hk; subst. cbn [ToNumber].
  unfold MakeFullYear.
  replace ((0 <=? y) && (y <=? 99)) with false
    by (symmetry; apply andb_false_iff; right; apply Z.leb_gt; lia).
  rewrite MakeDay_first by exact Hm. cbn [UTC utcHost]. unfold TimeClip.
  pose proof (DayFromYear_range y Hy).
  pose proof (DaysBeforeMonth_bound (InLeapYear y) m Hm).
  replace (Z.abs _ <=? 8640000000000000) with true; [reflexivity|].
  symmetry. apply Z.leb_le. unfold msPerDay. lia.
Qed.

Lemma keyTime_lt (y1 m1 y2 m2 : Z) :
  100 <= y1 <= 9999 -> 100 <= y2 <= 9999 -> 0 <= m1 <= 11 -> 0 <= m2 <= 11 ->
  keyBefore (y1, m1) (y2, m2) -> keyTime y1 m1 < keyTime y2 m2.
Proof.
  intros Hy1 Hy2 Hm1 Hm2 Hbefore.
  assert (K1 : sortKey (dated "" y1 (Some m1)) = Some (y1, m1)) by reflexivity.
  assert (K2 : sortKey (dated "" y2 (Some m2)) = Some (y2, m2)) by reflexivity.
  destruct (key_order_is_time_order _ _ _ _ _ _ K1 K2 Hy1 Hy2 Hm1 Hm2 Hbefore)
    as [Hgt _].
  unfold sortCompare, byDate, compareDates in Hgt.
  rewrite (itemTime_of_key _ _ _ K1 Hy1 Hm1) in Hgt.
  rewrite (itemTime_of_key _ _ _ K2 Hy2 Hm2) in Hgt. lia.
Qed.

Lemma plainKey_time (i : ZoteroItem) (y m : Z) :
  sortKey i = Some (y, m) -> 100 <= y <= 9999 -> 0 <= m <= 11 ->
  timeOf i = keyTime y m /\ itemTime (date i) <> NaN.
Proof.
  intros Hk Hy Hm. unfold timeOf.
  rewrite (itemTime_of_key i y m Hk Hy Hm). split; [reflexivity | discriminate].
Qed.

(** X15.  In the time zone UTC, when every item has a year from 100 to
    9999 and a month index from 0 to 11 (an absent month counts as 0), the
    export order is descending by the key (year, month): no item comes
    before an item of a later key, and the items of one key keep their
    input order. *)
Theorem export_follows_key (items : list ZoteroItem) :
  Forall plainKey items ->
  let sorted := toSorted byDate items in
  Permutation sorted items /\
  StronglySorted keyNotAfter sorted /\
  (forall k, List.filter (hasKey k) sorted = List.filter (hasKey k) items).
Proof.
  intros Hplain sorted.
  assert (Hvalid : Forall (fun i => itemTime (date i) <> NaN) items).
  { eapply List.Forall_impl; [|exact Hplain].
    intros i (y & m & Hk & Hy & Hm). now apply (plainKey_time i y m). }
  destruct (export_order items Hvalid) as (Hperm & Hsorted & Hstable).
  fold sorted in Hperm, Hsorted, Hstable.
  assert (Hplain' : Forall plainKey sorted)
    by (apply (Permutation_Forall (Permutation_sym Hperm)); exact Hplain).
  split; [exact Hperm|]. split.
  - apply (StronglySorted_weaken _ _ plainKey sorted) with (3 := Hsorted);
      [|exact Hplain'].
    intros a c (y1 & m1 & Ka & Hy1 & Hm1) (y2 & m2 & Kc & Hy2 & Hm2) Hle ka kc Ha Hc.
    rewrite Ka in Ha. rewrite Kc in Hc. inversion Ha; inversion Hc; subst.
    intros Hbefore.
    pose proof (keyTime_lt _ _ _ _ Hy1 Hy2 Hm1 Hm2 Hbefore) as Hlt.
    destruct (plainKey_time a y1 m1 Ka Hy1 Hm1) as [Ta _].
    destruct (plainKey_time c y2 m2 Kc Hy2 Hm2) as [Tc _]. lia.
  - intros [y m].
    assert (Hkey : forall l, Forall plainKey l ->
              (100 <= y <= 9999 /\ 0 <= m <= 11) ->
              List.filter (hasKey (y, m)) l
              = List.filter (fun i => timeOf i =? keyTime y m) l).
    { intros l Hl [Hy Hm]. apply List.filter_ext_in. intros i Hi.
      rewrite List.Forall_forall in Hl.
      destruct (Hl i Hi) as (y' & m' & Hk & Hy' & Hm').
      destruct (plainKey_time i y' m' Hk Hy' Hm') as [Ti _].
      unfold hasKey. rewrite Hk, Ti. cbn [fst snd].
      destruct (Z.eqb_spec y' y) as [-> | Hne].
      - destruct (Z.eqb_spec m' m) as [-> | Hnm]; cbn [andb].
        + symmetry. apply Z.eqb_refl.
        + symmetry. apply Z.eqb_neq. intros Heq.
          destruct (Z.lt_total m' m) as [Hlt | [? | Hlt]]; [|contradiction|].
          * pose proof (keyTime_lt y m' y m Hy Hy Hm' Hm
                          (or_intror (conj eq_refl Hlt))). lia.
          * pose proof (keyTime_lt y m y m' Hy Hy Hm Hm'
                          (or_intror (conj eq_refl Hlt))). lia.
      - cbn [andb]. symmetry. apply Z.eqb_neq. intros Heq.
        destruct (Z.lt_total y' y) as [Hlt | [? | Hlt]]; [|contradiction|].
        + pose proof (keyTime_lt y' m' y m Hy' Hy Hm' Hm (or_introl Hlt)). lia.
        + pose proof (keyTime_lt y m y' m' Hy Hy' Hm Hm' (or_introl Hlt)). lia. }
    assert (Hout : forall l, Forall plainKey l ->
              ~ (100 <= y <= 9999 /\ 0 <= m <= 11) ->
              List.filter (hasKey (y, m)) l = []).
    { intros l Hl Hno. apply filter_none.
      eapply List.Forall_impl; [|exact Hl].
      intros i (y' & m' & Hk & Hy' & Hm'). unfold hasKey. rewrite Hk. cbn [fst snd].
      destruct (Z.eqb_spec y' y) as [-> | Hne]; [|reflexivity].
      destruct (Z.eqb_spec m' m) as [-> | Hnm]; [|reflexivity].
      exfalso. apply Hno. split; assumption. }
    destruct (Z_le_dec 100 y) as [L1|]; [|rewrite !Hout by (assumption || lia); reflexivity].
    destruct (Z_le_dec y 9999) as [L2|]; [|rewrite !Hout by (assumption || lia); reflexivity].
    destruct (Z_le_dec 0 m) as [L3|]; [|rewrite !Hout by (assumption || lia); reflexivity].
    destruct (Z_le_dec m 11) as [L4|]; [|rewrite !Hout by (assumption || lia); reflexivity].
    rewrite !Hkey by (assumption || lia). apply Hstable.
Qed.

Lemma export_follows_key_witness :
  let items := [dated "A" 2023 (Some 5); dated "B" 2023 None; dated "C" 2024 (Some 1)] in
  Forall plainKey items /\
  Permutation (toSorted byDate items) items /\
  StronglySorted keyNotAfter (toSorted byDate items).
Proof.
  cbv zeta.
  assert (Hplain : Forall plainKey
            [dated "A" 2023 (Some 5); dated "B" 2023 None; dated "C" 2024 (Some 1)]).
  { repeat constructor.
    - exists 2023, 5. split; [reflexivity | lia].
    - exists 2023, 0. split; [reflexivity | lia].
    - exists 2024, 1. split; [reflexivity | lia]. }
  split; [exact Hplain|].
  destruct (export_follows_key _ Hplain) as (Hperm & Hsorted & _).
  split; [exact Hperm | exact Hsorted].
Defined.

(** ** The key listings and the loop over the keys *)

Lemma fold_add_In (l : list string) :
  forall (acc : list string) (k : string),
    In k (fold_left KeyListing.add l acc) <-> In k acc \/ In k l.
Proof.
  induction l as [|x l IH]; intros acc k; cbn [fold_left].
  - cbn. tauto.
  - rewrite IH. unfold KeyListing.add.
    destruct (KeyListing.has acc x) eqn:Eh.
    + apply has_In in Eh. cbn. split; [tauto|].
      intros [Hacc | [-> | Hl]]; tauto.
    + rewrite in_app_iff. cbn. tauto.
Qed.

Lemma fold_add_NoDup (l : list string) :
  forall acc : list string,
    List.NoDup acc -> List.NoDup (fold_left KeyListing.add l acc).
Proof.
  induction l as [|x l IH]; intros acc Hacc; cbn [fold_left]; [exact Hacc|].
  apply IH. unfold KeyListing.add.
  destruct (KeyListing.has acc x) eqn:Eh; [exact Hacc|].
  apply List.NoDup_app; [exact Hacc | repeat constructor; intros [] |].
  intros y Hy [Heq | []]. subst y. apply (proj2 (has_In acc x)) in Hy. congruence.
Qed.

Lemma fold_delete_In (l : list string) :
  forall (acc : list string) (k : string),
    In k (fold_left KeyListing.delete l acc) <-> In k acc /\ ~ In k l.
Proof.
  induction l as [|x l IH]; intros acc k; cbn [fold_left].
  - cbn. tauto.
  - rewrite IH. unfold KeyListing.delete. rewrite filter_In. cbn [In].
    destruct (String.eqb_spec x k) as [-> | Hne]; cbn [negb].
    + split; [intros [[_ ?] _]; discriminate | tauto].
    + split; [intros [[? _] ?]; tauto | tauto].
Qed.

Lemma fold_delete_NoDup (l : list string) :
  forall acc : list string,
    List.NoDup acc -> List.NoDup (fold_left KeyListing.delete l acc).
Proof.
  induction l as [|x l IH]; intros acc Hacc; cbn [fold_left]; [exact Hacc|].
  apply IH. unfold KeyListing.delete. now apply List.NoDup_filter.
Qed.



Section RetryLoop.
Variable zoteroItemResponse : Json -> Eff KeyListing.Item.
Hypothesis quiet_schema : forall j, quiet (zoteroItemResponse j).
Variable service : KeyListing.Service.
Hypothesis service_responsive : forall n, responsive (service n).

Lemma fetchZoteroItem_once (n : nat) (itemKey : string) :
  KeyListing.fetchZoteroItem zoteroItemResponse (service n) itemKey
  = ([HttpGet (KeyListing.itemRequest itemKey)],
     match fetched zoteroItemResponse (service n) itemKey with
     | Some i => Ok i
     | None => outcome (KeyListing.fetchZoteroItem zoteroItemResponse
                          (service n) itemKey)
     end) /\
  (fetched zoteroItemResponse (service n) itemKey = None ->
   exists e, outcome (KeyListing.fetchZoteroItem zoteroItemResponse
                        (service n) itemKey) = Throw e).
Proof.
  unfold fetched, KeyListing.fetchZoteroItem, fetch, responseJson.
  destruct (service_responsive n (KeyListing.itemRequest itemKey)) as [Hw Hj].
  destruct (service n (KeyListing.itemRequest itemKey)) as [r | e |] eqn:Ew;
    [| split; [reflexivity | eauto] | contradiction].
  specialize (Hj r eq_refl).
  rewrite (bind_eq _ _ _ r eq_refl). cbn beta.
  destruct (json r) as [j | e |] eqn:Ej;
    [| split; [reflexivity | eauto] | contradiction].
  rewrite (bind_pure _ _ _ eq_refl).
  destruct (quiet_outcome _ (quiet_schema j)) as [[i Hi] | [e He]].
  - rewrite Hi. split; [reflexivity | discriminate].
  - rewrite He. split; [reflexivity | eauto].
Qed.

Lemma fetchWithRetry_cases (n : nat) (itemKey : string) :
  let request := HttpGet (KeyListing.itemRequest itemKey) in
  KeyListing.fetchWithRetry zoteroItemResponse service n itemKey
  = match fetched zoteroItemResponse (service n) itemKey,
          fetched zoteroItemResponse (service (S n)) itemKey with
    | Some i, _ => ([request], Ok (Some i, S n))
    | None, Some i => ([request; request], Ok (Some i, S (S n)))
    | None, None =>
        ([request; request; ConsoleError "Could not fetch item" itemKey],
         Ok (None, S (S n)))
    end.
Proof.
  cbv zeta. unfold KeyListing.fetchWithRetry.
  destruct (fetchZoteroItem_once n itemKey) as [H1 E1].
  destruct (fetchZoteroItem_once (S n) itemKey) as [H2 E2].
  rewrite H1, H2.
  destruct (fetched zoteroItemResponse (service n) itemKey) as [i|];
    [reflexivity|].
  destruct (E1 eq_refl) as [e1 ->].
  destruct (fetched zoteroItemResponse (service (S n)) itemKey) as [i|];
    [reflexivity|].
  destruct (E2 eq_refl) as [e2 ->]. reflexivity.
Qed.

Lemma fetchItems_runs (itemKeys : list string) :
  forall n, exists t items n',
    KeyListing.fetchItems zoteroItemResponse service n itemKeys
    = (t, Ok (items, n')) /\
    (length items + length (List.filter isConsoleError t) = length itemKeys)%nat /\
    n' = (n + length (List.filter isRequest t))%nat /\
    (length itemKeys <= length (List.filter isRequest t) <= 2 * length itemKeys)%nat.
Proof.
  induction itemKeys as [|k rest IH]; intros n.
  - exists [], [], n. cbn. repeat split; lia.
  - cbn [KeyListing.fetchItems]. rewrite fetchWithRetry_cases. cbv zeta.
    destruct (fetched zoteroItemResponse (service n) k) as [i|].
    + destruct (IH (S n)) as (t & items & n' & Hrun & Hlen & Hn & Hreq).
      exists (HttpGet (KeyListing.itemRequest k) :: t), (i :: items), n'.
      unfold bind, ret. cbn [fst snd]. rewrite Hrun. cbn [fst snd app].
      rewrite app_nil_r. cbn [List.filter isConsoleError isRequest length].
      repeat split; lia.
    + destruct (fetched zoteroItemResponse (service (S n)) k) as [i|];
        destruct (IH (S (S n))) as (t & items & n' & Hrun & Hlen & Hn & Hreq).
      * exists (HttpGet (KeyListing.itemRequest k)
                :: HttpGet (KeyListing.itemRequest k) :: t), (i :: items), n'.
        unfold bind, ret. cbn [fst snd]. rewrite Hrun. cbn [fst snd app].
        rewrite app_nil_r. cbn [List.filter isConsoleError isRequest length].
        repeat split; lia.
      * exists (HttpGet (KeyListing.itemRequest k)
                :: HttpGet (KeyListing.itemRequest k)
                :: ConsoleError "Could not fetch item" k :: t), items, n'.
        unfold bind, ret. cbn [fst snd]. rewrite Hrun. cbn [fst snd app].
        rewrite app_nil_r. cbn [List.filter isConsoleError isRequest length].
        repeat split; lia.
Qed.


End RetryLoop.


(** ** The README *)

Lemma prefix_app (p rest : string) : String.prefix p (p +:+ rest) = true.
Proof. apply prefix_iff. now exists rest. Qed.

Lemma heading_not_across (c : ascii) (kept tail rest : string) :
  String.prefix "## Papers" (String c (kept +:+ tail)) = false ->
  String.prefix "## Papers" (String c (kept +:+ "## Papers" +:+ rest)) = false.
Proof.
  intros Hno.
  destruct kept as [|c1 [|c2 [|c3 [|c4 [|c5 [|c6 [|c7 [|c8 kept]]]]]]]];
    rewrite ?append_cons, ?append_nil_l in Hno |- *;
    cbn [String.prefix] in Hno |- *;
    repeat match goal with
           | |- context [ascii_dec ?a ?b] =>
               destruct (ascii_dec a b) as [<- | ?]; [|reflexivity]
           end;
    try reflexivity; try exact Hno.
  destruct (kept +:+ tail); discriminate Hno.
Qed.

Lemma beforeFirst_kept (kept rest : string) :
  includes kept "## Papers" = false ->
  Readme.beforeFirst "## Papers" (kept +:+ "## Papers" +:+ rest) = kept.
Proof.
  induction kept as [|c kept IH]; intros Hno.
  - rewrite append_nil_l.
    destruct (String.prefix "## Papers" ("## Papers" +:+ rest)) eqn:Ep.
    + destruct rest; cbn [Readme.beforeFirst]; rewrite ?append_cons;
        cbn [Readme.beforeFirst]; rewrite ?append_cons in Ep; now rewrite Ep.
    + now rewrite prefix_app in Ep.
  - cbn [includes] in Hno. apply orb_false_iff in Hno. destruct Hno as [Hp Hrest].
    rewrite (append_cons c kept). cbn [Readme.beforeFirst].
    rewrite <- (append_nil_r kept) in Hp.
    rewrite (heading_not_across c kept "" rest Hp).
    rewrite IH by exact Hrest. reflexivity.
Qed.

Lemma beforeFirst_whole (s : string) :
  includes s "## Papers" = false -> Readme.beforeFirst "## Papers" s = s.
Proof.
  induction s as [|c s IH]; intros Hno; [reflexivity|].
  cbn [includes] in Hno. apply orb_false_iff in Hno. destruct Hno as [Hp Hrest].
  cbn [Readme.beforeFirst]. rewrite Hp, IH by exact Hrest. reflexivity.
Qed.

Lemma beforeFirst_prefix (sep s : string) :
  exists tail, s = Readme.beforeFirst sep s +:+ tail.
Proof.
  induction s as [|c s [tail IH]].
  - exists "". cbn. destruct sep; reflexivity.
  - cbn [Readme.beforeFirst]. destruct (String.prefix sep (String c s)).
    + eexists. reflexivity.
    + exists tail. rewrite append_cons. now rewrite <- IH.
Qed.

Lemma beforeFirst_free (s : string) :
  includes (Readme.beforeFirst "## Papers" s) "## Papers" = false.
Proof.
  induction s as [|c s IH]; [reflexivity|].
  cbn [Readme.beforeFirst].
  destruct (String.prefix "## Papers" (String c s)) eqn:Ep; [reflexivity|].
  cbn [includes]. rewrite IH, orb_false_r.
  destruct (String.prefix "## Papers"
              (String c (Readme.beforeFirst "## Papers" s))) eqn:Eq;
    [|reflexivity].
  apply prefix_iff in Eq. destruct Eq as [post Hpost].
  destruct (beforeFirst_prefix "## Papers" s) as [tail Htail].
  assert (Hs : String.prefix "## Papers" (String c s) = true).
  { apply prefix_iff. exists (post +:+ tail).
    rewrite Htail at 1. rewrite <- append_cons, Hpost, append_assoc. reflexivity. }
  congruence.
Qed.

Lemma main_section (readme pubs preprints : string) :
  Readme.main readme pubs preprints
  = Readme.beforeFirst "## Papers" readme +:+ papersSection pubs preprints.
Proof.
  unfold Readme.main, papersSection. cbv zeta.
  rewrite !append_assoc. reflexivity.
Qed.

(** X18.  The script keeps the text of the README before the first
    [## Papers] and replaces all that follows by the heading and the two
    tables; a README without the heading is kept whole and gets the section
    at its end.  Running the script again replaces the section instead of
    adding a second one. *)
Theorem readme_section_is_replaced (readme pubs preprints : string) :
  (forall kept rest,
      includes kept "## Papers" = false ->
      readme = kept +:+ "## Papers" +:+ rest ->
      Readme.main readme pubs preprints = kept +:+ papersSection pubs preprints) /\
  (includes readme "## Papers" = false ->
   Readme.main readme pubs preprints = readme +:+ papersSection pubs preprints) /\
  (forall pubs' preprints',
      Readme.main (Readme.main readme pubs preprints) pubs' preprints'
      = Readme.main readme pubs' preprints').
Proof.
  split; [|split].
  - intros kept rest Hno ->. rewrite main_section.
    now rewrite beforeFirst_kept.
  - intros Hno. rewrite main_section. now rewrite beforeFirst_whole.
  - intros pubs' preprints'. rewrite !main_section. f_equal.
    unfold papersSection. apply beforeFirst_kept, beforeFirst_free.
Qed.
